(** * SPS30 tray logger: the sampling engine of [sps30_tray_logger_win.py]

    A shallow embedding of the data store ([DataStore]), of the statistics
    helpers ([_avg], [Dashboard._format_stats]), of the read-shape
    normalisation of [SPS30Reader._read_measurement] and of the
    connection / sampling state machine ([SPS30Reader]).

    Conventions.
    - A [datetime] is the number of microseconds since the epoch, a [Z]
      (Python's [datetime] has microsecond resolution); a [timedelta] is a
      signed number of microseconds.
    - A Python [float] is an IEEE 754 binary64 number: Rocq's primitive
      [float], with the same operations and the same [nan].
    - The sensor driver, the clock and the operating system are the
      environment: every call into them takes its outcome as an explicit
      input, and every call the code makes is recorded in a trace of
      [event]s. *)

From Stdlib Require Import ZArith List Bool Lia Sorted String Ascii DecimalString.
From Stdlib Require Import PrimFloat SpecFloat FloatOps.
From Stdlib Require FloatAxioms Uint63.
Import ListNotations.

Set Warnings "-inexact-float,-register-all".
Local Open Scope Z_scope.

(** * Part I: the program *)

(** ** Python built-ins the code relies on *)

Module Py.

(** [min(a, b)] on two floats: the first argument unless the second is
    strictly smaller. *)
Definition min (a b : float) : float := if PrimFloat.ltb b a then b else a.

(** [max(a, b)] on two floats: the first argument unless the second is
    strictly greater. *)
Definition max (a b : float) : float := if PrimFloat.ltb a b then b else a.

(** [max(iterable)]: the first item, replaced by each later item that is
    strictly greater; [None] stands for the [ValueError] on an empty
    sequence. *)
Definition max_list (l : list float) : option float :=
  match l with
  | [] => None
  | x :: rest => Some (fold_left max rest x)
  end.

(** [sum(values)]: left to right, from the integer [0] (which float
    addition reads as [0.0]). *)
Definition sum (l : list float) : float := fold_left PrimFloat.add l 0%float.

(** [float(n)] for an integer [n]: round to nearest even, [None] for the
    [OverflowError] of an integer beyond the binary64 range. *)
Definition float_of_int (n : Z) : option float :=
  match binary_normalize prec emax n 0 false with
  | S754_infinity _ => None
  | sf => Some (SF2Prim sf)
  end.

(** The float a sequence length is read as by true division. *)
Definition float_of_len (n : nat) : float :=
  SF2Prim (binary_normalize prec emax (Z.of_nat n) 0 false).

(** Truth value of a float: every float but zero. *)
Definition truthy_float (x : float) : bool := negb (PrimFloat.eqb x 0%float).

(** Truth value of an optional string: neither [None] nor empty. *)
Definition truthy_str (s : option string) : bool :=
  match s with
  | None => false
  | Some EmptyString => false
  | Some _ => true
  end.

(** [c.upper()] on an ASCII character. *)
Definition upper_ascii (c : ascii) : ascii :=
  let n := nat_of_ascii c in
  if (Nat.leb 97 n && Nat.leb n 122)%bool then ascii_of_nat (n - 32) else c.

(** [s.upper()] (ASCII letters; other characters are kept). *)
Fixpoint upper (s : string) : string :=
  match s with
  | EmptyString => EmptyString
  | String c rest => String (upper_ascii c) (upper rest)
  end.

(** [s.startswith(p)] *)
Definition startswith (s p : string) : bool := String.prefix p s.

(** [f'COM{i}'] *)
Definition com (i : nat) : string :=
  String.append "COM" (NilZero.string_of_uint (Nat.to_uint i)).

(** [[f'COM{i}' for i in range(lo, hi)]] *)
Definition com_range (lo hi : nat) : list string := map com (seq lo (hi - lo)%nat).

(** The values the sensor drivers hand back. An object that is no number
    and no container is known by its attributes and by what [float()] makes
    of it ([None]: [float()] raises; a string is such an object). *)
Inductive value : Type :=
| VNone
| VBool (b : bool)
| VInt (n : Z)
| VFloat (x : float)
| VList (items : list value)
| VTuple (items : list value)
| VDict (entries : list (string * value))
| VObject (attrs : list (string * value)) (as_float : option float).

(** [float(v)]; [None] when it raises. *)
Definition float (v : value) : option PrimFloat.float :=
  match v with
  | VNone => None
  | VBool b => Some (if b then 1%float else 0%float)
  | VInt n => float_of_int n
  | VFloat x => Some x
  | VList _ | VTuple _ | VDict _ => None
  | VObject _ x => x
  end.

Fixpoint assoc (key : string) (l : list (string * value)) : option value :=
  match l with
  | [] => None
  | (k, v) :: rest => if String.eqb k key then Some v else assoc key rest
  end.

(** [hasattr(v, name)], for the measurement attributes: only an object
    carries them. *)
Definition hasattr (v : value) (name : string) : bool :=
  match v with
  | VObject attrs _ => match assoc name attrs with Some _ => true | None => false end
  | _ => false
  end.

(** [getattr(v, name, default)] *)
Definition getattr (v : value) (name : string) (default : value) : value :=
  match v with
  | VObject attrs _ => match assoc name attrs with Some x => x | None => default end
  | _ => default
  end.

(** [d.get(key, default)] on the entries of a dict. *)
Definition dict_get (d : list (string * value)) (key : string) (default : value) : value :=
  match assoc key d with Some x => x | None => default end.

(** [isinstance(v, (list, tuple))], with the items. *)
Definition as_sequence (v : value) : option (list value) :=
  match v with
  | VList items | VTuple items => Some items
  | _ => None
  end.

Definition is_sequence (v : value) : bool :=
  match as_sequence v with Some _ => true | None => false end.

(** [len(v)] of a sequence. *)
Definition len (items : list value) : Z := Z.of_nat (List.length items).

(** [items[i]] for a non-negative index; [None] for the [IndexError]. *)
Definition item (items : list value) (i : nat) : option value := nth_error items i.

(** [v[i]] for a non-negative integer index on any value; [None] when it
    raises (no sequence, a dict without that key, index out of range). *)
Definition subscript (v : value) (i : nat) : option value :=
  match as_sequence v with
  | Some items => item items i
  | None => None
  end.

End Py.

(** ** Sample *)

(** [Sample = namedtuple('Sample', ['ts', 'pm1', 'pm25', 'pm4', 'pm10'])] *)
Record Sample : Type := mkSample {
  ts   : Z;
  pm1  : float;
  pm25 : float;
  pm4  : float;
  pm10 : float
}.

(** ** DataStore *)

Module DataStore.

(** [timedelta(days=7)], in microseconds. *)
Definition seven_days : Z := 7 * 86400 * 1000000.

(** [while self.samples and self.samples[0].ts < cutoff: self.samples.popleft()] *)
Fixpoint popleft_while (cutoff : Z) (samples : list Sample) : list Sample :=
  match samples with
  | [] => []
  | s0 :: rest =>
      if ts s0 <? cutoff then popleft_while cutoff rest else samples
  end.

(** [DataStore.add]; [now] is the reading of [datetime.now()]. *)
Definition add (now : Z) (sample : Sample) (samples : list Sample) : list Sample :=
  let samples := samples ++ [sample] in
  let cutoff := now - seven_days in
  popleft_while cutoff samples.

(** [DataStore.get_window]; [window_td = None] is Python's [None]. *)
Definition get_window (now : Z) (window_td : option Z) (samples : list Sample)
  : list Sample :=
  match window_td with
  | None => samples
  | Some td =>
      let cutoff := now - td in
      filter (fun s => ts s >=? cutoff) samples
  end.

(** A sequence of [add] calls, each with the clock reading at the call,
    on the deque they share. *)
Definition add_all (calls : list (Z * Sample)) (samples : list Sample)
  : list Sample :=
  fold_left (fun acc c => add (fst c) (snd c) acc) calls samples.

(** [DataStore.__init__]: [self.samples = deque()]. *)
Definition empty : list Sample := [].

(** Sorted by timestamp, ascending (equal timestamps allowed). *)
Definition sorted_by_ts (l : list Sample) : Prop :=
  StronglySorted (fun a b => ts a <= ts b) l.

(** No sample older than seven days at the instant [now]. *)
Definition none_older_than_7d (now : Z) (l : list Sample) : Prop :=
  Forall (fun s => now - seven_days <= ts s) l.

(** [l'] is [l] with elements removed from its front (the oldest end) only. *)
Definition trimmed_from_front (l l' : list Sample) : Prop :=
  exists dropped, l = dropped ++ l'.

(** The time of the last [add] of a sequence of calls. *)
Definition last_add_time (calls : list (Z * Sample)) : option Z :=
  match rev calls with
  | [] => None
  | c :: _ => Some (fst c)
  end.

End DataStore.

(** ** Statistics of the dashboard *)

Module Stats.

(** [_avg]: the mean of the values that are not NaN, NaN when none is left. *)
Definition _avg (values : list float) : float :=
  let vals := filter (fun v => PrimFloat.eqb v v) values in
  match vals with
  | [] => nan
  | _ => PrimFloat.div (Py.sum vals) (Py.float_of_len (List.length vals))
  end.

Section FormatStats.

(** [f'{v:.4f}'], the fixed-point formatting of the language. *)
Variable format_4f : float -> string.

(** [fmt] of [_format_stats]; a value is always a float here. *)
Definition fmt (v : float) : string :=
  if negb (PrimFloat.eqb v v) then "-"%string else format_4f v.

(** [fmt(max(values))]; [max] of an empty list is never asked for. *)
Definition fmt_max (values : list float) : string :=
  match Py.max_list values with
  | Some v => fmt v
  | None => "-"%string
  end.

(** [f"{label}{a} / {b} / {c} / {d}"] *)
Definition row (label a b c d : string) : string :=
  (label ++ a ++ " / " ++ b ++ " / " ++ c ++ " / " ++ d)%string.

(** [Dashboard._format_stats] *)
Definition _format_stats (samples : list Sample) : string * string * string :=
  match rev samples with
  | [] => ("Now: - / - / - / -", "Avg: - / - / - / -", "Max: - / - / - / -")%string
  | last :: _ =>
      let pm1s := map pm1 samples in
      let pm25s := map pm25 samples in
      let pm4s := map pm4 samples in
      let pm10s := map pm10 samples in
      let now_str :=
        row "Now: " (fmt (pm1 last)) (fmt (pm25 last)) (fmt (pm4 last)) (fmt (pm10 last)) in
      let avg_str :=
        row "Avg: " (fmt (_avg pm1s)) (fmt (_avg pm25s)) (fmt (_avg pm4s)) (fmt (_avg pm10s)) in
      let max_str :=
        row "Max: " (fmt_max pm1s) (fmt_max pm25s) (fmt_max pm4s) (fmt_max pm10s) in
      (now_str, avg_str, max_str)
  end.

End FormatStats.

(** The four concentration fields of a [Sample]. *)
Inductive field : Type := PM1 | PM25 | PM4 | PM10.



(** [s._replace(f=v)] *)
Definition set (f : field) (v : float) (s : Sample) : Sample :=
  match f with
  | PM1 => mkSample (ts s) v (pm25 s) (pm4 s) (pm10 s)
  | PM25 => mkSample (ts s) (pm1 s) v (pm4 s) (pm10 s)
  | PM4 => mkSample (ts s) (pm1 s) (pm25 s) v (pm10 s)
  | PM10 => mkSample (ts s) (pm1 s) (pm25 s) (pm4 s) v
  end.




End Stats.

(** ** Read-shape normalisation *)

Module Normalize.

(** [_to_float] of [_read_measurement] *)
Definition _to_float (x : Py.value) : float :=
  match Py.float x with
  | Some v => v
  | None => nan
  end.

(** [items[i]] under a length guard that makes it defined. *)
Definition at_ (items : list Py.value) (i : nat) : Py.value :=
  nth i items Py.VNone.

(** The extraction of the four mass concentrations from whatever the legacy
    driver returned (the [if]/[elif] chain of [_read_measurement]); the
    four names start as NaN and stay so when no shape matches. *)
Definition extract_legacy (m : Py.value) : float * float * float * float :=
  let nan_ := Py.VFloat nan in
  if (Py.hasattr m "pm1p0" || Py.hasattr m "pm2p5")%bool then
    (_to_float (Py.getattr m "pm1p0" nan_), _to_float (Py.getattr m "pm2p5" nan_),
     _to_float (Py.getattr m "pm4p0" nan_), _to_float (Py.getattr m "pm10p0" nan_))
  else
    match m with
    | Py.VDict d =>
        (_to_float (Py.dict_get d "pm1p0" nan_), _to_float (Py.dict_get d "pm2p5" nan_),
         _to_float (Py.dict_get d "pm4p0" nan_), _to_float (Py.dict_get d "pm10p0" nan_))
    | _ =>
        match Py.as_sequence m with
        | Some items =>
            if ((Py.len items >=? 4)
                && negb ((Py.len items =? 3) && Py.is_sequence (at_ items 0)))%bool
            then
              (_to_float (at_ items 0), _to_float (at_ items 1),
               _to_float (at_ items 2), _to_float (at_ items 3))
            else
              match (if Py.len items >=? 1 then Py.as_sequence (at_ items 0) else None) with
              | Some inner =>
                  if Py.len inner >=? 4 then
                    (_to_float (at_ inner 0), _to_float (at_ inner 1),
                     _to_float (at_ inner 2), _to_float (at_ inner 3))
                  else (nan, nan, nan, nan)
              | None => (nan, nan, nan, nan)
              end
        | None => (nan, nan, nan, nan)
        end
    end.

(** The [Sample] the legacy path returns for the raw value [m], stamped
    with [now = datetime.now()]. *)
Definition sample_legacy (now : Z) (m : Py.value) : Sample :=
  let '(a, b, c, d) := extract_legacy m in
  mkSample now a b c d.

(** The modern path: [float(values[i])] for the first four items, then the
    fixed-point heuristic; [None] when an item is missing or no number (the
    exception makes the read fail). *)
Definition extract_uart (values : Py.value) : option (float * float * float * float) :=
  match Py.subscript values 0, Py.subscript values 1,
        Py.subscript values 2, Py.subscript values 3 with
  | Some v0, Some v1, Some v2, Some v3 =>
      match Py.float v0, Py.float v1, Py.float v2, Py.float v3 with
      | Some a, Some b, Some c, Some d =>
          let max_val := fold_left Py.max [b; c; d] a in
          if PrimFloat.ltb 1000%float max_val then
            Some (PrimFloat.div a 100000%float, PrimFloat.div b 100000%float,
                  PrimFloat.div c 100000%float, PrimFloat.div d 100000%float)
          else Some (a, b, c, d)
      | _, _, _, _ => None
      end
  | _, _, _, _ => None
  end.

End Normalize.

(** ** SPS30Reader: the connection and sampling state machine *)

Module SPS30Reader.

(** The driver classes the module managed to import; [false] is the [None]
    an import failure leaves. *)
Record Drivers : Type := mkDrivers {
  ShdlcSerialPort : bool;
  ShdlcConnection : bool;
  Sps30ShdlcDevice : bool;
  ShdlcChannel : bool;
  Sps30UartDevice : bool;
  OutputFormat : bool
}.

(** A device object: the port it was built on and the methods [hasattr]
    finds on it. *)
Record Device : Type := mkDevice {
  on_port : string;
  has_stop_measurement : bool;
  has_start_measurement : bool;
  has_is_data_ready : bool;
  has_read_measured_values : bool;
  has_read_measured_value : bool;
  has_read_measurement_values_uint16 : bool
}.

(** What the code does to the world, in the order it does it. *)
Inductive event : Type :=
| EvSleep (seconds : float)                      (* time.sleep(seconds) *)
| EvConnect (ports_to_try : list string)         (* _connect scans these candidates *)
| EvOpenPort (name : string) (ok : bool)         (* ShdlcSerialPort(name, ...) *)
| EvNewDevice (name : string) (ok : bool)        (* channel / connection and device built *)
| EvClosePort (name : string)                    (* port.close() *)
| EvDisconnect                                   (* _disconnect() entered *)
| EvStopMeasurement (name : string)              (* device.stop_measurement() *)
| EvStartMeasurement (with_format ok : bool)     (* device.start_measurement(...) *)
| EvIsDataReady                                  (* device.is_data_ready() *)
| EvRead (ok : bool)                             (* device.read_...() *)
| EvCallback (s : Sample)                        (* on_sample_callback(sample) *)
| EvSpawn (thread : nat)                         (* Thread(target=self._run).start() *)
| EvJoin (thread : nat) (exited : bool).         (* thread.join(timeout=3.0) *)

(** The attributes of an [SPS30Reader] instance. An event ([threading.Event])
    is its flag; the thread, the connection and the port are known by a
    name; [on_sample_callback] tells whether a callback is installed. *)
Record Reader : Type := mkReader {
  uart_port : option string;
  sample_period_s : float;
  on_sample_callback : bool;
  _stop_event : bool;
  _paused : bool;
  _thread : option nat;
  _device : option Device;
  _conn : option string;
  _port : option string;
  _consecutive_read_failures : Z;
  _max_consecutive_failures : Z;
  _last_sample_time : option Z;
  _measurement_started : bool;
  _warmup_deadline : float;
  _debug_sample_counter : Z
}.

(** Assignment to one attribute, [self.<attribute> = v]. *)
Definition upd_uart_port (v : option string) (r : Reader) : Reader :=
  mkReader v (sample_period_s r) (on_sample_callback r) (_stop_event r) (_paused r)
    (_thread r) (_device r) (_conn r) (_port r) (_consecutive_read_failures r)
    (_max_consecutive_failures r) (_last_sample_time r) (_measurement_started r)
    (_warmup_deadline r) (_debug_sample_counter r).

Definition upd_stop_event (v : bool) (r : Reader) : Reader :=
  mkReader (uart_port r) (sample_period_s r) (on_sample_callback r) v (_paused r)
    (_thread r) (_device r) (_conn r) (_port r) (_consecutive_read_failures r)
    (_max_consecutive_failures r) (_last_sample_time r) (_measurement_started r)
    (_warmup_deadline r) (_debug_sample_counter r).

Definition upd_paused (v : bool) (r : Reader) : Reader :=
  mkReader (uart_port r) (sample_period_s r) (on_sample_callback r) (_stop_event r) v
    (_thread r) (_device r) (_conn r) (_port r) (_consecutive_read_failures r)
    (_max_consecutive_failures r) (_last_sample_time r) (_measurement_started r)
    (_warmup_deadline r) (_debug_sample_counter r).

Definition upd_thread (v : option nat) (r : Reader) : Reader :=
  mkReader (uart_port r) (sample_period_s r) (on_sample_callback r) (_stop_event r)
    (_paused r) v (_device r) (_conn r) (_port r) (_consecutive_read_failures r)
    (_max_consecutive_failures r) (_last_sample_time r) (_measurement_started r)
    (_warmup_deadline r) (_debug_sample_counter r).

Definition upd_device (v : option Device) (r : Reader) : Reader :=
  mkReader (uart_port r) (sample_period_s r) (on_sample_callback r) (_stop_event r)
    (_paused r) (_thread r) v (_conn r) (_port r) (_consecutive_read_failures r)
    (_max_consecutive_failures r) (_last_sample_time r) (_measurement_started r)
    (_warmup_deadline r) (_debug_sample_counter r).

Definition upd_conn (v : option string) (r : Reader) : Reader :=
  mkReader (uart_port r) (sample_period_s r) (on_sample_callback r) (_stop_event r)
    (_paused r) (_thread r) (_device r) v (_port r) (_consecutive_read_failures r)
    (_max_consecutive_failures r) (_last_sample_time r) (_measurement_started r)
    (_warmup_deadline r) (_debug_sample_counter r).

Definition upd_port (v : option string) (r : Reader) : Reader :=
  mkReader (uart_port r) (sample_period_s r) (on_sample_callback r) (_stop_event r)
    (_paused r) (_thread r) (_device r) (_conn r) v (_consecutive_read_failures r)
    (_max_consecutive_failures r) (_last_sample_time r) (_measurement_started r)
    (_warmup_deadline r) (_debug_sample_counter r).

Definition upd_consecutive_read_failures (v : Z) (r : Reader) : Reader :=
  mkReader (uart_port r) (sample_period_s r) (on_sample_callback r) (_stop_event r)
    (_paused r) (_thread r) (_device r) (_conn r) (_port r) v (_max_consecutive_failures
    r) (_last_sample_time r) (_measurement_started r) (_warmup_deadline r)
    (_debug_sample_counter r).

Definition upd_last_sample_time (v : option Z) (r : Reader) : Reader :=
  mkReader (uart_port r) (sample_period_s r) (on_sample_callback r) (_stop_event r)
    (_paused r) (_thread r) (_device r) (_conn r) (_port r) (_consecutive_read_failures
    r) (_max_consecutive_failures r) v (_measurement_started r) (_warmup_deadline r)
    (_debug_sample_counter r).

Definition upd_measurement_started (v : bool) (r : Reader) : Reader :=
  mkReader (uart_port r) (sample_period_s r) (on_sample_callback r) (_stop_event r)
    (_paused r) (_thread r) (_device r) (_conn r) (_port r) (_consecutive_read_failures
    r) (_max_consecutive_failures r) (_last_sample_time r) v (_warmup_deadline r)
    (_debug_sample_counter r).

Definition upd_warmup_deadline (v : float) (r : Reader) : Reader :=
  mkReader (uart_port r) (sample_period_s r) (on_sample_callback r) (_stop_event r)
    (_paused r) (_thread r) (_device r) (_conn r) (_port r) (_consecutive_read_failures
    r) (_max_consecutive_failures r) (_last_sample_time r) (_measurement_started r) v
    (_debug_sample_counter r).

Definition upd_debug_sample_counter (v : Z) (r : Reader) : Reader :=
  mkReader (uart_port r) (sample_period_s r) (on_sample_callback r) (_stop_event r)
    (_paused r) (_thread r) (_device r) (_conn r) (_port r) (_consecutive_read_failures
    r) (_max_consecutive_failures r) (_last_sample_time r) (_measurement_started r)
    (_warmup_deadline r) v.

(** [SPS30Reader.__init__] *)
Definition init (uart_port : option string) (sample_period_s : float)
  (on_sample_callback : bool) : Reader :=
  {| uart_port := uart_port;
     sample_period_s := Py.max 0.5%float sample_period_s;
     on_sample_callback := on_sample_callback;
     _stop_event := false;
     _paused := false;
     _thread := None;
     _device := None;
     _conn := None;
     _port := None;
     _consecutive_read_failures := 0;
     _max_consecutive_failures := 50;
     _last_sample_time := None;
     _measurement_started := false;
     _warmup_deadline := 0%float;
     _debug_sample_counter := 0 |}.

(** What the two start calls do on the device at hand: whether
    [start_measurement(OutputFormat(261))] and the parameterless
    [start_measurement()] return ([true]) or raise ([false]). *)
Record StartOutcome : Type := mkStart {
  with_format_ok : bool;
  plain_ok : bool
}.

(** [SPS30Reader._disconnect] *)
Definition _disconnect (r : Reader) : Reader * list event :=
  let ev_stop :=
    match _device r with
    | Some dev =>
        if has_stop_measurement dev then [EvStopMeasurement (on_port dev)] else []
    | None => []
    end in
  let r := upd_device None r in
  let r := match _conn r with Some _ => upd_conn None r | None => r end in
  let ev_close :=
    match _port r with
    | Some p => [EvClosePort p]
    | None => []
    end in
  let r := upd_port None r in
  (r, EvDisconnect :: ev_stop ++ ev_close).

(** [SPS30Reader._ensure_started] *)
Definition _ensure_started (drv : Drivers) (o : StartOutcome) (r : Reader)
  : Reader * list event :=
  match _device r with
  | None => (r, [])
  | Some dev =>
      if _measurement_started r then (r, [])
      else if has_start_measurement dev then
        if (OutputFormat drv && with_format_ok o)%bool then
          (upd_measurement_started true r, [EvStartMeasurement true true])
        else
          let tried := if OutputFormat drv then [EvStartMeasurement true false] else [] in
          if plain_ok o then
            (upd_measurement_started true r, tried ++ [EvStartMeasurement false true])
          else (r, tried ++ [EvStartMeasurement false false])
      else (r, [])
  end.

(** What opening one candidate port leads to. *)
Inductive Probe : Type :=
| OpenFails                                   (* ShdlcSerialPort(...) raises *)
| AdapterFails                                (* the port opens, building the device raises *)
| Opened (dev : Device) (start : StartOutcome).

(** What the environment answers during one iteration of the loop. *)
Record Env : Type := mkEnv {
  detected : option (list string);   (* detect_serial_ports(); None: it raises *)
  probe : string -> Probe;
  clock_connect : float;             (* time.time() when _connect succeeds *)
  clock_read : float;                (* time.time() at the warm-up test *)
  ready : nat -> option bool;        (* the i-th is_data_ready(); None: it raises *)
  legacy_read : option Py.value;     (* read_measured_value(s)(); None: it raises *)
  uart_read : option Py.value;       (* read_measurement_values_uint16() *)
  now_sample : Z;                    (* datetime.now() stamped on the sample *)
  now_done : Z;                      (* datetime.now() kept as _last_sample_time *)
  restart : StartOutcome;            (* the start calls of the re-arming _ensure_started *)
  idle_sleeps : nat                  (* rounds of the 50 ms wait for the next period *)
}.

(** The guard at the top of [_connect]: no usable driver combination. *)
Definition no_driver (drv : Drivers) : bool :=
  ((negb (ShdlcSerialPort drv) || negb (ShdlcConnection drv) || negb (Sps30ShdlcDevice drv))
   && negb (ShdlcSerialPort drv && ShdlcChannel drv && Sps30UartDevice drv))%bool.

(** The candidate list of [_connect]. *)
Definition ports_to_try (uart_port : option string) (detected : option (list string))
  : list string :=
  match uart_port with
  | Some p =>
      if Py.truthy_str uart_port then [p]
      else
        let detected :=
          match detected with
          | Some ports => filter (fun p => Py.startswith (Py.upper p) "COM") ports
          | None => []
          end in
        match detected with [] => Py.com_range 3 41 | _ => detected end
  | None =>
      let detected :=
        match detected with
        | Some ports => filter (fun p => Py.startswith (Py.upper p) "COM") ports
        | None => []
        end in
      match detected with [] => Py.com_range 3 41 | _ => detected end
  end.

(** One round of the [for port_name in ports_to_try] loop. [port_var] is the
    local variable [port]: unbound ([None]) until a port has been opened,
    and still bound to the previous round's port when the next open fails.
    The result is the reader on success, and on failure the new binding of
    [port]. *)
Definition try_port (drv : Drivers) (env : Env) (port_name : string)
  (port_var : option string) (r : Reader)
  : (Reader + option string) * list event :=
  let close_of pv := match pv with Some p => [EvClosePort p] | None => [] end in
  match probe env port_name with
  | OpenFails => (inr port_var, EvOpenPort port_name false :: close_of port_var)
  | AdapterFails =>
      (inr (Some port_name),
       [EvOpenPort port_name true; EvNewDevice port_name false; EvClosePort port_name])
  | Opened dev start =>
      if (ShdlcChannel drv && Sps30UartDevice drv)%bool then
        let r := upd_device (Some dev) r in
        let r := upd_port (Some port_name) r in
        let r := upd_conn None r in
        let '(r, evs) := _ensure_started drv start r in
        let r := upd_warmup_deadline (PrimFloat.add (clock_connect env) 5%float) r in
        (inl r, EvOpenPort port_name true :: EvNewDevice port_name true :: evs)
      else if Sps30ShdlcDevice drv then
        let r := upd_device (Some dev) r in
        let r := upd_port (Some port_name) r in
        let r := upd_conn (Some port_name) r in
        let '(r, evs) := _ensure_started drv start r in
        let r := upd_warmup_deadline (PrimFloat.add (clock_connect env) 5%float) r in
        (inl r, EvOpenPort port_name true :: EvNewDevice port_name true :: evs)
      else
        (inr (Some port_name), [EvOpenPort port_name true; EvClosePort port_name])
  end.

(** The [for] loop of [_connect]. *)
Fixpoint try_ports (drv : Drivers) (env : Env) (ports : list string)
  (port_var : option string) (r : Reader) : bool * Reader * list event :=
  match ports with
  | [] => (false, r, [])
  | port_name :: rest =>
      match try_port drv env port_name port_var r with
      | (inl r, evs) => (true, r, evs)
      | (inr port_var, evs) =>
          let r := upd_port None r in
          let r := upd_conn None r in
          let r := upd_device None r in
          let '(ok, r, evs') := try_ports drv env rest port_var r in
          (ok, r, evs ++ evs')
      end
  end.

(** [SPS30Reader._connect] *)
Definition _connect (drv : Drivers) (env : Env) (r : Reader)
  : bool * Reader * list event :=
  if no_driver drv then (false, r, [])
  else
    let ports := ports_to_try (uart_port r) (detected env) in
    let '(ok, r, evs) := try_ports drv env ports None r in
    (ok, r, EvConnect ports :: evs).

(** The data-ready polling loops: [for _ in range(n)], round [i] first. *)
Fixpoint poll (dev : Device) (env : Env) (i n : nat) : list event :=
  match n with
  | O => []
  | S n' =>
      if has_is_data_ready dev then
        match ready env i with
        | Some true => [EvIsDataReady]
        | None => [EvIsDataReady]
        | Some false => EvIsDataReady :: EvSleep 0.1%float :: poll dev env (S i) n'
        end
      else EvSleep 0.1%float :: poll dev env (S i) n'
  end.

(** [self._debug_sample_counter += 1] *)
Definition count_debug_sample (r : Reader) : Reader :=
  upd_debug_sample_counter (_debug_sample_counter r + 1) r.

(** The warm-up test of [_read_measurement]. *)
Definition warming_up (env : Env) (r : Reader) : bool :=
  (Py.truthy_float (_warmup_deadline r)
   && PrimFloat.ltb (clock_read env) (_warmup_deadline r))%bool.

(** [SPS30Reader._read_measurement]; the result [None] is Python's [None]. *)
Definition _read_measurement (env : Env) (r : Reader)
  : option Sample * Reader * list event :=
  match _device r with
  | None => (None, r, [])
  | Some dev =>
      if warming_up env r then (None, r, [EvSleep 0.2%float])
      else if (has_read_measured_values dev || has_read_measured_value dev)%bool then
        let polled := poll dev env 0 10 in
        match legacy_read env with
        | None => (None, r, polled ++ [EvRead false])
        | Some m =>
            let r := count_debug_sample r in
            let sample := Normalize.sample_legacy (now_sample env) m in
            let r := count_debug_sample r in
            (Some sample, r, polled ++ [EvRead true])
        end
      else if has_read_measurement_values_uint16 dev then
        let polled := poll dev env 0 20 in
        match uart_read env with
        | None => (None, r, polled ++ [EvRead false])
        | Some values =>
            match Normalize.extract_uart values with
            | None => (None, r, polled ++ [EvRead true])
            | Some (a, b, c, d) =>
                let r := count_debug_sample r in
                (Some (mkSample (now_sample env) a b c d), r, polled ++ [EvRead true])
            end
        end
      else (None, r, [])
  end.

(** The state of [_run]: the reader and the local variable [backoff_s]. *)
Record Loop : Type := mkLoop {
  reader : Reader;
  backoff_s : float
}.

(** [_run] before its first iteration. *)
Definition loop_start (r : Reader) : Loop := mkLoop r 1%float.

(** How one iteration of the [while] loop ends. *)
Inductive Outcome : Type :=
| ConnectFailed            (* no device and _connect() failed *)
| Paused                   (* the pause flag is set *)
| ReadFailed               (* the read gave None, below the threshold *)
| Reconnect                (* the read gave None and the threshold is reached *)
| Sampled (s : Sample).

(** The first block of the loop body: connect when no device is open.
    [false]: the iteration ends here ([continue]). *)
Definition connect_step (drv : Drivers) (env : Env) (lp : Loop)
  : bool * Loop * list event :=
  match _device (reader lp) with
  | Some _ => (true, lp, [])
  | None =>
      let '(ok, r, evs) := _connect drv env (reader lp) in
      if negb ok then
        (false, mkLoop r (Py.min 10%float (PrimFloat.mul (backoff_s lp) 1.5%float)),
         evs ++ [EvSleep (Py.min 10%float (backoff_s lp))])
      else
        (true, mkLoop (upd_consecutive_read_failures 0 r) 1%float, evs)
  end.

(** The rest of the loop body once the pause flag is found clear: one read
    and what follows from it. *)
Definition read_step (drv : Drivers) (env : Env) (lp : Loop)
  : Outcome * Loop * list event :=
  let '(sample, r, evs) := _read_measurement env (reader lp) in
  match sample with
  | None =>
      let r := upd_consecutive_read_failures (_consecutive_read_failures r + 1) r in
      if _consecutive_read_failures r >=? _max_consecutive_failures r then
        let '(r, evd) := _disconnect r in
        let r := upd_consecutive_read_failures 0 r in
        let r := upd_measurement_started false r in
        (Reconnect, mkLoop r (backoff_s lp), evs ++ evd ++ [EvSleep 1%float])
      else
        let '(r, eve) := _ensure_started drv (restart env) r in
        (ReadFailed, mkLoop r (backoff_s lp), evs ++ eve ++ [EvSleep 0.5%float])
  | Some s =>
      let evc := if on_sample_callback r then [EvCallback s] else [] in
      let r := upd_consecutive_read_failures 0 r in
      let r := upd_last_sample_time (Some (now_done env)) r in
      (Sampled s, mkLoop r (backoff_s lp),
       evs ++ evc ++ repeat (EvSleep 0.05%float) (idle_sleeps env))
  end.

(** One iteration of the [while not self._stop_event.is_set()] loop. *)
Definition tick (drv : Drivers) (env : Env) (lp : Loop)
  : Outcome * Loop * list event :=
  match connect_step drv env lp with
  | (false, lp, evs) => (ConnectFailed, lp, evs)
  | (true, lp, evs) =>
      if _paused (reader lp) then (Paused, lp, evs ++ [EvSleep 0.2%float])
      else
        let '(o, lp, evs') := read_step drv env lp in
        (o, lp, evs ++ evs')
  end.

(** [_run]: iterations while the stop flag is clear, one environment per
    iteration; the outcomes and the trace of each iteration are kept. *)
Fixpoint _run (drv : Drivers) (envs : list Env) (lp : Loop)
  : Loop * list (Outcome * list event) :=
  match envs with
  | [] => (lp, [])
  | env :: rest =>
      if _stop_event (reader lp) then (lp, [])
      else
        let '(o, lp, evs) := tick drv env lp in
        let '(lp, log) := _run drv rest lp in
        (lp, (o, evs) :: log)
  end.

(** [SPS30Reader.start]; [tid] names the thread a spawn would create. *)
Definition start (tid : nat) (r : Reader) : Reader * list event :=
  match _thread r with
  | Some _ => (r, [])
  | None =>
      let r := upd_stop_event false r in
      let r := upd_thread (Some tid) r in
      (r, [EvSpawn tid])
  end.

(** [SPS30Reader.pause] *)
Definition pause (r : Reader) : Reader := upd_paused true r.

(** [SPS30Reader.resume] *)
Definition resume (drv : Drivers) (o : StartOutcome) (r : Reader)
  : Reader * list event :=
  let r := upd_paused false r in
  _ensure_started drv o r.

(** [SPS30Reader.is_paused] *)
Definition is_paused (r : Reader) : bool := _paused r.

(** [SPS30Reader.stop]; [exited] tells whether the loop thread ended within
    the three seconds the [join] waits. *)
Definition stop (exited : bool) (r : Reader) : Reader * list event :=
  let r := upd_stop_event true r in
  let '(r, evj) :=
    match _thread r with
    | Some t => (upd_thread None r, [EvJoin t exited])
    | None => (r, [])
    end in
  let '(r, evd) := _disconnect r in
  (r, evj ++ evd).

(** [SPS30Reader.set_port] *)
Definition set_port (port_name : option string) (r : Reader) : Reader * list event :=
  let r := upd_uart_port port_name r in
  let '(r, evs) := _disconnect r in
  let r := upd_last_sample_time None r in
  let r := upd_measurement_started false r in
  (r, evs).

(** [timedelta(seconds=20)], in microseconds. *)
Definition twenty_seconds : Z := 20 * 1000000.

(** [SPS30Reader.is_connected]; [now] is the reading of [datetime.now()]. *)
Definition is_connected (now : Z) (r : Reader) : bool :=
  match _device r, _last_sample_time r with
  | Some _, Some t => now - t <? twenty_seconds
  | _, _ => false
  end.

(** *** What happens around the loop *)

(** A step of the whole program as far as the reader is concerned: an
    iteration of the loop, or a call from the tray menu thread that falls
    between two iterations. A call that runs while an iteration is under
    way is no such step: see [Interleaving] for a [_connect] made while
    another thread is inside [_disconnect]. *)
Inductive Step : Type :=
| Iteration (env : Env)
| CallPause
| CallResume (o : StartOutcome)
| CallSetPort (port_name : option string)
| CallDisconnect.                          (* the connection test's _disconnect() *)

Definition step (drv : Drivers) (s : Step) (lp : Loop)
  : option Outcome * Loop * list event :=
  match s with
  | Iteration env =>
      let '(o, lp, evs) := tick drv env lp in (Some o, lp, evs)
  | CallPause => (None, mkLoop (pause (reader lp)) (backoff_s lp), [])
  | CallResume o =>
      let '(r, evs) := resume drv o (reader lp) in (None, mkLoop r (backoff_s lp), evs)
  | CallSetPort p =>
      let '(r, evs) := set_port p (reader lp) in (None, mkLoop r (backoff_s lp), evs)
  | CallDisconnect =>
      let '(r, evs) := _disconnect (reader lp) in (None, mkLoop r (backoff_s lp), evs)
  end.

(** The steps of a schedule, in order, with the outcome of the last loop
    iteration seen so far. *)
Fixpoint steps (drv : Drivers) (sched : list Step) (last : option Outcome) (lp : Loop)
  : option Outcome * Loop :=
  match sched with
  | [] => (last, lp)
  | s :: rest =>
      let '(o, lp, _) := step drv s lp in
      steps drv rest (match o with Some _ => o | None => last end) lp
  end.

(** *** The loop threads *)

(** The reader together with the threads that are running [_run]. *)
Record System : Type := mkSystem {
  sys_reader : Reader;
  loops : list nat;       (* the threads inside _run *)
  next_thread : nat       (* the name the next thread gets *)
}.

Inductive Call : Type :=
| DoStart
| DoStop (exited : bool)   (* stop(); whether join(timeout=3.0) saw the thread end *)
| LoopReturns (t : nat).   (* thread t finds the stop flag set and leaves _run *)

Definition remove_thread (t : nat) (l : list nat) : list nat :=
  filter (fun u => negb (Nat.eqb u t)) l.

Definition call (c : Call) (s : System) : System :=
  match c with
  | DoStart =>
      let '(r, evs) := start (next_thread s) (sys_reader s) in
      match evs with
      | [] => mkSystem r (loops s) (next_thread s)
      | _ => mkSystem r (next_thread s :: loops s) (S (next_thread s))
      end
  | DoStop exited =>
      let gone :=
        match _thread (sys_reader s) with
        | Some t => if exited then [t] else []
        | None => []
        end in
      let '(r, _) := stop exited (sys_reader s) in
      mkSystem r (fold_right remove_thread (loops s) gone) (next_thread s)
  | LoopReturns t =>
      if _stop_event (sys_reader s) then
        mkSystem (sys_reader s) (remove_thread t (loops s)) (next_thread s)
      else s
  end.

Definition calls (cs : list Call) (s : System) : System :=
  fold_left (fun s c => call c s) cs s.

(** A fresh reader: no thread has been started. *)
Definition boot (r : Reader) : System := mkSystem r [] 0.

End SPS30Reader.

(** ** What is observed of a run *)

(** Observations on traces and readers. *)
Module Observe.
Import SPS30Reader.

(** How many times [_disconnect] was entered. *)
Fixpoint disconnects (evs : list event) : nat :=
  match evs with
  | [] => O
  | EvDisconnect :: rest => S (disconnects rest)
  | _ :: rest => disconnects rest
  end.

(** The durations of the [time.sleep] calls, in order. *)
Fixpoint sleeps (evs : list event) : list float :=
  match evs with
  | [] => []
  | EvSleep d :: rest => d :: sleeps rest
  | _ :: rest => sleeps rest
  end.

(** The samples handed to the callback, in order. *)
Fixpoint callbacks (evs : list event) : list Sample :=
  match evs with
  | [] => []
  | EvCallback s :: rest => s :: callbacks rest
  | _ :: rest => callbacks rest
  end.

(** The ports [_connect] tried to open, in order. *)
Fixpoint opened (evs : list event) : list string :=
  match evs with
  | [] => []
  | EvOpenPort p _ :: rest => p :: opened rest
  | _ :: rest => opened rest
  end.

(** The start commands sent to the device. *)
Fixpoint starts (evs : list event) : nat :=
  match evs with
  | [] => O
  | EvStartMeasurement _ _ :: rest => S (starts rest)
  | _ :: rest => starts rest
  end.

(** The read of this iteration gives [None]. *)
Definition reads_none (env : Env) (r : Reader) : bool :=
  match fst (fst (_read_measurement env r)) with
  | None => true
  | Some _ => false
  end.

(** The reader on which the read of this iteration is made, as the connect
    block leaves it: [None] when the iteration ends before its read (the
    connect failed, or the pause flag is set). *)
Definition read_reached (drv : Drivers) (env : Env) (lp : Loop) : option Reader :=
  match connect_step drv env lp with
  | (true, lp1, _) => if _paused (reader lp1) then None else Some (reader lp1)
  | (false, _, _) => None
  end.

(** The capped geometric sequence 1, 1.5, 2.25, ... of the backoff. *)
Definition backoff_table : list float :=
  [1; 1.5; 2.25; 3.375; 5.0625; 7.59375]%float.

Definition nth_backoff (k : nat) : float := nth k backoff_table 10%float.

(** Between two runs of failed connects the backoff is back at 1.0: after
    any schedule of iterations and calls from outside, the backoff differs
    from 1.0 only while the last iteration was a failed connect. *)
Definition between_runs (last : option Outcome) (lp : Loop) : Prop :=
  backoff_s lp = 1%float
  \/ (last = Some ConnectFailed /\ _device (reader lp) = None).

(** No [stop] of the sequence gave up on its [join]. *)
Definition every_join_succeeds (cs : list Call) : Prop :=
  Forall (fun c => c <> DoStop false) cs.

(** With every [join] successful, the threads inside [_run] are at most
    the one the reader holds. *)
Definition one_loop (s : System) : Prop :=
  match _thread (sys_reader s) with
  | Some t => loops s = [t] \/ loops s = []
  | None => loops s = []
  end.

End Observe.

(** ** Concrete runs *)

(** A sensor on COM3 behind the legacy SHDLC driver, and environments for
    the situations the properties below are exercised in. *)
Module Scenario.
Import SPS30Reader.

(** Only [sensirion_shdlc_driver] and [sensirion_shdlc_sps] are installed. *)
Definition legacy_drivers : Drivers := mkDrivers true true true false false false.

(** An [Sps30ShdlcDevice] on the port [p]. *)
Definition shdlc_device (p : string) : Device := mkDevice p true true false true false false.

Definition start_ok : StartOutcome := mkStart true true.

(** The sensor answers on COM3 only; the clock reads 1000.0 s at the
    connect and [t] at the warm-up test; the read raises. *)
Definition env_at (t : float) : Env :=
  {| detected := Some ["COM3"%string];
     probe := fun p => if String.eqb p "COM3" then Opened (shdlc_device p) start_ok
                       else OpenFails;
     clock_connect := 1000%float;
     clock_read := t;
     ready := fun _ => Some true;
     legacy_read := None;
     uart_read := None;
     now_sample := 1700000000000000;
     now_done := 1700000000000100;
     restart := start_ok;
     idle_sleeps := 0 |}.

(** The same, with a reading of four concentrations. *)
Definition env_reading (t : float) : Env :=
  {| detected := Some ["COM3"%string];
     probe := probe (env_at t);
     clock_connect := 1000%float;
     clock_read := t;
     ready := fun _ => Some true;
     legacy_read :=
       Some (Py.VTuple [Py.VTuple [Py.VFloat 1; Py.VFloat 2; Py.VFloat 3; Py.VFloat 4];
                        Py.VTuple []; Py.VFloat 0.5]);
     uart_read := None;
     now_sample := 1700000000000000;
     now_done := 1700000000000100;
     restart := start_ok;
     idle_sleeps := 0 |}.

(** No port answers. *)
Definition env_absent : Env :=
  {| detected := Some ["COM3"%string];
     probe := fun _ => OpenFails;
     clock_connect := 1000%float;
     clock_read := 1000%float;
     ready := fun _ => Some true;
     legacy_read := None;
     uart_read := None;
     now_sample := 1700000000000000;
     now_done := 1700000000000100;
     restart := start_ok;
     idle_sleeps := 0 |}.

(** [SPS30Reader(CONFIG.uart_port, CONFIG.sample_period_s, self._on_sample)]
    with the port pinned to COM3. *)
Definition fresh : Loop := loop_start (init (Some "COM3"%string) 5 true).

(** The loop after its first iteration at 1000.0 s: connected, warm-up
    until 1005.0 s. *)
Definition connected : Loop := snd (fst (tick legacy_drivers (env_at 1000.5) fresh)).





End Scenario.

(** ** Further observations and the CSV log *)

Module DataStoreObs.
Import DataStore.

(** The cutoff of the last [add] of a sequence, [c0] when there is none. *)
Definition final_cutoff (calls : list (Z * Sample)) (c0 : Z) : Z :=
  fold_left (fun _ c => fst c - seven_days) calls c0.

(** The clock readings of a sequence of [add] calls never go back. *)
Definition clock_monotone (calls : list (Z * Sample)) : Prop :=
  StronglySorted Z.le (map fst calls).

End DataStoreObs.

(** [CSVLogger]: one file per day in the log directory. A file is the
    list of its rows, a row the list of its fields ([csv.writer] does the
    quoting); the directory maps a file name to its rows, [None] when
    there is no such file. *)
Module CSVLogger.

Section Formats.

(** [ts.isoformat(timespec='seconds')], [f'{x:.3f}'] and
    [datetime.now().strftime('%Y-%m-%d')], the formatting of the language. *)
Variable isoformat_seconds : Z -> string.
Variable format_3f : float -> string.
Variable strftime_day : Z -> string.

Definition directory : Type := string -> option (list (list string)).

Definition header : list string :=
  ["timestamp"; "pm1"; "pm2_5"; "pm4"; "pm10"]%string.

Definition data_row (sample : Sample) : list string :=
  [isoformat_seconds (ts sample); format_3f (pm1 sample); format_3f (pm25 sample);
   format_3f (pm4 sample); format_3f (pm10 sample)].

(** [CSVLogger._file_for_today]; [now] is the reading of [datetime.now()]. *)
Definition _file_for_today (now : Z) : string :=
  ("sps30_" ++ strftime_day now ++ ".csv")%string.

Definition write (path : string) (rows : list (list string)) (dir : directory)
  : directory :=
  fun p => if String.eqb p path then Some rows else dir p.

(** [CSVLogger.append]; [opens] tells whether [open(path, 'a')] succeeds
    (when it raises, the exception is swallowed and nothing is written). *)
Definition append (now : Z) (opens : bool) (sample : Sample) (dir : directory)
  : directory :=
  let path := _file_for_today now in
  let exists_ := match dir path with Some _ => true | None => false end in
  if opens then
    let old := match dir path with Some rows => rows | None => [] end in
    let head := if negb exists_ then [header] else [] in
    write path (old ++ head ++ [data_row sample]) dir
  else dir.

(** A sequence of [append] calls, each with its clock reading and whether
    its [open] succeeds. *)
Definition append_all (calls : list (Z * bool * Sample)) (dir : directory)
  : directory :=
  fold_left (fun d c => append (fst (fst c)) (snd (fst c)) (snd c) d) calls dir.


End Formats.

End CSVLogger.

(** [App]: the queue between the sampling thread and the user-interface
    thread, and the pump that empties it. *)
Module App.

(** [App._on_sample]: [put_nowait] on a queue without bound. *)
Definition _on_sample (sample : Sample) (queue : list Sample) : list Sample :=
  queue ++ [sample].

(** One queued sample with what the environment answers while it is
    handled: the clock reading of [DataStore.add], the clock reading of
    [CSVLogger.append], and whether the log file opens. *)
Record Handled : Type := mkHandled {
  sample : Sample;
  at_add : Z;
  at_append : Z;
  log_opens : bool
}.

Section Formats.

Variable isoformat_seconds : Z -> string.
Variable format_3f : float -> string.
Variable strftime_day : Z -> string.

(** The body of the [while True] loop of [_pump_ui] for one sample. *)
Definition handle (h : Handled) (st : list Sample * CSVLogger.directory)
  : list Sample * CSVLogger.directory :=
  (DataStore.add (at_add h) (sample h) (fst st),
   CSVLogger.append isoformat_seconds format_3f strftime_day
     (at_append h) (log_opens h) (sample h) (snd st)).

(** [App._pump_ui]: the queue is emptied, oldest sample first; the result
    is the store, the log directory and the delay in milliseconds of the
    next pump. *)
Definition _pump_ui (queue : list Handled) (st : list Sample * CSVLogger.directory)
  : list Sample * CSVLogger.directory * Z :=
  let st' := fold_left (fun acc h => handle h acc) queue st in
  let drained := List.length queue in
  (st', if Nat.eqb drained 0 then 500 else 200).

End Formats.

End App.

(** Shapes of driver results, for the statements on the normalisation. *)
Module NormalizeObs.
Import Py Normalize.

(** A tuple ([true]) or a list ([false]) of the items. *)
Definition sequence (tuple : bool) (items : list value) : value :=
  if tuple then VTuple items else VList items.

(** The field read by name from attributes or dict entries: NaN when the
    name is missing. *)
Definition by_name (entries : list (string * value)) (name : string)
  : PrimFloat.float :=
  match assoc name entries with
  | Some v => _to_float v
  | None => nan
  end.

(** None of the four values is above 1000. *)
Definition none_above_1000 (a b c d : PrimFloat.float) : bool :=
  (negb (PrimFloat.ltb 1000%float a) && negb (PrimFloat.ltb 1000%float b)
   && negb (PrimFloat.ltb 1000%float c) && negb (PrimFloat.ltb 1000%float d))%bool.

(** [float(values[i])]; [None] when it raises: [values] is no sequence,
    has no item [i], or the item is no number. *)
Definition item_number (values : value) (i : nat) : option PrimFloat.float :=
  match subscript values i with
  | Some v => Py.float v
  | None => None
  end.

(** The binary64 number of a machine integer (exact below 2^53). *)
Definition int_float (n : Z) : PrimFloat.float :=
  PrimFloat.of_uint63 (Uint63.of_Z n).

(** The four values divided by 100000, as the fixed-point heuristic of the
    modern path leaves them. *)
Definition downscaled (a b c d : PrimFloat.float)
  : PrimFloat.float * PrimFloat.float * PrimFloat.float * PrimFloat.float :=
  (PrimFloat.div a 100000%float, PrimFloat.div b 100000%float,
   PrimFloat.div c 100000%float, PrimFloat.div d 100000%float).

(** [p] holds of the [count] integers from [n] on. *)
Fixpoint all_from (p : Z -> bool) (count : nat) (n : Z) : bool :=
  match count with
  | O => true
  | S k => (p n && all_from p k (n + 1))%bool
  end.

(** The values of an unsigned 16-bit integer. *)
Definition uint16 (n : Z) : Prop := 0 <= n <= 65535.



End NormalizeObs.

(** Numbers and NaN in a column of readings. *)
Module StatsObs.

(** A float that is a number: every float but NaN. *)
Definition is_number (v : float) : bool := negb (PrimFloat.is_nan v).

(** The numbers of a list, in order. *)
Definition numbers (l : list float) : list float := filter is_number l.

(** The arithmetic mean as the language computes it: [sum(l) / len(l)]. *)
Definition mean (l : list float) : float :=
  PrimFloat.div (Py.sum l) (Py.float_of_len (List.length l)).

(** The mean of the numbers of a list, NaN when it has none. *)
Definition mean_of_numbers (l : list float) : float :=
  match numbers l with
  | [] => nan
  | ns => mean ns
  end.

(** [m] is the greatest number of [l]: a number of [l] that no number of
    [l] exceeds. *)
Definition greatest_number (m : float) (l : list float) : Prop :=
  In m l /\ is_number m = true
  /\ forall y, In y l -> is_number y = true -> PrimFloat.leb y m = true.


End StatsObs.

(** Further observations on readers and traces. *)
Module ObserveMore.
Import SPS30Reader.

(** A start command that returned. *)
Fixpoint started_ok (evs : list event) : bool :=
  match evs with
  | [] => false
  | EvStartMeasurement _ true :: _ => true
  | _ :: rest => started_ok rest
  end.

(** The reads asked of the device. *)
Fixpoint reads (evs : list event) : nat :=
  match evs with
  | [] => O
  | EvRead _ :: rest => S (reads rest)
  | _ :: rest => reads rest
  end.

(** The ports closed, in order. *)
Fixpoint closed (evs : list event) : list string :=
  match evs with
  | [] => []
  | EvClosePort p :: rest => p :: closed rest
  | _ :: rest => closed rest
  end.

(** A device is held exactly when a port is, and a connection only with
    a device. *)
Definition handles_consistent (r : Reader) : Prop :=
  (_device r = None <-> _port r = None)
  /\ (_device r = None -> _conn r = None).

(** The failure counter is below the threshold of 50. *)
Definition counter_in_range (r : Reader) : Prop :=
  _max_consecutive_failures r = 50
  /\ 0 <= _consecutive_read_failures r < 50.

(** What the loop and its callers steer by is the same in both readers:
    target port, flags, thread, failure counter and threshold, time of the
    last sample, callback and period. *)
Definition same_controls (r r' : Reader) : Prop :=
  uart_port r' = uart_port r
  /\ _paused r' = _paused r
  /\ _stop_event r' = _stop_event r
  /\ _thread r' = _thread r
  /\ _consecutive_read_failures r' = _consecutive_read_failures r
  /\ _max_consecutive_failures r' = _max_consecutive_failures r
  /\ _last_sample_time r' = _last_sample_time r
  /\ on_sample_callback r' = on_sample_callback r
  /\ sample_period_s r' = sample_period_s r.

(** The three handles are the same in both readers. *)
Definition same_handles (r r' : Reader) : Prop :=
  _device r' = _device r /\ _port r' = _port r /\ _conn r' = _conn r.

(** What [__init__] establishes and each operation of the reader, run in
    one piece, keeps. *)
Definition reader_invariant (r : Reader) : Prop :=
  handles_consistent r /\ counter_in_range r.

(** The candidate fails: its open raises, or building the device on it. *)
Definition port_fails (env : Env) (p : string) : bool :=
  match probe env p with
  | Opened _ _ => false
  | _ => true
  end.

End ObserveMore.

(** [_disconnect] statement by statement, for what another thread can do
    while it runs: the reader has no lock. *)
Module Interleaving.
Import SPS30Reader.

(** Lines 240-249: the stop command when a device is held, then
    [self._device = None]. *)
Definition drop_device (r : Reader) : Reader * list event :=
  let ev_stop :=
    match _device r with
    | Some dev =>
        if has_stop_measurement dev then [EvStopMeasurement (on_port dev)] else []
    | None => []
    end in
  (upd_device None r, ev_stop).

(** Lines 250-254: [self._conn = None] when a connection is held. *)
Definition drop_conn (r : Reader) : Reader * list event :=
  (match _conn r with Some _ => upd_conn None r | None => r end, []).

(** Lines 255-260: [self._port.close()] when a port is held. *)
Definition close_port (r : Reader) : Reader * list event :=
  (r, match _port r with Some p => [EvClosePort p] | None => [] end).

(** Line 262: [self._port = None]. *)
Definition drop_port (r : Reader) : Reader * list event :=
  (upd_port None r, []).

(** The body of [_disconnect], in order. *)
Definition _disconnect_statements : list (Reader -> Reader * list event) :=
  [drop_device; drop_conn; close_port; drop_port].

(** Statements run one after the other by the same thread. *)
Fixpoint run (stmts : list (Reader -> Reader * list event)) (r : Reader)
  : Reader * list event :=
  match stmts with
  | [] => (r, [])
  | st :: rest =>
      let '(r, evs) := st r in
      let '(r, evs') := run rest r in
      (r, evs ++ evs')
  end.

(** A thread outside the loop (the tray menu through [set_port], or the
    connection test) is inside [_disconnect] and has run its first [k]
    statements when the loop thread runs its [_connect]; the outside
    thread then runs the remaining statements. *)
Definition connect_inside_disconnect (k : nat) (drv : Drivers) (env : Env) (r : Reader)
  : bool * Reader * list event * list event :=
  let '(r, before) := run (firstn k _disconnect_statements) r in
  let '(ok, r, evs) := _connect drv env r in
  let '(r, after) := run (skipn k _disconnect_statements) r in
  (ok, r, evs, after).

End Interleaving.

(** * Part II: properties *)

(** ** Comparison of floats *)

Module FloatFacts.
Import StatsObs.

Lemma ltb_nan_r x : PrimFloat.ltb x nan = false.
Proof.
  rewrite FloatAxioms.ltb_spec. change (Prim2SF nan) with S754_nan.
  unfold SFltb. now destruct (Prim2SF x).
Qed.

Lemma ltb_nan_l x : PrimFloat.ltb nan x = false.
Proof.
  rewrite FloatAxioms.ltb_spec. change (Prim2SF nan) with S754_nan.
  reflexivity.
Qed.

Lemma ltb_leb x y : PrimFloat.ltb x y = true -> PrimFloat.leb x y = true.
Proof.
  rewrite FloatAxioms.ltb_spec, FloatAxioms.leb_spec. unfold SFltb, SFleb.
  now destruct (SFcompare (Prim2SF x) (Prim2SF y)) as [[| |]|].
Qed.

(** [v == v] is what tells a number from NaN. *)
Lemma is_number_eqb v : is_number v = PrimFloat.eqb v v.
Proof. unfold is_number, PrimFloat.is_nan. apply negb_involutive. Qed.

Lemma nan_is_no_number : is_number nan = false.
Proof. reflexivity. Qed.

(** The comparison of the specification, on the three orders it decides. *)
Ltac by_cases :=
  repeat (match goal with
          | |- context [Z.compare ?a ?b] => destruct (Z.compare_spec a b)
          | H : context [Z.compare ?a ?b] |- _ => destruct (Z.compare_spec a b)
          | |- context [Pos.compare ?a ?b] => destruct (Pos.compare_spec a b)
          | H : context [Pos.compare ?a ?b] |- _ => destruct (Pos.compare_spec a b)
          end; cbn [CompOpp] in *; subst);
  first [congruence | lia].

Lemma SFcompare_antisym x y :
  SFcompare y x = option_map CompOpp (SFcompare x y).
Proof.
  destruct x as [sx|sx| |sx mx ex], y as [sy|sy| |sy my ey]; cbn; trivial;
    try (destruct sx; reflexivity); try (destruct sy; reflexivity);
    try (destruct sx, sy; reflexivity).
  destruct sx, sy; trivial; rewrite (Z.compare_antisym ey ex);
    destruct (ey ?= ex) eqn:E; cbn; trivial; f_equal;
    change (Pos.compare_cont Eq my mx) with (Pos.compare my mx);
    change (Pos.compare_cont Eq mx my) with (Pos.compare mx my);
    rewrite (Pos.compare_antisym my mx); now destruct (my ?= mx)%positive.
Qed.

Lemma SFcompare_trans x y z cxy cyz :
  SFcompare x y = Some cxy -> SFcompare y z = Some cyz ->
  cxy <> Gt -> cyz <> Gt ->
  SFcompare x z = Some (match cxy, cyz with Eq, Eq => Eq | _, _ => Lt end).
Proof.
  destruct x as [sx|sx| |sx mx ex], y as [sy|sy| |sy my ey], z as [sz|sz| |sz mz ez];
    cbn; try discriminate;
    try (destruct sx); try (destruct sy); try (destruct sz);
    intros H1 H2; inversion H1; inversion H2; subst; clear H1 H2;
    try congruence; try reflexivity;
    change (Pos.compare_cont Eq) with Pos.compare;
    intros N1 N2; try congruence; try reflexivity; by_cases.
Qed.

(** Two numbers always compare. *)
Lemma numbers_compare x y :
  is_number x = true -> is_number y = true ->
  exists c, SFcompare (Prim2SF x) (Prim2SF y) = Some c.
Proof.
  rewrite !is_number_eqb, !FloatAxioms.eqb_spec. unfold SFeqb.
  destruct (Prim2SF x), (Prim2SF y); cbn; try discriminate; eauto.
Qed.

(** What is below or above something is a number. *)
Lemma ltb_numbers x y :
  PrimFloat.ltb x y = true -> is_number x = true /\ is_number y = true.
Proof.
  rewrite !is_number_eqb, FloatAxioms.ltb_spec, !FloatAxioms.eqb_spec.
  unfold SFltb, SFeqb.
  destruct (Prim2SF x) as [| | |sx mx ex], (Prim2SF y) as [| | |sy my ey]; cbn;
    try discriminate; intros _; split; trivial;
    try (now destruct s); try (now destruct s0);
    match goal with
    | |- context [if ?s then _ else _] =>
        destruct s; rewrite Z.compare_refl; change (Pos.compare_cont Eq) with Pos.compare;
        now rewrite Pos.compare_refl
    end.
Qed.

Lemma leb_refl x : is_number x = true -> PrimFloat.leb x x = true.
Proof.
  rewrite is_number_eqb, FloatAxioms.eqb_spec, FloatAxioms.leb_spec.
  unfold SFeqb, SFleb. now destruct (SFcompare _ _) as [[| |]|].
Qed.

(** Of two numbers, the one that is not below the other is at least it. *)
Lemma not_ltb_leb x y :
  is_number x = true -> is_number y = true ->
  PrimFloat.ltb x y = false -> PrimFloat.leb y x = true.
Proof.
  intros Hx Hy. destruct (numbers_compare x y Hx Hy) as [c Hc].
  rewrite FloatAxioms.ltb_spec, FloatAxioms.leb_spec. unfold SFltb, SFleb.
  rewrite (SFcompare_antisym (Prim2SF x) (Prim2SF y)), Hc.
  now destruct c.
Qed.

Lemma leb_trans x y z :
  PrimFloat.leb x y = true -> PrimFloat.leb y z = true -> PrimFloat.leb x z = true.
Proof.
  rewrite !FloatAxioms.leb_spec. unfold SFleb.
  destruct (SFcompare (Prim2SF x) (Prim2SF y)) as [cxy|] eqn:E1; [|discriminate].
  destruct (SFcompare (Prim2SF y) (Prim2SF z)) as [cyz|] eqn:E2; [|now destruct cxy].
  intros H1 H2.
  rewrite (SFcompare_trans _ _ _ cxy cyz E1 E2);
    destruct cxy, cyz; try discriminate; trivial.
Qed.

(** Below something that is at most [z] is below [z], and so on. *)
Lemma ltb_leb_trans x y z :
  PrimFloat.ltb x y = true -> PrimFloat.leb y z = true -> PrimFloat.ltb x z = true.
Proof.
  rewrite !FloatAxioms.leb_spec, !FloatAxioms.ltb_spec. unfold SFleb, SFltb.
  destruct (SFcompare (Prim2SF x) (Prim2SF y)) as [cxy|] eqn:E1; [|discriminate].
  destruct (SFcompare (Prim2SF y) (Prim2SF z)) as [cyz|] eqn:E2; [|now destruct cxy].
  intros H1 H2.
  rewrite (SFcompare_trans _ _ _ cxy cyz E1 E2);
    destruct cxy, cyz; try discriminate; trivial.
Qed.

Lemma ltb_trans x y z :
  PrimFloat.ltb x y = true -> PrimFloat.ltb y z = true -> PrimFloat.ltb x z = true.
Proof. intros H1 H2. eapply ltb_leb_trans; [exact H1|now apply ltb_leb]. Qed.

(** [max(a, b)] of two numbers is above a bound exactly when one is. *)
Lemma above_max c a b :
  is_number a = true -> is_number b = true ->
  PrimFloat.ltb c (Py.max a b) = (PrimFloat.ltb c a || PrimFloat.ltb c b)%bool.
Proof.
  intros Ha Hb. unfold Py.max. destruct (PrimFloat.ltb a b) eqn:E.
  - destruct (PrimFloat.ltb c a) eqn:Ec; trivial. cbn [orb].
    now apply (ltb_trans c a b).
  - destruct (PrimFloat.ltb c a) eqn:Ec; trivial. cbn [orb].
    destruct (PrimFloat.ltb c b) eqn:Eb; trivial.
    pose proof (ltb_leb_trans c b a Eb (not_ltb_leb a b Ha Hb E)). congruence.
Qed.

Lemma max_number a b :
  is_number a = true -> is_number b = true -> is_number (Py.max a b) = true.
Proof. intros Ha Hb. unfold Py.max. now destruct (PrimFloat.ltb a b). Qed.

(** *** [max] over a list *)

Lemma fold_max_nan l : fold_left Py.max l nan = nan.
Proof.
  induction l as [|v l IH]; cbn [fold_left]; trivial.
  unfold Py.max at 2. now rewrite ltb_nan_l.
Qed.

Lemma fold_max_skips_nan before after : forall x,
  fold_left Py.max (before ++ nan :: after) x = fold_left Py.max (before ++ after) x.
Proof.
  induction before as [|v l IH]; intros x; cbn [app fold_left].
  - unfold Py.max at 2. now rewrite ltb_nan_r.
  - apply IH.
Qed.

(** Started on a number, the fold ends on the greatest number met. *)
Lemma fold_max_greatest rest : forall a,
  is_number a = true ->
  greatest_number (fold_left Py.max rest a) (a :: rest).
Proof.
  unfold greatest_number.
  induction rest as [|y rest IH]; intros a Ha; cbn [fold_left].
  - split; [now left|]. split; [exact Ha|].
    intros z [Hz|[]] _. subst z. now apply leb_refl.
  - assert (M : Py.max a y = if PrimFloat.ltb a y then y else a) by reflexivity.
    rewrite M. clear M. destruct (PrimFloat.ltb a y) eqn:E.
    + destruct (ltb_numbers a y E) as [_ Hy].
      destruct (IH y Hy) as (I1 & I2 & I3).
      split; [right; exact I1|]. split; [exact I2|].
      intros z [Hz|Hz] Hn.
      * subst z. apply (leb_trans a y); [now apply ltb_leb|].
        apply I3; [now left|exact Hy].
      * now apply I3.
    + destruct (IH a Ha) as (I1 & I2 & I3).
      split; [destruct I1 as [I1|I1]; [now left|right; now right]|].
      split; [exact I2|].
      intros z [Hz|[Hz|Hz]] Hn.
      * subst z. apply I3; [now left|exact Hn].
      * subst z. apply (leb_trans y a); [now apply not_ltb_leb|].
        apply I3; [now left|exact Ha].
      * apply I3; [now right|exact Hn].
Qed.

(** [max(iterable)]: NaN when the first item is NaN, else the greatest
    number of the items. *)
Lemma max_list_first x rest :
  if is_number x
  then exists m, Py.max_list (x :: rest) = Some m /\ greatest_number m (x :: rest)
  else Py.max_list (x :: rest) = Some nan.
Proof.
  destruct (is_number x) eqn:E.
  - eexists. split; [reflexivity|]. now apply fold_max_greatest.
  - cbn [Py.max_list]. f_equal.
    assert (x = nan) as ->; [|apply fold_max_nan].
    rewrite is_number_eqb, FloatAxioms.eqb_spec in E.
    rewrite <- (FloatAxioms.SF2Prim_Prim2SF x).
    destruct (Prim2SF x) as [s|s| |s m e] eqn:P; trivial; exfalso;
      unfold SFeqb in E; cbn in E; try discriminate; try (destruct s; discriminate).
    destruct s; rewrite Z.compare_refl in E;
      change (Pos.compare_cont Eq) with Pos.compare in E;
      rewrite Pos.compare_refl in E; discriminate.
Qed.

End FloatFacts.

(** ** The data store *)

Module DataStoreFacts.
Import DataStore.

Lemma popleft_while_suffix cutoff l :
  trimmed_from_front l (popleft_while cutoff l).
Proof.
  induction l as [|s0 rest IH]; simpl.
  - now exists [].
  - destruct (ts s0 <? cutoff).
    + destruct IH as [d Hd]. exists (s0 :: d). simpl. now rewrite <- Hd.
    + now exists [].
Qed.

Lemma popleft_while_head cutoff l :
  match popleft_while cutoff l with
  | [] => True
  | s0 :: _ => cutoff <= ts s0
  end.
Proof.
  induction l as [|s0 rest IH]; simpl; trivial.
  destruct (ts s0 <? cutoff) eqn:E; trivial.
  apply Z.ltb_ge in E. exact E.
Qed.

Lemma sorted_app_r l1 l2 : sorted_by_ts (l1 ++ l2) -> sorted_by_ts l2.
Proof.
  unfold sorted_by_ts. induction l1 as [|a l1 IH]; simpl; trivial.
  intros H. inversion H; subst. auto.
Qed.

Lemma sorted_head_bounds c l :
  sorted_by_ts l ->
  match l with [] => True | s0 :: _ => c <= ts s0 end ->
  Forall (fun s => c <= ts s) l.
Proof.
  unfold sorted_by_ts. intros Hs Hh. destruct l as [|s0 rest]; constructor; trivial.
  inversion Hs as [|? ? _ Hall]; subst.
  eapply Forall_impl; [|exact Hall]. simpl. intros; lia.
Qed.

(** The deque is always what is left of the inserted samples after
    removals from the front. *)
Lemma add_all_suffix calls store :
  trimmed_from_front (store ++ map snd calls) (add_all calls store).
Proof.
  revert store. induction calls as [|[now s] calls IH]; intros store; simpl.
  - exists []. now rewrite app_nil_r.
  - destruct (IH (add now s store)) as [d Hd].
    destruct (popleft_while_suffix (now - seven_days) (store ++ [s])) as [d' Hd'].
    fold (add now s store) in Hd'.
    exists (d' ++ d). change (add_all ((now, s) :: calls) store)
      with (add_all calls (add now s store)).
    change (s :: map snd calls) with ([s] ++ map snd calls).
    now rewrite app_assoc, Hd', <- app_assoc, Hd, app_assoc.
Qed.

Lemma add_all_snoc calls now s store :
  add_all (calls ++ [(now, s)]) store = add now s (add_all calls store).
Proof. unfold add_all. now rewrite fold_left_app. Qed.

End DataStoreFacts.

Module DataStoreClaims.
Import DataStore DataStoreFacts.

Lemma add_trims_front now s store :
  trimmed_from_front (store ++ [s]) (add now s store).
Proof. unfold add. apply popleft_while_suffix. Qed.

Lemma sorted_map_ts l :
  StronglySorted Z.le (map ts l) -> sorted_by_ts l.
Proof.
  unfold sorted_by_ts. induction l as [|a l IH]; simpl; intros H.
  - constructor.
  - inversion H as [|? ? Hs Hall]; subst. constructor; auto.
    rewrite Forall_map in Hall. exact Hall.
Qed.

Lemma add_all_sorted calls :
  StronglySorted Z.le (map (fun c => ts (snd c)) calls) ->
  sorted_by_ts (add_all calls empty).
Proof.
  intros H. destruct (add_all_suffix calls empty) as [d Hd]. simpl in Hd.
  apply sorted_app_r with (l1 := d). rewrite <- Hd.
  apply sorted_map_ts. now rewrite map_map.
Qed.

Lemma last_add_time_snoc calls now :
  last_add_time calls = Some now ->
  exists calls' s, calls = calls' ++ [(now, s)].
Proof.
  unfold last_add_time. intros H.
  destruct (rev calls) as [|[n s] r] eqn:E; [discriminate|].
  inversion H; subst. exists (rev r), s.
  rewrite <- (rev_involutive calls), E. reflexivity.
Qed.

(** C1, as amended. When the samples are added in non-decreasing order of
    their timestamps, [get_window(None)] after any sequence of [add] calls
    is sorted by timestamp ascending and holds no sample older than seven
    days at the time of the last [add]; and every [add], whatever the order
    of the timestamps, removes elements from the oldest end of the buffer
    only. *)
Theorem add_then_window_sorted_and_recent (calls : list (Z * Sample)) (at_ : Z) :
  StronglySorted Z.le (map (fun c => ts (snd c)) calls) ->
  let window := get_window at_ None (add_all calls empty) in
  sorted_by_ts window
  /\ (forall now, last_add_time calls = Some now -> none_older_than_7d now window)
  /\ trimmed_from_front (map snd calls) window
  /\ (forall now s store, trimmed_from_front (store ++ [s]) (add now s store)).
Proof.
  intros Hs. simpl. repeat split.
  - now apply add_all_sorted.
  - intros now Hlast. destruct (last_add_time_snoc _ _ Hlast) as (calls' & s & ->).
    unfold none_older_than_7d.
    apply sorted_head_bounds; [now apply add_all_sorted|].
    rewrite add_all_snoc. unfold add. apply popleft_while_head.
  - apply (add_all_suffix calls empty).
  - intros. apply add_trims_front.
Qed.

(** Three samples five seconds apart, the first one eight days old when the
    last is added. *)
Lemma add_then_window_sorted_and_recent_witness :
  let day := 86400 * 1000000 in
  let t := 1700000000 * 1000000 in
  let calls :=
    [ (t, mkSample t 1 2 3 4);
      (t + 5000000, mkSample (t + 5000000) 1 2 3 4);
      (t + 8 * day, mkSample (t + 8 * day) 1 2 3 4) ] in
  let window := get_window 0 None (add_all calls empty) in
  window = [mkSample (t + 8 * day) 1 2 3 4]
  /\ sorted_by_ts window
  /\ (forall now, last_add_time calls = Some now -> none_older_than_7d now window).
Proof.
  intros day t calls window. split; [reflexivity|].
  assert (Hs : StronglySorted Z.le (map (fun c => ts (snd c)) calls)).
  { unfold calls, t, day. simpl.
    repeat first [apply SSorted_cons | apply SSorted_nil
                 | apply Forall_cons | apply Forall_nil]; lia. }
  destruct (add_then_window_sorted_and_recent calls 0 Hs) as (H1 & H2 & _).
  split; assumption.
Defined.

(** C1 as stated fails: [add] neither sorts nor looks behind the first
    element. A sample stamped one hour before its predecessor (the local
    clock set back) leaves the window unsorted, and a sample older than
    seven days added behind a recent one is retained. *)
Lemma add_out_of_order_counterexample :
  let hour := 3600 * 1000000 in
  let day := 86400 * 1000000 in
  let t := 1700000000 * 1000000 in
  let back := [ (t, mkSample t 1 2 3 4); (t + 1, mkSample (t - hour) 1 2 3 4) ] in
  let old := [ (t, mkSample t 1 2 3 4); (t + 1, mkSample (t - 8 * day) 1 2 3 4) ] in
  ~ sorted_by_ts (get_window (t + 1) None (add_all back empty))
  /\ last_add_time old = Some (t + 1)
  /\ ~ none_older_than_7d (t + 1) (get_window (t + 1) None (add_all old empty)).
Proof.
  intros hour day t back old.
  assert (Eb : add_all back empty = map snd back) by reflexivity.
  assert (Eo : add_all old empty = map snd old) by reflexivity.
  split; [|split; [reflexivity|]]; intros H; unfold get_window in H.
  - rewrite Eb in H. inversion H as [|? ? _ Hall]; subst.
    inversion Hall as [|? ? Hle _]; subst. simpl in Hle. unfold t, hour in Hle. lia.
  - rewrite Eo in H. inversion H as [|? ? _ Hall]; subst.
    inversion Hall as [|? ? Hle _]; subst. simpl in Hle.
    unfold seven_days, t, day in Hle. lia.
Qed.

(** C8. [get_window(d)] is exactly the subsequence of [get_window(None)],
    read at the same instant, of the samples with [ts >= now - d]; hence a
    narrower window is the wider one filtered again, and a subset of it. *)
Theorem get_window_is_filtered_all (now d1 d2 : Z) (samples : list Sample) :
  d1 <= d2 ->
  get_window now (Some d1) samples
    = filter (fun s => ts s >=? now - d1) (get_window now None samples)
  /\ get_window now (Some d1) samples
    = filter (fun s => ts s >=? now - d1) (get_window now (Some d2) samples)
  /\ incl (get_window now (Some d1) samples) (get_window now (Some d2) samples)
  /\ incl (get_window now (Some d2) samples) (get_window now None samples).
Proof.
  intros Hd. simpl.
  assert (Heq : filter (fun s => ts s >=? now - d1) samples
                = filter (fun s => ts s >=? now - d1)
                    (filter (fun s => ts s >=? now - d2) samples)).
  { induction samples as [|s l IH]; simpl; trivial.
    destruct (ts s >=? now - d1) eqn:E1; destruct (ts s >=? now - d2) eqn:E2;
      simpl; rewrite ?E1; try (now rewrite IH); trivial.
    apply Z.geb_le in E1. rewrite Z.geb_leb in E2. apply Z.leb_gt in E2. lia. }
  repeat split; trivial.
  - rewrite Heq. apply incl_filter.
  - apply incl_filter.
Qed.

Lemma get_window_is_filtered_all_witness :
  let t := 1700000000 * 1000000 in
  let hour := 3600 * 1000000 in
  let samples :=
    [ mkSample (t - 5 * hour) 1 2 3 4; mkSample (t - 2 * hour) 1 2 3 4;
      mkSample (t - 1000000) 1 2 3 4 ] in
  get_window t (Some hour) samples = [mkSample (t - 1000000) 1 2 3 4]
  /\ incl (get_window t (Some hour) samples) (get_window t (Some (3 * hour)) samples).
Proof.
  intros t hour samples. split; [reflexivity|].
  apply (get_window_is_filtered_all t hour (3 * hour) samples).
  unfold hour. lia.
Defined.

End DataStoreClaims.

(** ** Aggregation over the window *)

Module StatsClaims.
Import Stats StatsObs FloatFacts.












End StatsClaims.

(** ** Read-shape normalisation *)

Module NormalizeFacts.
Import Py Normalize NormalizeObs StatsObs FloatFacts.

Lemma len_ge_4 (a b c d : value) rest : (len (a :: b :: c :: d :: rest) >=? 4) = true.
Proof. unfold len. apply Z.geb_le. simpl List.length. lia. Qed.

Lemma len_eq_3 (a b c d : value) rest : (len (a :: b :: c :: d :: rest) =? 3) = false.
Proof. unfold len. apply Z.eqb_neq. simpl List.length. lia. Qed.



(** What [float()] refuses becomes NaN. *)
Lemma to_float_unparsable x : Py.float x = None -> _to_float x = nan.
Proof. unfold _to_float. now intros ->. Qed.

(** *** [float()] of an integer *)

Lemma all_from_spec p count : forall n k,
  all_from p count n = true -> n <= k < n + Z.of_nat count -> p k = true.
Proof.
  induction count as [|c IH]; intros n k H Hk; [lia|].
  cbn [all_from] in H. apply andb_prop in H as [H0 H1].
  destruct (Z.eq_dec k n) as [->|Hne]; trivial.
  apply (IH (n + 1)); trivial. lia.
Qed.

(** When [float(n)] does not overflow it is the binary64 number of [n]. *)
Lemma float_of_int_uint63 n x :
  0 <= n < 2 ^ 63 -> float_of_int n = Some x -> x = int_float n.
Proof.
  intros Hn. unfold float_of_int, int_float.
  rewrite <- (FloatAxioms.SF2Prim_Prim2SF (PrimFloat.of_uint63 _)).
  rewrite FloatAxioms.of_uint63_spec, Uint63.of_Z_spec.
  rewrite Z.mod_small by (change Uint63Axioms.wB with (2 ^ 63); lia).
  destruct (binary_normalize prec emax n 0 false); congruence.
Qed.

(** On 16 bits there is no overflow, the result is a number, and it is
    above 1000 exactly when the integer is. *)
Lemma uint16_checked :
  all_from (fun n =>
              match float_of_int n with
              | Some x => is_number x && Bool.eqb (PrimFloat.ltb 1000%float x) (1000 <? n)
              | None => false
              end)%bool
    (Z.to_nat 65536) 0 = true.
Proof. vm_compute. reflexivity. Qed.

Lemma float_of_uint16 n :
  uint16 n ->
  Py.float (VInt n) = Some (int_float n)
  /\ is_number (int_float n) = true
  /\ PrimFloat.ltb 1000%float (int_float n) = (1000 <? n).
Proof.
  intros Hn. unfold uint16 in Hn.
  pose proof (all_from_spec _ _ 0 n uint16_checked ltac:(lia)) as H.
  cbn beta in H. cbn [Py.float].
  destruct (float_of_int n) as [x|] eqn:E; [|discriminate].
  apply float_of_int_uint63 in E; [|lia]. subst x.
  apply andb_prop in H as [H1 H2]. apply Bool.eqb_prop in H2. auto.
Qed.

(** *** The modern path *)

(** What [extract_uart] does, by the four conversions. *)
Lemma extract_uart_items values :
  extract_uart values
  = match item_number values 0, item_number values 1,
          item_number values 2, item_number values 3 with
    | Some a, Some b, Some c, Some d =>
        if PrimFloat.ltb 1000%float (fold_left Py.max [b; c; d] a)
        then Some (downscaled a b c d) else Some (a, b, c, d)
    | _, _, _, _ => None
    end.
Proof.
  unfold extract_uart, item_number, downscaled.
  destruct (subscript values 0) as [v0|], (subscript values 1) as [v1|],
    (subscript values 2) as [v2|], (subscript values 3) as [v3|]; trivial;
    try (destruct (Py.float v0); reflexivity);
    try (destruct (Py.float v0), (Py.float v1); reflexivity);
    try (destruct (Py.float v0), (Py.float v1), (Py.float v2); reflexivity).
Qed.

(** An item that cannot be read makes the whole read fail. *)
Lemma extract_uart_fails values i :
  (i < 4)%nat -> item_number values i = None -> extract_uart values = None.
Proof.
  intros Hi H. rewrite extract_uart_items.
  destruct i as [|[|[|[|i]]]]; [| | | |lia]; rewrite H;
    repeat match goal with
           | |- context [match item_number ?v ?k with _ => _ end] =>
               destruct (item_number v k)
           end; reflexivity.
Qed.

(** Four numbers: the scaling is decided by whether one of them is above
    1000. *)
Lemma above_max4 a b c d :
  is_number a = true -> is_number b = true -> is_number c = true ->
  is_number d = true ->
  PrimFloat.ltb 1000%float (fold_left Py.max [b; c; d] a)
  = negb (none_above_1000 a b c d).
Proof.
  intros Ha Hb Hc Hd. cbn [fold_left]. unfold none_above_1000.
  rewrite !above_max; trivial; try now repeat apply max_number.
  destruct (PrimFloat.ltb 1000 a), (PrimFloat.ltb 1000 b), (PrimFloat.ltb 1000 c),
    (PrimFloat.ltb 1000 d); reflexivity.
Qed.

End NormalizeFacts.

(** ** The reader *)

Module ReaderFacts.
Import SPS30Reader Observe.

Lemma disconnects_app a b : disconnects (a ++ b) = (disconnects a + disconnects b)%nat.
Proof.
  induction a as [|e a IH]; simpl; trivial. destruct e; simpl; now rewrite ?IH.
Qed.

Lemma sleeps_app a b : sleeps (a ++ b) = sleeps a ++ sleeps b.
Proof.
  induction a as [|e a IH]; simpl; trivial. destruct e; simpl; now rewrite ?IH.
Qed.

Lemma callbacks_app a b : callbacks (a ++ b) = callbacks a ++ callbacks b.
Proof.
  induction a as [|e a IH]; simpl; trivial. destruct e; simpl; now rewrite ?IH.
Qed.

Lemma opened_app a b : opened (a ++ b) = opened a ++ opened b.
Proof.
  induction a as [|e a IH]; simpl; trivial. destruct e; simpl; now rewrite ?IH.
Qed.

Lemma starts_app a b : starts (a ++ b) = (starts a + starts b)%nat.
Proof.
  induction a as [|e a IH]; simpl; trivial. destruct e; simpl; now rewrite ?IH.
Qed.

(** Projections of updated records, and nothing else, are computed. *)
Ltac fields :=
  cbn [uart_port sample_period_s on_sample_callback _stop_event _paused _thread
       _device _conn _port _consecutive_read_failures _max_consecutive_failures
       _last_sample_time _measurement_started _warmup_deadline
       _debug_sample_counter upd_uart_port upd_stop_event upd_paused upd_thread
       upd_device upd_conn upd_port upd_consecutive_read_failures
       upd_last_sample_time upd_measurement_started upd_warmup_deadline
       upd_debug_sample_counter reader backoff_s fst snd] in *.

(** *** [_disconnect] *)

Lemma disconnect_fields r :
  let r' := fst (_disconnect r) in
  _device r' = None /\ _conn r' = None /\ _port r' = None
  /\ uart_port r' = uart_port r
  /\ _measurement_started r' = _measurement_started r
  /\ _warmup_deadline r' = _warmup_deadline r
  /\ _consecutive_read_failures r' = _consecutive_read_failures r
  /\ _max_consecutive_failures r' = _max_consecutive_failures r
  /\ _last_sample_time r' = _last_sample_time r
  /\ _paused r' = _paused r /\ _stop_event r' = _stop_event r
  /\ _thread r' = _thread r.
Proof.
  unfold _disconnect. cbn. destruct (_conn r) eqn:E; cbn; rewrite ?E;
    repeat split; reflexivity.
Qed.

Lemma disconnect_once r : disconnects (snd (_disconnect r)) = 1%nat.
Proof.
  unfold _disconnect. cbn.
  destruct (_device r) as [dev|]; [destruct (has_stop_measurement dev)|];
    destruct (_conn r); cbn; destruct (_port r); reflexivity.
Qed.

Lemma disconnect_trace r :
  let evs := snd (_disconnect r) in
  sleeps evs = [] /\ callbacks evs = [] /\ opened evs = [] /\ starts evs = O.
Proof.
  unfold _disconnect. fields.
  destruct (_device r) as [dev|]; [destruct (has_stop_measurement dev)|];
    destruct (_conn r); fields; destruct (_port r); now cbn.
Qed.

(** A second [_disconnect] finds nothing to tear down. *)
Lemma disconnect_idempotent r :
  _disconnect (fst (_disconnect r)) = (fst (_disconnect r), [EvDisconnect]).
Proof.
  unfold _disconnect. cbn. destruct (_conn r) eqn:E; cbn; rewrite ?E; reflexivity.
Qed.

(** *** [_ensure_started] *)

Lemma ensure_started_fields drv o r :
  let r' := fst (_ensure_started drv o r) in
  _device r' = _device r /\ _conn r' = _conn r /\ _port r' = _port r
  /\ uart_port r' = uart_port r
  /\ _warmup_deadline r' = _warmup_deadline r
  /\ _consecutive_read_failures r' = _consecutive_read_failures r
  /\ _max_consecutive_failures r' = _max_consecutive_failures r
  /\ _last_sample_time r' = _last_sample_time r
  /\ _paused r' = _paused r /\ _stop_event r' = _stop_event r
  /\ _thread r' = _thread r.
Proof.
  unfold _ensure_started.
  destruct (_device r) as [dev|] eqn:Ed; [|simpl; now rewrite Ed].
  destruct (_measurement_started r); [simpl; now rewrite Ed|].
  destruct (has_start_measurement dev); [|simpl; now rewrite Ed].
  destruct (OutputFormat drv), (with_format_ok o), (plain_ok o); simpl;
    rewrite ?Ed; repeat split; reflexivity.
Qed.

Lemma ensure_started_trace drv o r :
  let evs := snd (_ensure_started drv o r) in
  disconnects evs = O /\ sleeps evs = [] /\ callbacks evs = [] /\ opened evs = [].
Proof.
  unfold _ensure_started.
  destruct (_device r) as [dev|]; [|now simpl].
  destruct (_measurement_started r); [now simpl|].
  destruct (has_start_measurement dev); [|now simpl].
  destruct (OutputFormat drv), (with_format_ok o), (plain_ok o); now simpl.
Qed.

(** With the flag already set, no start command is sent. *)
Lemma ensure_started_skips drv o r :
  _measurement_started r = true -> _ensure_started drv o r = (r, []).
Proof.
  intros H. unfold _ensure_started. destruct (_device r); trivial. now rewrite H.
Qed.

(** *** [_read_measurement] *)

Lemma poll_trace dev env i n :
  let evs := poll dev env i n in
  disconnects evs = O /\ callbacks evs = [] /\ opened evs = [].
Proof.
  revert i. induction n as [|n IH]; intros i; simpl; [now idtac|].
  destruct (has_is_data_ready dev).
  - destruct (ready env i) as [[|]|]; simpl; first [now idtac | apply IH].
  - simpl. apply IH.
Qed.

(** The polling rounds are left folded: what they record is all that
    matters below. *)
Ltac hide_polls :=
  repeat match goal with
         | |- context [poll ?d ?e ?i ?n] =>
             let polled := fresh "polled" in
             generalize (poll d e i n); intro polled
         end.

Lemma read_trace env r :
  let evs := snd (_read_measurement env r) in
  disconnects evs = O /\ callbacks evs = [] /\ opened evs = [].
Proof.
  unfold _read_measurement.
  destruct (_device r) as [dev|]; [|now simpl].
  destruct (warming_up env r); [now simpl|].
  destruct (has_read_measured_values dev || has_read_measured_value dev)%bool.
  - pose proof (poll_trace dev env 0 10) as T. cbv zeta in T.
    generalize dependent (poll dev env 0 10). intros polled (H1 & H2 & H3).
    destruct (legacy_read env); cbn [snd];
      rewrite disconnects_app, callbacks_app, opened_app, H1, H2, H3; now cbn.
  - destruct (has_read_measurement_values_uint16 dev); [|now simpl].
    pose proof (poll_trace dev env 0 20) as T. cbv zeta in T.
    generalize dependent (poll dev env 0 20). intros polled (H1 & H2 & H3).
    destruct (uart_read env) as [values|]; cbn [snd].
    + destruct (Normalize.extract_uart values) as [[[[a b] c] d]|]; cbn [snd];
        rewrite disconnects_app, callbacks_app, opened_app, H1, H2, H3; now cbn.
    + rewrite disconnects_app, callbacks_app, opened_app, H1, H2, H3; now cbn.
Qed.

(** A read that gives [None] leaves the reader as it was. *)
Lemma read_none_reader env r r' evs :
  _read_measurement env r = (None, r', evs) -> r' = r.
Proof.
  unfold _read_measurement.
  destruct (_device r) as [dev|]; [|now inversion 1].
  destruct (warming_up env r); [now inversion 1|]. hide_polls.
  destruct (has_read_measured_values dev || has_read_measured_value dev)%bool.
  - destruct (legacy_read env); now inversion 1.
  - destruct (has_read_measurement_values_uint16 dev); [|now inversion 1].
    destruct (uart_read env) as [values|]; [|now inversion 1].
    destruct (Normalize.extract_uart values) as [[[[a b] c] d]|]; now inversion 1.
Qed.


(** During the warm-up the read gives [None] after a sleep of 0.2 s and
    asks the device nothing. *)
Lemma read_warming_up env r dev :
  _device r = Some dev -> warming_up env r = true ->
  _read_measurement env r = (None, r, [EvSleep 0.2%float]).
Proof. intros Hd Hw. unfold _read_measurement. now rewrite Hd, Hw. Qed.


End ReaderFacts.

(** ** The read, from the driver's value to the sample *)

Module NormalizeClaims.
Import Py Normalize NormalizeObs StatsObs NormalizeFacts SPS30Reader ReaderFacts.




End NormalizeClaims.

(** ** The sampling loop: reads that give nothing *)

Module LoopFacts.
Import SPS30Reader Observe ReaderFacts.





End LoopFacts.

Module LoopClaims.
Import SPS30Reader Observe ReaderFacts LoopFacts.



End LoopClaims.

Module ThresholdWitness.
Import SPS30Reader Observe LoopClaims.


End ThresholdWitness.

(** ** Connecting *)

Module ConnectFacts.
Import SPS30Reader Observe ReaderFacts.

Lemma ensure_started_sleeps drv o r : sleeps (snd (_ensure_started drv o r)) = [].
Proof. apply ensure_started_trace. Qed.

(** One candidate: exactly one port is opened, this one, and nothing sleeps. *)
Lemma try_port_trace drv env port_name port_var r :
  let evs := snd (try_port drv env port_name port_var r) in
  sleeps evs = [] /\ disconnects evs = O /\ callbacks evs = []
  /\ opened evs = [port_name].
Proof.
  unfold try_port. destruct (probe env port_name) as [| |dev start].
  - destruct port_var; now cbn.
  - now cbn.
  - destruct (ShdlcChannel drv && Sps30UartDevice drv)%bool;
      [|destruct (Sps30ShdlcDevice drv); [|now cbn]].
    + pose proof (ensure_started_trace drv start
                    (upd_conn None (upd_port (Some port_name) (upd_device (Some dev) r))))
        as T. cbv zeta in T.
      destruct (_ensure_started _ _ _) as [r' evs].
      cbn [snd] in *. destruct T as (T1 & T2 & T3 & T4).
      cbn [sleeps disconnects callbacks opened]. now rewrite T1, T2, T3, T4.
    + pose proof (ensure_started_trace drv start
                    (upd_conn (Some port_name)
                       (upd_port (Some port_name) (upd_device (Some dev) r))))
        as T. cbv zeta in T.
      destruct (_ensure_started _ _ _) as [r' evs].
      cbn [snd] in *. destruct T as (T1 & T2 & T3 & T4).
      cbn [sleeps disconnects callbacks opened]. now rewrite T1, T2, T3, T4.
Qed.

Lemma try_ports_trace drv env ports : forall port_var r,
  let evs := snd (try_ports drv env ports port_var r) in
  sleeps evs = [] /\ disconnects evs = O /\ callbacks evs = []
  /\ exists n, opened evs = firstn n ports.
Proof.
  induction ports as [|p rest IH]; intros port_var r; cbn [try_ports].
  - cbn. repeat split. now exists O.
  - destruct (try_port_trace drv env p port_var r) as (T1 & T2 & T3 & T4).
    destruct (try_port drv env p port_var r) as [[r1|pv] evs]; cbn [snd] in *.
    + repeat split; trivial. exists 1%nat. now cbn.
    + specialize (IH pv (upd_device None (upd_conn None (upd_port None r)))).
      destruct (try_ports _ _ rest _ _) as [[ok r2] evs2]. cbn [snd] in *.
      destruct IH as (I1 & I2 & I3 & n & I4).
      rewrite sleeps_app, disconnects_app, callbacks_app, opened_app.
      rewrite T1, T2, T3, T4, I1, I2, I3, I4. repeat split.
      now exists (S n).
Qed.

(** The loop over the candidates fails with no device set. *)
Lemma try_ports_failure drv env ports : forall port_var r r' evs,
  try_ports drv env ports port_var r = (false, r', evs) ->
  _device r = None -> _device r' = None.
Proof.
  induction ports as [|p rest IH]; intros port_var r r' evs; cbn [try_ports].
  - intros H Hd. now inversion H; subst.
  - destruct (try_port drv env p port_var r) as [[r1|pv] evs1]; [discriminate|].
    destruct (try_ports _ _ rest _ _) as [[ok r2] evs2] eqn:E.
    intros H _. inversion H; subst. eapply IH; [exact E|reflexivity].
Qed.

Lemma connect_trace drv env r :
  let evs := snd (_connect drv env r) in
  sleeps evs = [] /\ disconnects evs = O /\ callbacks evs = [].
Proof.
  unfold _connect. destruct (no_driver drv); [now cbn|].
  pose proof (try_ports_trace drv env
                (ports_to_try (uart_port r) (detected env)) None r) as T.
  destruct (try_ports _ _ _ _ _) as [[ok r'] evs]. cbn [snd] in *.
  destruct T as (T1 & T2 & T3 & _). cbn. now rewrite T1, T2, T3.
Qed.

Lemma connect_failure drv env r r' evs :
  _connect drv env r = (false, r', evs) -> _device r = None -> _device r' = None.
Proof.
  unfold _connect. destruct (no_driver drv).
  - intros H Hd. now inversion H; subst.
  - destruct (try_ports _ _ _ _ _) as [[ok r2] evs2] eqn:E.
    intros H Hd. inversion H; subst. eapply try_ports_failure; eauto.
Qed.

(** The ports a connect attempt opens are the first candidates, in order. *)
Lemma connect_opens_candidates drv env r :
  exists n,
    opened (snd (_connect drv env r))
      = firstn n (ports_to_try (uart_port r) (detected env)).
Proof.
  unfold _connect. destruct (no_driver drv); [now exists O|].
  pose proof (try_ports_trace drv env
                (ports_to_try (uart_port r) (detected env)) None r) as T.
  destruct (try_ports _ _ _ _ _) as [[ok r'] evs]. cbn [snd] in *.
  destruct T as (_ & _ & _ & n & T). exists n. now cbn.
Qed.

(** [read_step] never ends as a failed connect, and keeps the backoff. *)
Lemma read_step_outcome drv env lp :
  fst (fst (read_step drv env lp)) <> ConnectFailed
  /\ backoff_s (snd (fst (read_step drv env lp))) = backoff_s lp.
Proof.
  unfold read_step. destruct (_read_measurement env (reader lp)) as [[[s|] r] evs].
  - now cbn.
  - destruct (_ >=? _).
    + destruct (_disconnect _) as [r2 evd]. now cbn.
    + destruct (_ensure_started _ _ _) as [r2 eve]. now cbn.
Qed.

(** An iteration that ends as a failed connect: one sleep, of the current
    backoff capped at 10 s, and the backoff multiplied by 1.5 under the
    same cap; still no device. *)
Lemma tick_connect_failed drv env lp lp' evs :
  tick drv env lp = (ConnectFailed, lp', evs) ->
  sleeps evs = [Py.min 10%float (backoff_s lp)]
  /\ backoff_s lp' = Py.min 10%float (PrimFloat.mul (backoff_s lp) 1.5%float)
  /\ _device (reader lp') = None.
Proof.
  unfold tick, connect_step.
  destruct (_device (reader lp)) as [dev|] eqn:Hd.
  - destruct (_paused (reader lp)); [discriminate|].
    pose proof (read_step_outcome drv env lp) as [O _].
    destruct (read_step drv env lp) as [[o l] e]. cbn [fst] in O.
    intros H. inversion H; subst. now elim O.
  - pose proof (connect_trace drv env (reader lp)) as T.
    destruct (_connect drv env (reader lp)) as [[ok r] evs1] eqn:E. cbn [snd] in T.
    destruct ok; cbn [negb].
    + destruct (_paused _); [discriminate|].
      match goal with |- context [read_step ?d ?e ?l] =>
        pose proof (read_step_outcome d e l) as [O _];
        destruct (read_step d e l) as [[o l'] e'] end.
      cbn [fst] in O. intros H. inversion H; subst. now elim O.
    + intros H. inversion H; subst. cbn [reader backoff_s].
      destruct T as (T1 & _). rewrite sleeps_app, T1. repeat split.
      eapply connect_failure; eauto.
Qed.

End ConnectFacts.

(** What the connect and the read leave untouched. *)
Module ReaderMoreFacts.
Import SPS30Reader Observe ObserveMore ReaderFacts ConnectFacts.

Lemma reads_app a b : reads (a ++ b) = (reads a + reads b)%nat.
Proof.
  induction a as [|e a IH]; simpl; trivial. destruct e; simpl; now rewrite ?IH.
Qed.

Lemma closed_app a b : closed (a ++ b) = closed a ++ closed b.
Proof.
  induction a as [|e a IH]; simpl; trivial. destruct e; simpl; now rewrite ?IH.
Qed.

Lemma same_controls_refl r : same_controls r r.
Proof. unfold same_controls. now repeat split. Qed.

Lemma same_controls_trans r1 r2 r3 :
  same_controls r1 r2 -> same_controls r2 r3 -> same_controls r1 r3.
Proof.
  unfold same_controls.
  intros (A1 & A2 & A3 & A4 & A5 & A6 & A7 & A8 & A9)
         (B1 & B2 & B3 & B4 & B5 & B6 & B7 & B8 & B9).
  repeat split; congruence.
Qed.

Lemma ensure_started_controls drv o r :
  same_controls r (fst (_ensure_started drv o r))
  /\ same_handles r (fst (_ensure_started drv o r))
  /\ _warmup_deadline (fst (_ensure_started drv o r)) = _warmup_deadline r
  /\ reads (snd (_ensure_started drv o r)) = O
  /\ closed (snd (_ensure_started drv o r)) = [].
Proof.
  unfold _ensure_started, same_controls, same_handles.
  destruct (_device r) as [dev|] eqn:Ed; [|cbn; rewrite ?Ed; now repeat split].
  destruct (_measurement_started r); [cbn; rewrite ?Ed; now repeat split|].
  destruct (has_start_measurement dev); [|cbn; rewrite ?Ed; now repeat split].
  destruct (OutputFormat drv), (with_format_ok o), (plain_ok o); cbn;
    rewrite ?Ed; now repeat split.
Qed.

Lemma disconnect_controls r :
  same_controls r (fst (_disconnect r))
  /\ reads (snd (_disconnect r)) = O.
Proof.
  unfold _disconnect, same_controls. fields.
  destruct (_device r) as [dev|]; [destruct (has_stop_measurement dev)|];
    destruct (_conn r); fields; destruct (_port r); cbn; now repeat split.
Qed.

(** A candidate that succeeds: the device the probe gave, on this port,
    with the warm-up deadline five seconds after the clock reading. *)
Lemma try_port_success drv env port_name port_var r r' evs :
  try_port drv env port_name port_var r = (inl r', evs) ->
  (exists dev start, probe env port_name = Opened dev start /\ _device r' = Some dev)
  /\ _port r' = Some port_name
  /\ (_conn r' = None \/ _conn r' = Some port_name)
  /\ _warmup_deadline r' = PrimFloat.add (clock_connect env) 5%float
  /\ same_controls r r'
  /\ reads evs = O /\ closed evs = [].
Proof.
  unfold try_port. destruct (probe env port_name) as [| |dev start] eqn:Ep.
  - destruct port_var; discriminate.
  - discriminate.
  - destruct (ShdlcChannel drv && Sps30UartDevice drv)%bool;
      [|destruct (Sps30ShdlcDevice drv); [|discriminate]].
    + match goal with |- context [_ensure_started drv start ?x] =>
        pose proof (ensure_started_controls drv start x) as (C & (H1 & H2 & H3) & _ & R & K);
        destruct (_ensure_started drv start x) as [r1 evs1] end.
      cbn [fst snd] in *. intros E. inversion E; subst. fields.
      unfold same_controls in *. fields. cbn [reads closed].
      repeat split; try tauto; eauto.
    + match goal with |- context [_ensure_started drv start ?x] =>
        pose proof (ensure_started_controls drv start x) as (C & (H1 & H2 & H3) & _ & R & K);
        destruct (_ensure_started drv start x) as [r1 evs1] end.
      cbn [fst snd] in *. intros E. inversion E; subst. fields.
      unfold same_controls in *. fields. cbn [reads closed].
      repeat split; try tauto; eauto.
Qed.

(** A candidate that fails sends no read, and closes the port when it had
    been opened. *)
Lemma try_port_failure drv env port_name port_var r pv evs :
  try_port drv env port_name port_var r = (inr pv, evs) ->
  port_fails env port_name = true \/
    (ShdlcChannel drv && Sps30UartDevice drv = false /\ Sps30ShdlcDevice drv = false)%bool.
Proof.
  unfold try_port, port_fails. destruct (probe env port_name) as [| |dev start]; auto.
  destruct (ShdlcChannel drv && Sps30UartDevice drv)%bool.
  - destruct (_ensure_started _ _ _); discriminate.
  - destruct (Sps30ShdlcDevice drv); [destruct (_ensure_started _ _ _); discriminate|].
    intros _. right. now split.
Qed.

Lemma usable_driver drv :
  no_driver drv = false ->
  (ShdlcChannel drv && Sps30UartDevice drv)%bool = true \/ Sps30ShdlcDevice drv = true.
Proof.
  unfold no_driver.
  destruct (ShdlcSerialPort drv), (ShdlcConnection drv), (Sps30ShdlcDevice drv),
    (ShdlcChannel drv), (Sps30UartDevice drv); cbn; auto; discriminate.
Qed.

Lemma same_controls_cleared r :
  same_controls r (upd_device None (upd_conn None (upd_port None r))).
Proof. unfold same_controls. fields. now repeat split. Qed.

(** The scan as a whole: the controls are untouched and no read is sent;
    on success a device and a port are held, on failure none is (or
    nothing was tried). *)
Lemma try_ports_general drv env ports : forall port_var r,
  let ok := fst (fst (try_ports drv env ports port_var r)) in
  let r' := snd (fst (try_ports drv env ports port_var r)) in
  let evs := snd (try_ports drv env ports port_var r) in
  same_controls r r' /\ reads evs = O
  /\ (ok = true ->
      (exists dev, _device r' = Some dev) /\ (exists p, In p ports /\ _port r' = Some p)
      /\ _warmup_deadline r' = PrimFloat.add (clock_connect env) 5%float)
  /\ (ok = false ->
      (ports = [] /\ r' = r)
      \/ (_device r' = None /\ _port r' = None /\ _conn r' = None)).
Proof.
  induction ports as [|p rest IH]; intros port_var r; cbn [try_ports].
  - cbn [fst snd reads]. split; [apply same_controls_refl|].
    split; [reflexivity|]. split; [discriminate|]. auto.
  - destruct (try_port drv env p port_var r) as [[r1|pv] evs] eqn:E.
    + apply try_port_success in E as ((dev & start & _ & Hd) & Hp & _ & Hw & C & R & _).
      cbn [fst snd]. split; [exact C|]. split; [exact R|]. split; [|discriminate].
      intros _. split; [now exists dev|]. split; [|exact Hw].
      exists p. split; [now left|exact Hp].
    + specialize (IH pv (upd_device None (upd_conn None (upd_port None r)))).
      destruct (try_ports drv env rest pv _) as [[ok r2] evs2] eqn:E2.
      cbn [fst snd] in *. destruct IH as (C & R & Hok & Hno).
      assert (R1 : reads evs = O).
      { revert E. unfold try_port. destruct (probe env p) as [| |dev start].
        - destruct port_var; intros E; inversion E; reflexivity.
        - intros E; inversion E; reflexivity.
        - destruct (ShdlcChannel drv && Sps30UartDevice drv)%bool;
            [destruct (_ensure_started _ _ _); discriminate|].
          destruct (Sps30ShdlcDevice drv);
            [destruct (_ensure_started _ _ _); discriminate|].
          intros E; inversion E; reflexivity. }
      split; [|split; [|split]].
      * eapply same_controls_trans; [apply same_controls_cleared|exact C].
      * now rewrite reads_app, R1, R.
      * intros Ht. destruct (Hok Ht) as (Hd & (q & Hin & Hq) & Hw).
        split; [exact Hd|]. split; [|exact Hw].
        exists q. split; [now right|exact Hq].
      * intros Hf. right. destruct (Hno Hf) as [[_ ->]|H3]; [|exact H3].
        fields. now repeat split.
Qed.

Lemma connect_general drv env r :
  let ok := fst (fst (_connect drv env r)) in
  let r' := snd (fst (_connect drv env r)) in
  let evs := snd (_connect drv env r) in
  same_controls r r' /\ reads evs = O
  /\ (ok = true ->
      (exists dev, _device r' = Some dev) /\ (exists p, _port r' = Some p)
      /\ _warmup_deadline r' = PrimFloat.add (clock_connect env) 5%float)
  /\ (ok = false ->
      r' = r \/ (_device r' = None /\ _port r' = None /\ _conn r' = None)).
Proof.
  unfold _connect. destruct (no_driver drv).
  - cbn [fst snd reads]. split; [apply same_controls_refl|].
    split; [reflexivity|]. split; [discriminate|]. auto.
  - pose proof (try_ports_general drv env (ports_to_try (uart_port r) (detected env))
                  None r) as G. cbv zeta in G.
    destruct (try_ports _ _ _ _ _) as [[ok r'] evs]. cbn [fst snd] in *.
    destruct G as (C & R & Hok & Hno).
    split; [exact C|]. split; [exact R|]. split.
    + intros Ht. destruct (Hok Ht) as (Hd & (p & _ & Hp) & Hw).
      split; [exact Hd|]. split; [now exists p|exact Hw].
    + intros Hf. destruct (Hno Hf) as [[_ ->]|H3]; auto.
Qed.

(** A read leaves everything but the debug counter as it was. *)
Lemma read_controls env r :
  let r' := snd (fst (_read_measurement env r)) in
  same_controls r r' /\ same_handles r r'
  /\ _measurement_started r' = _measurement_started r
  /\ _warmup_deadline r' = _warmup_deadline r.
Proof.
  unfold _read_measurement, same_controls, same_handles.
  destruct (_device r) as [dev|] eqn:Ed; [|cbn; rewrite ?Ed; now repeat split].
  destruct (warming_up env r); [cbn; rewrite ?Ed; now repeat split|]. hide_polls.
  destruct (has_read_measured_values dev || has_read_measured_value dev)%bool.
  - destruct (legacy_read env); cbn; rewrite ?Ed; now repeat split.
  - destruct (has_read_measurement_values_uint16 dev);
      [|cbn; rewrite ?Ed; now repeat split].
    destruct (uart_read env) as [values|]; [|cbn; rewrite ?Ed; now repeat split].
    destruct (Normalize.extract_uart values) as [[[[a b] c] d]|];
      cbn; rewrite ?Ed; now repeat split.
Qed.

End ReaderMoreFacts.

(** ** The warm-up *)

Module WarmupClaims.
Import SPS30Reader Observe ObserveMore ReaderFacts LoopFacts ConnectFacts ReaderMoreFacts.

(** During the warm-up the read gives [None], device or not. *)
Lemma warming_reads_none env r :
  warming_up env r = true ->
  fst (fst (_read_measurement env r)) = None
  /\ callbacks (snd (_read_measurement env r)) = [].
Proof.
  intros Hw. unfold _read_measurement. rewrite Hw. now destruct (_device r).
Qed.

(** What the connect block leaves for the read: nothing called back, the
    time of the last sample and the threshold as they were, and the
    counter as it was when a device was held, at 0 after a connect. *)
Lemma connect_step_reached drv env lp lp1 evc :
  connect_step drv env lp = (true, lp1, evc) ->
  callbacks evc = []
  /\ _last_sample_time (reader lp1) = _last_sample_time (reader lp)
  /\ _max_consecutive_failures (reader lp1) = _max_consecutive_failures (reader lp)
  /\ _consecutive_read_failures (reader lp1)
     = match _device (reader lp) with
       | Some _ => _consecutive_read_failures (reader lp)
       | None => 0
       end.
Proof.
  unfold connect_step. destruct (_device (reader lp)) as [dev|].
  - intros H. inversion H; subst. now repeat split.
  - pose proof (connect_trace drv env (reader lp)) as (_ & _ & C).
    pose proof (connect_general drv env (reader lp)) as (S & _).
    destruct (_connect drv env (reader lp)) as [[ok r] evs].
    cbn [fst snd] in *. destruct ok; cbn [negb]; [|discriminate].
    intros H. inversion H; subst. unfold same_controls in S.
    destruct S as (_ & _ & _ & _ & _ & Sm & Sl & _). fields. now repeat split.
Qed.

(** The rest of an iteration whose read gives [None]. *)
Lemma read_step_none drv env lp :
  fst (fst (_read_measurement env (reader lp))) = None ->
  let r := reader lp in
  let evs := snd (_read_measurement env r) in
  let r1 := upd_consecutive_read_failures (_consecutive_read_failures r + 1) r in
  read_step drv env lp =
    if _consecutive_read_failures r + 1 >=? _max_consecutive_failures r then
      (Reconnect,
       mkLoop (upd_measurement_started false
                 (upd_consecutive_read_failures 0 (fst (_disconnect r1))))
              (backoff_s lp),
       evs ++ snd (_disconnect r1) ++ [EvSleep 1%float])
    else
      (ReadFailed,
       mkLoop (fst (_ensure_started drv (restart env) r1)) (backoff_s lp),
       evs ++ snd (_ensure_started drv (restart env) r1) ++ [EvSleep 0.5%float]).
Proof.
  intros Hn r evs r1. subst r evs r1. unfold read_step.
  destruct (_read_measurement env (reader lp)) as [[sample r1] evs] eqn:E.
  cbn [fst snd] in *. subst sample.
  apply read_none_reader in E. subst r1. cbv beta iota zeta.
  cbn [_consecutive_read_failures _max_consecutive_failures upd_consecutive_read_failures].
  destruct (_consecutive_read_failures (reader lp) + 1
            >=? _max_consecutive_failures (reader lp)).
  - destruct (_disconnect _) as [r2 evd]. reflexivity.
  - destruct (_ensure_started _ _ _) as [r2 eve]. reflexivity.
Qed.

(** C2, as amended. An iteration that reaches its read before the warm-up
    deadline, be it with the device it held or with the one it has just
    connected, produces no sample and calls no callback; its read gives
    [None] as a failed read does, and the loop counts it. The counter the
    read finds is the reader's when a device was held and 0 after a
    connect in this iteration; it goes up by one, or back to 0 through the
    reconnect path when that brings it to the threshold. *)
Theorem warmup_tick_no_sample_but_counted drv (env : Env) (lp : Loop) (r1 : Reader) :
  read_reached drv env lp = Some r1 ->
  warming_up env r1 = true ->
  let o := fst (fst (tick drv env lp)) in
  let lp' := snd (fst (tick drv env lp)) in
  let evs := snd (tick drv env lp) in
  let found :=
    match _device (reader lp) with
    | Some _ => _consecutive_read_failures (reader lp)
    | None => 0
    end in
  let threshold := _max_consecutive_failures (reader lp) in
  (o = ReadFailed \/ o = Reconnect)
  /\ (o = Reconnect <-> threshold <= found + 1)
  /\ callbacks evs = []
  /\ _last_sample_time (reader lp') = _last_sample_time (reader lp)
  /\ _consecutive_read_failures r1 = found
  /\ _consecutive_read_failures (reader lp')
     = if found + 1 >=? threshold then 0 else found + 1.
Proof.
  intros Hr Hw. unfold read_reached in Hr. cbv zeta. unfold tick.
  destruct (connect_step drv env lp) as [[go lp1] evc] eqn:Ec.
  destruct go; [|discriminate].
  destruct (_paused (reader lp1)) eqn:Hp; [discriminate|].
  inversion Hr; subst r1. clear Hr.
  destruct (connect_step_reached drv env lp lp1 evc Ec) as (Cc & Cl & Cm & Cf).
  destruct (warming_reads_none env (reader lp1) Hw) as (Hn & Hcb).
  rewrite (read_step_none drv env lp1 Hn). rewrite <- Cf, <- Cm.
  set (r1 := upd_consecutive_read_failures _ (reader lp1)).
  destruct (_consecutive_read_failures (reader lp1) + 1
            >=? _max_consecutive_failures (reader lp1)) eqn:E; cbn [fst snd reader].
  - destruct (disconnect_fields r1) as (_ & _ & _ & _ & _ & _ & _ & _ & F & _).
    destruct (disconnect_trace r1) as (_ & C & _).
    apply Z.geb_le in E.
    rewrite !callbacks_app, Cc, Hcb, C. fields. rewrite F. subst r1. fields.
    repeat split; auto.
  - destruct (ensure_started_fields drv (restart env) r1)
      as (_ & _ & _ & _ & _ & F1 & _ & F2 & _).
    destruct (ensure_started_trace drv (restart env) r1) as (_ & _ & C & _).
    rewrite Z.geb_leb in E. apply Z.leb_gt in E.
    rewrite !callbacks_app, Cc, Hcb, C, F1, F2. subst r1. fields.
    repeat split; auto; try discriminate. intros H. lia.
Qed.

(** The connection test's [_disconnect] has left the reader of
    [Scenario.connected] without a device, its counter at 1. The next
    iteration connects and reads inside the new warm-up: the counter is 1
    again, the failure counted from 0. *)
Lemma warmup_tick_no_sample_but_counted_witness :
  let lp := mkLoop (fst (_disconnect (reader Scenario.connected))) 1 in
  let env := Scenario.env_at 1000.5 in
  (_device (reader lp) = None /\ _consecutive_read_failures (reader lp) = 1)
  /\ fst (fst (tick Scenario.legacy_drivers env lp)) = ReadFailed
  /\ callbacks (snd (tick Scenario.legacy_drivers env lp)) = []
  /\ _consecutive_read_failures (reader (snd (fst (tick Scenario.legacy_drivers env lp))))
     = 1.
Proof.
  intros lp env.
  split; [split; vm_compute; reflexivity|]. split; [vm_compute; reflexivity|].
  set (r1 := reader (snd (fst (connect_step Scenario.legacy_drivers env lp)))).
  assert (Hr : read_reached Scenario.legacy_drivers env lp = Some r1)
    by (vm_compute; reflexivity).
  assert (Hw : warming_up env r1 = true) by (vm_compute; reflexivity).
  pose proof (warmup_tick_no_sample_but_counted Scenario.legacy_drivers env lp r1 Hr Hw)
    as W.
  cbv zeta in W. destruct W as (_ & _ & C & _ & _ & F).
  split; [exact C|]. rewrite F. reflexivity.
Defined.

(** C2 as stated fails. The reader connects at 1000.0 s, so the warm-up
    lasts until 1005.0 s; the iteration at 1001.5 s is inside the warm-up,
    produces no sample, and moves the consecutive-failure counter from 1
    to 2 (the first iteration, at 1000.5 s, had already moved it from 0
    to 1). *)
Lemma warmup_tick_is_counted_counterexample :
  let lp := Scenario.connected in
  let env := Scenario.env_at 1001.5 in
  let lp' := snd (fst (tick Scenario.legacy_drivers env lp)) in
  _warmup_deadline (reader lp) = 1005%float
  /\ warming_up env (reader lp) = true
  /\ fst (fst (tick Scenario.legacy_drivers env lp)) = ReadFailed
  /\ callbacks (snd (tick Scenario.legacy_drivers env lp)) = []
  /\ _consecutive_read_failures (reader lp) = 1
  /\ _consecutive_read_failures (reader lp') = 2
  /\ _consecutive_read_failures (reader lp')
     <> _consecutive_read_failures (reader lp).
Proof. repeat split; try reflexivity. discriminate. Qed.

End WarmupClaims.

Module BackoffClaims.
Import SPS30Reader Observe ReaderFacts ConnectFacts.

(** The table is the recurrence of the code: each entry is the previous
    one times 1.5, capped at 10; and an entry is its own cap. *)
Lemma nth_backoff_next k :
  Py.min 10%float (PrimFloat.mul (nth_backoff k) 1.5%float) = nth_backoff (S k).
Proof. do 7 (destruct k as [|k]; [reflexivity|]). reflexivity. Qed.

Lemma nth_backoff_capped k : Py.min 10%float (nth_backoff k) = nth_backoff k.
Proof. do 7 (destruct k as [|k]; [reflexivity|]). reflexivity. Qed.

Lemma nth_backoff_bounds k :
  PrimFloat.leb (nth_backoff k) (nth_backoff (S k)) = true
  /\ PrimFloat.leb (nth_backoff k) 10%float = true.
Proof. do 7 (destruct k as [|k]; [now split|]). now split. Qed.

(** A run of iterations that all end as failed connects. *)
Lemma run_connect_failures drv envs : forall lp k,
  backoff_s lp = nth_backoff k ->
  map fst (snd (_run drv envs lp)) = repeat ConnectFailed (List.length envs) ->
  flat_map (fun it => sleeps (snd it)) (snd (_run drv envs lp))
    = map nth_backoff (seq k (List.length envs))
  /\ backoff_s (fst (_run drv envs lp)) = nth_backoff (k + List.length envs).
Proof.
  induction envs as [|env rest IH]; intros lp k Hb Hrun; cbn [_run] in *.
  - cbn. now rewrite Nat.add_0_r.
  - destruct (_stop_event (reader lp)); [discriminate|].
    destruct (tick drv env lp) as [[o lp1] evs] eqn:Et.
    destruct (_run drv rest lp1) as [lp2 log] eqn:Er.
    cbn [fst snd map List.length repeat] in *.
    inversion Hrun as [[Ho Hrest]]. subst o.
    destruct (tick_connect_failed drv env lp lp1 evs Et) as (S1 & B1 & _).
    rewrite Hb, nth_backoff_next in B1. rewrite Hb, nth_backoff_capped in S1.
    specialize (IH lp1 (S k) B1). rewrite Er in IH. cbn [fst snd] in IH.
    destruct (IH Hrest) as (I1 & I2).
    cbn [flat_map seq map snd]. rewrite S1, I1, I2. split; [reflexivity|].
    f_equal. lia.
Qed.


Lemma tick_between_runs drv env last lp :
  between_runs last lp ->
  between_runs (Some (fst (fst (tick drv env lp)))) (snd (fst (tick drv env lp))).
Proof.
  intros Inv. unfold tick, connect_step.
  destruct (_device (reader lp)) as [dev|] eqn:Hd.
  - assert (Hb : backoff_s lp = 1%float).
    { destruct Inv as [H|[_ H]]; [exact H|congruence]. }
    destruct (_paused (reader lp)); [now left|].
    pose proof (read_step_outcome drv env lp) as [_ B].
    destruct (read_step drv env lp) as [[o l] e]. cbn [fst snd] in *.
    left. congruence.
  - destruct (_connect drv env (reader lp)) as [[ok r] evs] eqn:E.
    destruct ok; cbn [negb].
    + destruct (_paused _); [now left|].
      match goal with |- context [read_step ?d ?e ?l] =>
        pose proof (read_step_outcome d e l) as [_ B];
        destruct (read_step d e l) as [[o l'] e'] end.
      cbn [fst snd] in *. left. exact B.
    + right. cbn [fst snd reader]. split; [reflexivity|].
      eapply connect_failure; eauto.
Qed.

Lemma step_between_runs drv s last lp :
  between_runs last lp ->
  let o := fst (fst (step drv s lp)) in
  let lp' := snd (fst (step drv s lp)) in
  between_runs (match o with Some _ => o | None => last end) lp'.
Proof.
  intros Inv. destruct s as [env| |o|p|]; cbn [step].
  - pose proof (tick_between_runs drv env last lp Inv) as T.
    destruct (tick drv env lp) as [[o l] e]. exact T.
  - cbn. exact Inv.
  - pose proof (ensure_started_fields drv o (upd_paused false (reader lp)))
      as (F & _).
    unfold resume. destruct (_ensure_started _ _ _) as [r evs].
    cbn [fst snd] in *. destruct Inv as [H|[H1 H2]]; [now left|right].
    split; trivial. cbn [reader]. rewrite F. exact H2.
  - unfold set_port.
    pose proof (disconnect_fields (upd_uart_port p (reader lp))) as (F & _).
    destruct (_disconnect _) as [r evs]. cbn [fst snd] in *.
    destruct Inv as [H|[H1 H2]]; [now left|right]. split; trivial.
  - pose proof (disconnect_fields (reader lp)) as (F & _).
    destruct (_disconnect _) as [r evs]. cbn [fst snd] in *.
    destruct Inv as [H|[H1 H2]]; [now left|right]. split; trivial.
Qed.

Lemma steps_between_runs drv sched : forall last lp,
  between_runs last lp ->
  between_runs (fst (steps drv sched last lp)) (snd (steps drv sched last lp)).
Proof.
  induction sched as [|s rest IH]; intros last lp Inv; cbn [steps]; trivial.
  pose proof (step_between_runs drv s last lp Inv) as T.
  destruct (step drv s lp) as [[o lp'] evs]. cbn [fst snd] in T.
  now apply IH.
Qed.

(** C5. In a run of consecutive [_connect] failures that starts with the
    backoff at 1.0 s, the sleeps are 1.0, 1.5, 2.25, 3.375, 5.0625,
    7.59375 and then 10.0 s for ever: each is the previous one times 1.5,
    capped at 10.0, so the sequence never decreases and never exceeds
    10.0 s. Every such run starts at 1.0 s: that is the value before the
    first iteration, a successful connect sets it (and the failure counter
    to 0), and after any schedule of iterations and outside calls the
    backoff is 1.0 s unless the last iteration was a failed connect. *)
Theorem backoff_after_connect_failures drv (envs : list Env) (lp : Loop) :
  backoff_s lp = 1%float ->
  map fst (snd (_run drv envs lp)) = repeat ConnectFailed (List.length envs) ->
  flat_map (fun it => sleeps (snd it)) (snd (_run drv envs lp))
    = map nth_backoff (seq 0 (List.length envs))
  /\ nth_backoff 0 = 1%float
  /\ (forall k,
        nth_backoff (S k) = Py.min 10%float (PrimFloat.mul (nth_backoff k) 1.5%float)
        /\ PrimFloat.leb (nth_backoff k) (nth_backoff (S k)) = true
        /\ PrimFloat.leb (nth_backoff k) 10%float = true)
  /\ (forall r, backoff_s (loop_start r) = 1%float)
  /\ (forall env l l' evs,
        _device (reader l) = None ->
        connect_step drv env l = (true, l', evs) ->
        backoff_s l' = 1%float /\ _consecutive_read_failures (reader l') = 0)
  /\ (forall sched r,
        let last := fst (steps drv sched None (loop_start r)) in
        let l := snd (steps drv sched None (loop_start r)) in
        last <> Some ConnectFailed -> backoff_s l = 1%float).
Proof.
  intros Hb Hrun. split; [|split; [reflexivity|split; [|split; [reflexivity|split]]]].
  - apply (run_connect_failures drv envs lp 0 Hb Hrun).
  - intros k. rewrite nth_backoff_next. split; [reflexivity|apply nth_backoff_bounds].
  - intros env l l' evs Hd. unfold connect_step. rewrite Hd.
    destruct (_connect drv env (reader l)) as [[ok r] e]. destruct ok; cbn [negb].
    + intros H. inversion H; subst. now cbn.
    + discriminate.
  - intros sched r last l Hlast.
    assert (Inv : between_runs None (loop_start r)) by now left.
    destruct (steps_between_runs drv sched None (loop_start r) Inv) as [H|[H _]].
    + exact H.
    + now elim Hlast.
Qed.

(** Nine iterations with no sensor on any port. *)
Lemma backoff_after_connect_failures_witness :
  let envs := repeat Scenario.env_absent 9 in
  flat_map (fun it => sleeps (snd it))
    (snd (_run Scenario.legacy_drivers envs Scenario.fresh))
  = [1; 1.5; 2.25; 3.375; 5.0625; 7.59375; 10; 10; 10]%float.
Proof.
  intros envs.
  exact (proj1 (backoff_after_connect_failures Scenario.legacy_drivers envs
                  Scenario.fresh eq_refl eq_refl)).
Defined.

End BackoffClaims.

(** ** Teardown and port selection *)

Module TeardownClaims.
Import SPS30Reader Observe ReaderFacts ConnectFacts.

(** The part of the contract of [_disconnect] that holds: the three
    handles are cleared whatever the state, and a second call changes
    nothing and touches neither device nor port. *)
Lemma disconnect_clears_handles r :
  let r' := fst (_disconnect r) in
  _device r' = None /\ _conn r' = None /\ _port r' = None
  /\ _disconnect r' = (r', [EvDisconnect]).
Proof.
  destruct (disconnect_fields r) as (F1 & F2 & F3 & _).
  cbn zeta. repeat split; trivial. apply disconnect_idempotent.
Qed.

(** The two callers that reset the flag themselves. *)
Lemma set_port_resets_flag p r : _measurement_started (fst (set_port p r)) = false.
Proof. unfold set_port. destruct (_disconnect _) as [r' evs]. reflexivity. Qed.

(** C4, where the code departs from it. [_disconnect] clears the device,
    connection and port handles but leaves [_measurement_started] as it
    was, and so does [stop]. After the connection test has called
    [_disconnect] on a started reader, the flag is still set with no
    device; the next [_connect] opens a new device, [_ensure_started]
    returns at once because of the stale flag, and the flag stays set
    though no start command was sent to that device. *)
Theorem disconnect_keeps_measurement_started :
  (forall r, _measurement_started (fst (_disconnect r)) = _measurement_started r)
  /\ (forall exited r,
        _measurement_started (fst (stop exited r)) = _measurement_started r)
  /\ (let r := reader Scenario.connected in
      let r1 := fst (_disconnect r) in
      let ok := fst (fst (_connect Scenario.legacy_drivers (Scenario.env_at 2000) r1)) in
      let r2 := snd (fst (_connect Scenario.legacy_drivers (Scenario.env_at 2000) r1)) in
      let evs := snd (_connect Scenario.legacy_drivers (Scenario.env_at 2000) r1) in
      _measurement_started r = true
      /\ _device r1 = None /\ _measurement_started r1 = true
      /\ ok = true /\ _device r2 = Some (Scenario.shdlc_device "COM3")
      /\ starts evs = O /\ _measurement_started r2 = true).
Proof.
  split; [|split].
  - intros r. apply disconnect_fields.
  - intros exited r. unfold stop.
    destruct (_thread (upd_stop_event true r)) as [t|].
    + pose proof (disconnect_fields (upd_thread None (upd_stop_event true r)))
        as (_ & _ & _ & _ & F & _).
      destruct (_disconnect _) as [r' evs]. exact F.
    + pose proof (disconnect_fields (upd_stop_event true r))
        as (_ & _ & _ & _ & F & _).
      destruct (_disconnect _) as [r' evs]. exact F.
  - repeat split; reflexivity.
Qed.

Lemma ports_to_try_pinned X detected :
  X <> EmptyString -> ports_to_try (Some X) detected = [X].
Proof. intros H. unfold ports_to_try. destruct X; [now elim H|reflexivity]. Qed.

Lemma try_ports_single drv env X pv r :
  opened (snd (try_ports drv env [X] pv r)) = [X].
Proof.
  cbn [try_ports]. destruct (try_port_trace drv env X pv r) as (_ & _ & _ & T).
  destruct (try_port drv env X pv r) as [[r1|pv1] evs]; cbn [snd] in *; trivial.
  cbn. now rewrite app_nil_r.
Qed.

(** C6, as amended. [set_port(X)], for every [X], sets the target, enters
    [_disconnect] once (which stops the device and closes the port if
    there are any), and leaves no device, no port, no last sample time and
    [_measurement_started] false. When [X] is a non-empty name, the
    candidate list of the next [_connect] is [[X]] whatever the port was
    before: with a usable driver the scan is over [[X]] and opens exactly
    that port, and in any case no other port is opened. *)
Theorem set_port_then_connect_uses_new_port drv (env : Env) (r : Reader)
  (port_name : option string) :
  let r1 := fst (set_port port_name r) in
  let evs := snd (set_port port_name r) in
  uart_port r1 = port_name
  /\ _device r1 = None /\ _conn r1 = None /\ _port r1 = None
  /\ _last_sample_time r1 = None /\ _measurement_started r1 = false
  /\ disconnects evs = 1%nat
  /\ (forall dev, _device r = Some dev -> has_stop_measurement dev = true ->
        In (EvStopMeasurement (on_port dev)) evs)
  /\ (forall p, _port r = Some p -> In (EvClosePort p) evs)
  /\ (forall X, port_name = Some X -> X <> EmptyString ->
        ports_to_try (uart_port r1) (detected env) = [X]
        /\ (forall p, In p (opened (snd (_connect drv env r1))) -> p = X)
        /\ (no_driver drv = false ->
            opened (snd (_connect drv env r1)) = [X]
            /\ exists rest, snd (_connect drv env r1) = EvConnect [X] :: rest)).
Proof.
  cbv zeta. unfold set_port.
  pose proof (disconnect_fields (upd_uart_port port_name r)) as F. cbv zeta in F.
  pose proof (disconnect_once (upd_uart_port port_name r)) as D.
  assert (Hevs : snd (_disconnect (upd_uart_port port_name r))
            = EvDisconnect ::
              match _device r with
              | Some dev => if has_stop_measurement dev
                            then [EvStopMeasurement (on_port dev)] else []
              | None => []
              end ++ match _port r with Some p => [EvClosePort p] | None => [] end).
  { unfold _disconnect. fields. destruct (_conn r); fields; reflexivity. }
  destruct (_disconnect (upd_uart_port port_name r)) as [r' evs].
  fields. destruct F as (F1 & F2 & F3 & F4 & _).
  repeat match goal with |- _ /\ _ => split end; trivial.
  - intros dev Hd Hs. rewrite Hevs, Hd, Hs. right. now left.
  - intros p Hp. rewrite Hevs, Hp. right. apply in_or_app. right. now left.
  - intros X -> HX.
    set (r1 := upd_measurement_started false (upd_last_sample_time None r')).
    assert (Hu : uart_port r1 = Some X) by (subst r1; fields; exact F4).
    assert (Hp : ports_to_try (uart_port r1) (detected env) = [X])
      by (rewrite Hu; now apply ports_to_try_pinned).
    split; [exact Hp|split].
    + intros p Hin.
      destruct (connect_opens_candidates drv env r1) as [n Hn].
      rewrite Hp in Hn. rewrite Hn in Hin.
      destruct n as [|n]; [now cbn in Hin|].
      cbn [firstn] in Hin. rewrite firstn_nil in Hin.
      destruct Hin as [Hin|[]]. now symmetry.
    + intros Hdrv. unfold _connect. rewrite Hdrv, Hp.
      pose proof (try_ports_single drv env X None r1) as T.
      destruct (try_ports drv env [X] None r1) as [[ok r2] evs2]. cbn [snd] in *.
      split; [exact T|now eexists].
Qed.

(** From COM3, connected, to COM7. *)
Lemma set_port_then_connect_uses_new_port_witness :
  let r := reader Scenario.connected in
  let r1 := fst (set_port (Some "COM7"%string) r) in
  snd (set_port (Some "COM7"%string) r)
    = [EvDisconnect; EvStopMeasurement "COM3"; EvClosePort "COM3"]
  /\ _device r1 = None
  /\ opened (snd (_connect Scenario.legacy_drivers Scenario.env_absent r1))
     = ["COM7"%string].
Proof.
  intros r r1. split; [reflexivity|].
  destruct (set_port_then_connect_uses_new_port Scenario.legacy_drivers
              Scenario.env_absent r (Some "COM7"%string))
    as (_ & Hd & _ & _ & _ & _ & _ & _ & _ & Hx).
  split; [exact Hd|].
  destruct (Hx "COM7"%string eq_refl ltac:(discriminate)) as (_ & _ & Ho).
  exact (proj1 (Ho eq_refl)).
Defined.

(** C6 as stated fails for the empty name: it is not [None], but
    [if self.uart_port] reads it as false, so the next [_connect] scans
    the detected ports instead of [[""]]. *)
Lemma set_port_empty_name_counterexample :
  let r1 := fst (set_port (Some EmptyString) (reader Scenario.connected)) in
  uart_port r1 = Some EmptyString
  /\ ports_to_try (uart_port r1) (detected Scenario.env_absent) = ["COM3"%string]
  /\ ports_to_try (uart_port r1) (detected Scenario.env_absent) <> [EmptyString]
  /\ opened (snd (_connect Scenario.legacy_drivers Scenario.env_absent r1))
     = ["COM3"%string].
Proof. repeat split; try reflexivity. discriminate. Qed.

End TeardownClaims.

(** ** The loop thread *)

Module ThreadClaims.
Import SPS30Reader Observe.



Lemma stop_thread exited r : _thread (fst (stop exited r)) = None.
Proof.
  unfold stop. destruct (_thread (upd_stop_event true r)) as [t|] eqn:E.
  - pose proof (ReaderFacts.disconnect_fields (upd_thread None (upd_stop_event true r)))
      as (_ & _ & _ & _ & _ & _ & _ & _ & _ & _ & _ & F).
    destruct (_disconnect _) as [r' evs]. exact F.
  - pose proof (ReaderFacts.disconnect_fields (upd_stop_event true r))
      as (_ & _ & _ & _ & _ & _ & _ & _ & _ & _ & _ & F).
    destruct (_disconnect _) as [r' evs]. cbn [fst] in *. now rewrite F.
Qed.

Lemma call_one_loop c s : c <> DoStop false -> one_loop s -> one_loop (call c s).
Proof.
  intros Hc Inv. unfold one_loop in *. destruct c as [|exited|t]; cbn [call].
  - unfold start. destruct (_thread (sys_reader s)) as [t|] eqn:E; cbn.
    + now rewrite E.
    + left. now rewrite Inv.
  - destruct exited; [|now elim Hc].
    pose proof (stop_thread true (sys_reader s)) as T.
    destruct (stop true (sys_reader s)) as [r evs]. cbn [fst] in T.
    cbn [sys_reader loops]. rewrite T.
    destruct (_thread (sys_reader s)) as [t|].
    + destruct Inv as [-> | ->]; cbn; [|reflexivity].
      unfold remove_thread. cbn. now rewrite Nat.eqb_refl.
    + now rewrite Inv.
  - destruct (_stop_event (sys_reader s)); [|exact Inv].
    cbn [sys_reader loops]. destruct (_thread (sys_reader s)) as [u|].
    + destruct Inv as [-> | ->]; cbn; [|now right].
      destruct (Nat.eqb u t); cbn; auto.
    + now rewrite Inv.
Qed.

Lemma calls_one_loop cs : forall s,
  every_join_succeeds cs -> one_loop s -> one_loop (calls cs s).
Proof.
  induction cs as [|c cs IH]; intros s Hj Inv; cbn; trivial.
  inversion Hj; subst. apply IH; trivial. now apply call_one_loop.
Qed.

(** C10, as amended. While the reader holds a thread, [start] returns at
    once: the reader is unchanged (the stop flag is not cleared) and no
    thread is spawned; so a second [start] after any [start] does nothing.
    Whatever the sequence of [start] and [stop] calls, at most one thread
    is inside [_run] as long as every [stop] saw the loop thread end within
    the three seconds of its [join]. *)
Theorem start_idempotent_while_thread_held (tid : nat) (r : Reader) (t : nat) :
  _thread r = Some t ->
  start tid r = (r, [])
  /\ (forall r0 tid0 tid1,
        start tid1 (fst (start tid0 r0)) = (fst (start tid0 r0), []))
  /\ (forall cs uart_port period callback,
        every_join_succeeds cs ->
        (List.length (loops (calls cs (boot (init uart_port period callback)))) <= 1)%nat).
Proof.
  intros Ht. split; [|split].
  - unfold start. now rewrite Ht.
  - intros r0 tid0 tid1.
    assert (Hs : exists u, _thread (fst (start tid0 r0)) = Some u).
    { unfold start. destruct (_thread r0) as [u|] eqn:E; cbn [fst].
      - now exists u.
      - now exists tid0. }
    destruct Hs as [u Hu]. unfold start at 1. now rewrite Hu.
  - intros cs p s c Hj.
    assert (Inv : one_loop (boot (init p s c))) by reflexivity.
    pose proof (calls_one_loop cs _ Hj Inv) as H. unfold one_loop in H.
    destruct (_thread (sys_reader (calls cs (boot (init p s c))))) as [u|].
    + destruct H as [H|H]; rewrite H; cbn [List.length]; lia.
    + rewrite H. cbn [List.length]. lia.
Qed.

Lemma start_idempotent_while_thread_held_witness :
  let r := fst (start 0 (init None 5 true)) in
  _thread r = Some 0%nat /\ _stop_event (fst (stop false r)) = true
  /\ start 1 r = (r, []).
Proof.
  intros r. split; [reflexivity|split; [reflexivity|]].
  exact (proj1 (start_idempotent_while_thread_held 1 r 0 eq_refl)).
Defined.

(** C10 as stated fails in its last part. [stop] drops the thread handle
    even when its [join] timed out (the loop is in a long sleep or in a
    driver call); a [start] after that clears the stop flag and spawns a
    second thread, and the first one, finding the flag clear when it looks
    again, keeps running: two threads are inside [_run]. *)
Lemma restart_after_timed_out_join_counterexample :
  let s := calls [DoStart; DoStop false; DoStart] (boot (init None 5 true)) in
  loops s = [1%nat; 0%nat]
  /\ _stop_event (sys_reader s) = false
  /\ call (LoopReturns 0) s = s
  /\ ~ (List.length (loops s) <= 1)%nat.
Proof.
  intros s.
  assert (E : s = mkSystem (sys_reader s) [1%nat; 0%nat] 2) by (vm_compute; reflexivity).
  assert (F : _stop_event (sys_reader s) = false) by (vm_compute; reflexivity).
  split; [now rewrite E|split; [exact F|split]].
  - cbn [call]. rewrite F. reflexivity.
  - rewrite E. cbn [loops List.length]. lia.
Qed.

End ThreadClaims.

(** * Part III: further properties of the code *)

(** ** The data store, beyond the window *)

Module DataStoreMore.
Import DataStore DataStoreFacts DataStoreObs.

(** Trimming twice, the second time at a later cutoff, is trimming once at
    the later cutoff, also when more samples were appended in between. *)
Lemma popleft_while_twice c1 c2 l more :
  c1 <= c2 ->
  popleft_while c2 (popleft_while c1 l ++ more) = popleft_while c2 (l ++ more).
Proof.
  intros Hc. induction l as [|s0 rest IH]; simpl; trivial.
  destruct (ts s0 <? c1) eqn:E1.
  - apply Z.ltb_lt in E1.
    replace (ts s0 <? c2) with true by (symmetry; apply Z.ltb_lt; lia).
    exact IH.
  - reflexivity.
Qed.

Lemma add_all_single_trim calls : forall store c0,
  StronglySorted Z.le (c0 + seven_days :: map fst calls) ->
  add_all calls (popleft_while c0 store)
  = popleft_while (final_cutoff calls c0) (store ++ map snd calls).
Proof.
  induction calls as [|[n s] calls IH]; intros store c0 Hm.
  - cbn. now rewrite app_nil_r.
  - inversion Hm as [|? ? Hm' Hall]; subst.
    inversion Hall as [|? ? Hn _]; subst. cbn [fst] in Hn.
    change (add_all ((n, s) :: calls) (popleft_while c0 store))
      with (add_all calls (add n s (popleft_while c0 store))).
    unfold add. rewrite popleft_while_twice by lia.
    change (final_cutoff ((n, s) :: calls) c0)
      with (final_cutoff calls (n - seven_days)).
    rewrite IH.
    + cbn [map snd]. now rewrite <- app_assoc.
    + cbn [map fst] in Hm'. inversion Hm' as [|? ? Hs Hf]; subst.
      constructor; trivial.
      eapply Forall_impl; [|exact Hf]. cbn beta. intros; lia.
Qed.

(** With a clock that never goes back, trimming lazily at every insert
    leaves the same buffer as one trim, at the time of the last [add], of
    everything that was inserted; no order of the timestamps is assumed. *)
Theorem lazy_trim_is_one_trim (calls : list (Z * Sample)) (now : Z) :
  clock_monotone calls ->
  last_add_time calls = Some now ->
  add_all calls empty = popleft_while (now - seven_days) (map snd calls).
Proof.
  intros Hm Hlast. destruct calls as [|[n s] calls]; [discriminate|].
  assert (Hc : final_cutoff ((n, s) :: calls) (n - seven_days) = now - seven_days).
  { destruct (DataStoreClaims.last_add_time_snoc _ _ Hlast) as (calls' & s' & E).
    rewrite E. unfold final_cutoff. now rewrite fold_left_app. }
  rewrite <- Hc.
  change empty with (popleft_while (n - seven_days) []).
  rewrite add_all_single_trim; [reflexivity|].
  unfold clock_monotone in Hm. cbn [map fst] in Hm |- *.
  inversion Hm; subst. constructor; [assumption|].
  constructor; [lia|]. eapply Forall_impl; [|eassumption]. cbn beta. intros; lia.
Qed.

Lemma lazy_trim_is_one_trim_witness :
  let day := 86400 * 1000000 in
  let t := 1700000000 * 1000000 in
  let calls :=
    [ (t, mkSample (t - 3600000000) 1 2 3 4);
      (t + 5000000, mkSample (t - 9 * day) 1 2 3 4);
      (t + 8 * day, mkSample (t + 8 * day) 1 2 3 4) ] in
  add_all calls empty
  = popleft_while (t + 8 * day - seven_days) (map snd calls).
Proof.
  intros day t calls.
  apply (lazy_trim_is_one_trim calls (t + 8 * day)); [|reflexivity].
  unfold clock_monotone, calls, t, day. cbn [map fst].
  repeat first [apply SSorted_cons | apply SSorted_nil
               | apply Forall_cons | apply Forall_nil]; lia.
Defined.

(** A sample that is not older than seven days when it is added is kept,
    as the newest element of the buffer, whatever the buffer held. *)
Theorem add_keeps_recent_sample (now : Z) (s : Sample) (store : list Sample) :
  now - seven_days <= ts s ->
  exists older, add now s store = older ++ [s].
Proof.
  intros Hs. unfold add. induction store as [|s0 rest IH]; cbn [app popleft_while].
  - replace (ts s <? now - seven_days) with false
      by (symmetry; apply Z.ltb_ge; lia).
    now exists [].
  - destruct (ts s0 <? now - seven_days).
    + exact IH.
    + now exists (s0 :: rest).
Qed.

Lemma add_keeps_recent_sample_witness :
  let t := 1700000000 * 1000000 in
  exists older,
    add t (mkSample (t - 1000000) 1 2 3 4) [mkSample (t - 9 * 86400 * 1000000) 1 2 3 4]
    = older ++ [mkSample (t - 1000000) 1 2 3 4].
Proof.
  intros t. apply add_keeps_recent_sample. unfold seven_days, t. cbn [ts]. lia.
Defined.

(** A sample older than seven days added to a buffer that holds nothing
    recent empties the buffer: the new sample is dropped as well. *)
Theorem add_stale_sample_to_stale_buffer (now : Z) (s : Sample) (store : list Sample) :
  ts s < now - seven_days ->
  Forall (fun x => ts x < now - seven_days) store ->
  add now s store = [].
Proof.
  intros Hs Hall. unfold add. induction store as [|s0 rest IH]; cbn [app popleft_while].
  - now replace (ts s <? now - seven_days) with true by (symmetry; apply Z.ltb_lt; lia).
  - inversion Hall; subst.
    replace (ts s0 <? now - seven_days) with true by (symmetry; apply Z.ltb_lt; lia).
    now apply IH.
Qed.

Lemma add_stale_sample_to_stale_buffer_witness :
  let t := 1700000000 * 1000000 in
  add t (mkSample (t - 8 * 86400 * 1000000) 1 2 3 4) [] = [].
Proof.
  intros t. apply add_stale_sample_to_stale_buffer; [|constructor].
  unfold seven_days, t. cbn [ts]. lia.
Defined.

(** Right after an [add], with timestamps in insertion order, the window
    of the last seven days read at the same instant is the whole buffer. *)
Theorem seven_day_window_is_everything (calls : list (Z * Sample)) (now : Z) :
  StronglySorted Z.le (map (fun c => ts (snd c)) calls) ->
  last_add_time calls = Some now ->
  get_window now (Some seven_days) (add_all calls empty)
  = get_window now None (add_all calls empty).
Proof.
  intros Hs Hlast. cbn [get_window].
  destruct (DataStoreClaims.last_add_time_snoc _ _ Hlast) as (calls' & s & ->).
  assert (Hall : Forall (fun x => now - seven_days <= ts x)
                   (add_all (calls' ++ [(now, s)]) empty)).
  { apply sorted_head_bounds; [now apply DataStoreClaims.add_all_sorted|].
    rewrite add_all_snoc. unfold add. apply popleft_while_head. }
  induction Hall as [|x l Hx Hl IH]; cbn [filter]; trivial.
  replace (ts x >=? now - seven_days) with true by (symmetry; apply Z.geb_le; lia).
  now rewrite IH.
Qed.

Lemma seven_day_window_is_everything_witness :
  let t := 1700000000 * 1000000 in
  let calls := [ (t, mkSample t 1 2 3 4); (t + 5000000, mkSample (t + 5000000) 1 2 3 4) ] in
  get_window (t + 5000000) (Some seven_days) (add_all calls empty)
  = get_window (t + 5000000) None (add_all calls empty).
Proof.
  intros t calls. apply seven_day_window_is_everything; [|reflexivity].
  unfold calls, t. cbn [map snd ts].
  repeat first [apply SSorted_cons | apply SSorted_nil
               | apply Forall_cons | apply Forall_nil]; lia.
Defined.

End DataStoreMore.

(** ** NaN in the aggregates *)

Module StatsMore.
Import Stats StatsObs FloatFacts.

Lemma filter_filter {A} (p : A -> bool) l : filter p (filter p l) = filter p l.
Proof.
  induction l as [|a l IH]; simpl; trivial.
  destruct (p a) eqn:E; simpl; rewrite ?E, IH; reflexivity.
Qed.

Lemma numbers_of_numbers l :
  Forall (fun v => is_number v = true) l -> numbers l = l.
Proof.
  unfold numbers. induction 1 as [|v l Hv _ IH]; cbn [filter]; trivial.
  now rewrite Hv, IH.
Qed.

(** [_avg] is the mean of the values that are numbers, [sum / len] over
    them alone: of a list of numbers it is the mean of the list; NaN
    values, however many and wherever they stand, change nothing, neither
    the sum nor the count; and with no number at all (an empty list
    included) the result is NaN. *)
Theorem avg_ignores_nan (values : list float) :
  _avg values = mean_of_numbers values
  /\ (numbers values = [] -> _avg values = nan)
  /\ (values <> [] -> Forall (fun v => is_number v = true) values ->
      _avg values = mean values)
  /\ _avg values = _avg (filter (fun v => PrimFloat.eqb v v) values)
  /\ (forall before after, _avg (before ++ nan :: after) = _avg (before ++ after))
  /\ (forall n, _avg (repeat nan n) = nan)
  /\ _avg [1; nan; 3]%float = 2%float
  /\ _avg [nan; 4; nan]%float = 4%float
  /\ _avg [0.5; 1.5; nan; 2.5; 3.5]%float = 2%float.
Proof.
  assert (M : forall l, _avg l = mean_of_numbers l).
  { intros l. unfold _avg, mean_of_numbers, numbers, mean.
    rewrite (filter_ext is_number (fun v => PrimFloat.eqb v v) is_number_eqb).
    now destruct (filter _ l). }
  split; [apply M|]. split; [|split; [|split; [|split; [|split]]]].
  - intros H. rewrite M. unfold mean_of_numbers. now rewrite H.
  - intros Hne Hall. rewrite M. unfold mean_of_numbers.
    rewrite (numbers_of_numbers values Hall). now destruct values.
  - unfold _avg. now rewrite filter_filter.
  - intros. unfold _avg. now rewrite !filter_app.
  - intros n. unfold _avg.
    replace (filter (fun v => PrimFloat.eqb v v) (repeat nan n)) with (@nil float);
      trivial.
    induction n as [|n IH]; trivial.
  - repeat split; reflexivity.
Qed.

(** The maximum shown by [_format_stats] is Python's [max] of the column.
    When the first value is a number, it is the greatest number of the
    column, NaN values further on being passed over, and the cell shows
    it; when the first value is NaN the maximum is NaN and the cell shows
    a dash, whatever the other values are. *)
Theorem max_with_nan (format_4f : float -> string) (x : float)
  (before after : list float) :
  Py.max_list (nan :: after) = Some nan
  /\ fmt_max format_4f (nan :: after) = "-"%string
  /\ Py.max_list (x :: before ++ nan :: after) = Py.max_list (x :: before ++ after)
  /\ (is_number x = true ->
      exists m, Py.max_list (x :: before ++ nan :: after) = Some m
                /\ greatest_number m (x :: before ++ after)
                /\ fmt_max format_4f (x :: before ++ nan :: after) = format_4f m)
  /\ (forall s rest,
        let samples := s :: rest in
        snd (_format_stats format_4f samples)
        = row "Max: " (fmt_max format_4f (map pm1 samples))
            (fmt_max format_4f (map pm25 samples))
            (fmt_max format_4f (map pm4 samples))
            (fmt_max format_4f (map pm10 samples))).
Proof.
  assert (Skip : Py.max_list (x :: before ++ nan :: after)
                 = Py.max_list (x :: before ++ after)).
  { cbn [Py.max_list]. now rewrite fold_max_skips_nan. }
  split; [|split; [|split; [|split]]].
  - cbn [Py.max_list]. now rewrite fold_max_nan.
  - unfold fmt_max. cbn [Py.max_list]. now rewrite fold_max_nan.
  - exact Skip.
  - intros Hx. pose proof (max_list_first x (before ++ after)) as M.
    rewrite Hx in M. destruct M as (m & Hm & G). exists m.
    split; [now rewrite Skip|]. split; [exact G|].
    unfold fmt_max. rewrite Skip, Hm. unfold fmt.
    destruct G as (_ & N & _). rewrite is_number_eqb in N. now rewrite N.
  - intros s rest samples. unfold _format_stats.
    destruct (rev samples) as [|last r] eqn:E; [|reflexivity].
    apply (f_equal (@List.length _)) in E. rewrite length_rev in E. discriminate.
Qed.

(** The sample period kept by [__init__] is at least 0.5 s whatever was
    asked for (a NaN included). *)
Theorem sample_period_at_least_half_second (uart_port : option string)
  (period : float) (callback : bool) :
  PrimFloat.leb 0.5%float
    (SPS30Reader.sample_period_s (SPS30Reader.init uart_port period callback))
  = true.
Proof.
  cbn [SPS30Reader.init SPS30Reader.sample_period_s]. unfold Py.max.
  destruct (PrimFloat.ltb 0.5%float period) eqn:E.
  - now apply ltb_leb.
  - reflexivity.
Qed.

End StatsMore.

(** ** The other read shapes *)

Module NormalizeMore.
Import Py Normalize NormalizeObs StatsObs FloatFacts NormalizeFacts.

Lemma len_cons_ge (k : Z) (items : list value) (n : nat) :
  k <= Z.of_nat n -> n = List.length items -> (len items >=? k) = true.
Proof. intros H ->. unfold len. now apply Z.geb_le. Qed.

(** A nested reading is recognised when the outer sequence has one, two
    or three items; with four or more the outer items are taken as the
    four values themselves, and the inner sequence, which [float()]
    refuses, gives NaN for the first field. *)
Theorem nested_shape_by_outer_length (t1 t2 : bool) (a b c d x y z : value)
  (inner_rest rest : list value) :
  let inner := sequence t2 (a :: b :: c :: d :: inner_rest) in
  let four := (_to_float a, _to_float b, _to_float c, _to_float d) in
  extract_legacy (sequence t1 [inner]) = four
  /\ extract_legacy (sequence t1 [inner; x]) = four
  /\ extract_legacy (sequence t1 [inner; x; y]) = four
  /\ extract_legacy (sequence t1 (inner :: x :: y :: z :: rest))
     = (nan, _to_float x, _to_float y, _to_float z).
Proof.
  cbv zeta.
  assert (L : (len (a :: b :: c :: d :: inner_rest) >=? 4) = true)
    by apply NormalizeFacts.len_ge_4.
  assert (O : (len (sequence t2 (a :: b :: c :: d :: inner_rest) :: x :: y :: z :: rest)
               >=? 4) = true) by apply NormalizeFacts.len_ge_4.
  assert (E : (len (sequence t2 (a :: b :: c :: d :: inner_rest) :: x :: y :: z :: rest)
               =? 3) = false) by apply NormalizeFacts.len_eq_3.
  destruct t1, t2; unfold sequence in *; repeat split;
    unfold extract_legacy; cbn [hasattr orb as_sequence];
    try (rewrite O, E; reflexivity);
    match goal with
    | |- context [len ?l >=? 4] =>
        match l with
        | [_] => change (len l) with 1
        | [_; _] => change (len l) with 2
        | [_; _; _] => change (len l) with 3
        end
    end;
    cbn [Z.geb Z.eqb Z.compare Pos.compare Pos.compare_cont Pos.eqb andb negb
         at_ nth as_sequence is_sequence];
    rewrite L; reflexivity.
Qed.

(** Readings by name: an object is read by its attributes when it has
    [pm1p0] or [pm2p5], a dict always by its keys, and a name that is
    missing gives NaN; an object with neither of the two attributes gives
    four NaN, whatever else it carries. *)
Theorem named_shapes (attrs entries : list (string * value))
  (as_float : option PrimFloat.float) :
  extract_legacy (VDict entries)
  = (by_name entries "pm1p0", by_name entries "pm2p5",
     by_name entries "pm4p0", by_name entries "pm10p0")
  /\ extract_legacy (VObject attrs as_float)
     = match assoc "pm1p0" attrs, assoc "pm2p5" attrs with
       | None, None => (nan, nan, nan, nan)
       | _, _ => (by_name attrs "pm1p0", by_name attrs "pm2p5",
                  by_name attrs "pm4p0", by_name attrs "pm10p0")
       end.
Proof.
  split.
  - unfold extract_legacy, by_name, dict_get. cbn [hasattr orb].
    destruct (assoc "pm1p0" entries), (assoc "pm2p5" entries),
      (assoc "pm4p0" entries), (assoc "pm10p0" entries); reflexivity.
  - unfold extract_legacy, by_name. cbn [hasattr getattr].
    destruct (assoc "pm1p0" attrs), (assoc "pm2p5" attrs),
      (assoc "pm4p0" attrs), (assoc "pm10p0" attrs); reflexivity.
Qed.

(** What is no object with the attributes, no dict and no sequence of a
    known shape gives four NaN: [None], a number, a sequence shorter than
    four items whose first item is not itself a sequence. *)
Theorem unknown_shapes_give_nan (t : bool) (n : Z) (x : PrimFloat.float) (b : bool) :
  extract_legacy VNone = (nan, nan, nan, nan)
  /\ extract_legacy (VInt n) = (nan, nan, nan, nan)
  /\ extract_legacy (VFloat x) = (nan, nan, nan, nan)
  /\ extract_legacy (VBool b) = (nan, nan, nan, nan)
  /\ extract_legacy (sequence t []) = (nan, nan, nan, nan)
  /\ (forall u v w, extract_legacy (sequence t [VFloat u; VFloat v; VFloat w])
                    = (nan, nan, nan, nan)).
Proof. destruct t; repeat split; reflexivity. Qed.

Lemma max_is_an_argument a b : Py.max a b = a \/ Py.max a b = b.
Proof. unfold Py.max. destruct (PrimFloat.ltb a b); auto. Qed.

Lemma not_above_max a b :
  PrimFloat.ltb 1000%float a = false -> PrimFloat.ltb 1000%float b = false ->
  PrimFloat.ltb 1000%float (Py.max a b) = false.
Proof. intros Ha Hb. now destruct (max_is_an_argument a b) as [-> | ->]. Qed.

Lemma above_1000_max (n m : Z) :
  (1000 <? Z.max n m) = ((1000 <? n) || (1000 <? m))%bool.
Proof.
  destruct (1000 <? n) eqn:A, (1000 <? m) eqn:B; cbn [orb];
    rewrite ?Z.ltb_lt, ?Z.ltb_ge in *; lia.
Qed.

(** The modern path reads [float(values[i])] for the first four items of
    what the driver returned. When one of the four cannot be read ([values]
    is no sequence, the item is missing, or it is no number) the read gives
    nothing, and only then. Otherwise it gives the four numbers: as they
    are when none is above 1000, and all four divided by 100000 when one
    is, never a mixture. For the unsigned 16-bit integers the driver
    returns, each value is the binary64 number of the integer, and the
    scaling is decided by the greatest of the four integers. (With NaN
    among the four, [max] decides: a NaN in first place hides a later
    value above 1000.) *)
Theorem uart_values (values : value) :
  (forall i, (i < 4)%nat -> item_number values i = None -> extract_uart values = None)
  /\ (extract_uart values <> None ->
      exists a b c d,
        item_number values 0 = Some a /\ item_number values 1 = Some b
        /\ item_number values 2 = Some c /\ item_number values 3 = Some d)
  /\ (forall a b c d,
        item_number values 0 = Some a -> item_number values 1 = Some b ->
        item_number values 2 = Some c -> item_number values 3 = Some d ->
        (extract_uart values = Some (a, b, c, d)
         \/ extract_uart values = Some (downscaled a b c d))
        /\ (none_above_1000 a b c d = true -> extract_uart values = Some (a, b, c, d))
        /\ (is_number a = true -> is_number b = true -> is_number c = true ->
            is_number d = true ->
            extract_uart values
            = Some (if none_above_1000 a b c d then (a, b, c, d)
                    else downscaled a b c d)))
  /\ (forall t n0 n1 n2 n3 rest,
        uint16 n0 -> uint16 n1 -> uint16 n2 -> uint16 n3 ->
        values = sequence t (VInt n0 :: VInt n1 :: VInt n2 :: VInt n3 :: rest) ->
        extract_uart values
        = Some (if 1000 <? Z.max (Z.max n0 n1) (Z.max n2 n3)
                then downscaled (int_float n0) (int_float n1) (int_float n2) (int_float n3)
                else (int_float n0, int_float n1, int_float n2, int_float n3)))
  /\ (forall t,
        extract_uart (sequence t [VFloat nan; VFloat 2000; VFloat 1; VFloat 1])
        = Some (nan, 2000, 1, 1)%float
        /\ extract_uart (sequence t [VFloat 2000; VFloat nan; VFloat 1; VFloat 1])
           = Some (downscaled 2000 nan 1 1)).
Proof.
  assert (Items : forall a b c d,
            item_number values 0 = Some a -> item_number values 1 = Some b ->
            item_number values 2 = Some c -> item_number values 3 = Some d ->
            extract_uart values
            = if PrimFloat.ltb 1000%float (fold_left Py.max [b; c; d] a)
              then Some (downscaled a b c d) else Some (a, b, c, d)).
  { intros a b c d H0 H1 H2 H3. rewrite extract_uart_items. now rewrite H0, H1, H2, H3. }
  split; [intros i; apply extract_uart_fails|].
  split.
  { rewrite extract_uart_items.
    destruct (item_number values 0) as [a|]; [|now intros H].
    destruct (item_number values 1) as [b|]; [|now intros H].
    destruct (item_number values 2) as [c|]; [|now intros H].
    destruct (item_number values 3) as [d|]; [|now intros H].
    intros _. now exists a, b, c, d. }
  split.
  { intros a b c d H0 H1 H2 H3. rewrite (Items a b c d H0 H1 H2 H3).
    split; [destruct (PrimFloat.ltb _ _); auto|]. split.
    - intros H. unfold none_above_1000 in H.
      apply andb_prop in H as [H Hd]. apply andb_prop in H as [H Hc].
      apply andb_prop in H as [Ha Hb]. apply negb_true_iff in Ha, Hb, Hc, Hd.
      cbn [fold_left].
      assert (M : PrimFloat.ltb 1000%float (Py.max (Py.max (Py.max a b) c) d) = false)
        by (repeat apply not_above_max; assumption).
      now rewrite M.
    - intros Na Nb Nc Nd. rewrite (above_max4 a b c d Na Nb Nc Nd).
      now destruct (none_above_1000 a b c d). }
  split.
  { intros t n0 n1 n2 n3 rest U0 U1 U2 U3 ->.
    destruct (float_of_uint16 n0 U0) as (F0 & N0 & A0).
    destruct (float_of_uint16 n1 U1) as (F1 & N1 & A1).
    destruct (float_of_uint16 n2 U2) as (F2 & N2 & A2).
    destruct (float_of_uint16 n3 U3) as (F3 & N3 & A3).
    assert (I : forall k v, nth_error [VInt n0; VInt n1; VInt n2; VInt n3] k = Some v ->
                item_number (sequence t (VInt n0 :: VInt n1 :: VInt n2 :: VInt n3 :: rest)) k
                = Py.float v).
    { intros k v Hk. unfold item_number, subscript, item.
      replace (as_sequence (sequence t (VInt n0 :: VInt n1 :: VInt n2 :: VInt n3 :: rest)))
        with (Some (VInt n0 :: VInt n1 :: VInt n2 :: VInt n3 :: rest))
        by now destruct t.
      destruct k as [|[|[|[|k]]]]; cbn in Hk |- *; try now inversion Hk.
      now destruct k. }
    rewrite extract_uart_items.
    rewrite (I 0%nat _ eq_refl), (I 1%nat _ eq_refl), (I 2%nat _ eq_refl),
      (I 3%nat _ eq_refl), F0, F1, F2, F3.
    rewrite (above_max4 _ _ _ _ N0 N1 N2 N3). unfold none_above_1000.
    rewrite A0, A1, A2, A3, !above_1000_max.
    now destruct (1000 <? n0), (1000 <? n1), (1000 <? n2), (1000 <? n3). }
  intros t. now destruct t.
Qed.

(** Readings of 12, 15, 17 and 18 are kept; fixed-point readings of 5000
    to 8000 are all divided by 100000. *)
Lemma uart_values_witness :
  extract_uart (sequence true [VInt 12; VInt 15; VInt 17; VInt 18])
  = Some (12, 15, 17, 18)%float
  /\ extract_uart (sequence true [VInt 5000; VInt 6000; VInt 7000; VInt 8000])
     = Some (downscaled 5000 6000 7000 8000).
Proof.
  split.
  - exact (proj1 (proj2 (proj2 (proj2
             (uart_values (sequence true [VInt 12; VInt 15; VInt 17; VInt 18])))))
             true 12 15 17 18 [] ltac:(unfold uint16; lia) ltac:(unfold uint16; lia)
             ltac:(unfold uint16; lia) ltac:(unfold uint16; lia) eq_refl).
  - exact (proj1 (proj2 (proj2 (proj2
             (uart_values (sequence true [VInt 5000; VInt 6000; VInt 7000; VInt 8000])))))
             true 5000 6000 7000 8000 [] ltac:(unfold uint16; lia)
             ltac:(unfold uint16; lia) ltac:(unfold uint16; lia)
             ltac:(unfold uint16; lia) eq_refl).
Defined.

End NormalizeMore.

(** ** More on the reader *)

Module ReaderMore.
Import SPS30Reader Observe ObserveMore ReaderFacts ConnectFacts ReaderMoreFacts.

(** [_ensure_started] sets the flag exactly when a start command
    returned, sends at most two commands (the one with the output format
    first, when [OutputFormat] was imported), and sends none when the flag
    is already set or no device is open. *)
Theorem ensure_started_sets_flag_on_success drv (o o' : StartOutcome) (r : Reader) :
  let r' := fst (_ensure_started drv o r) in
  let evs := snd (_ensure_started drv o r) in
  _measurement_started r' = (_measurement_started r || started_ok evs)%bool
  /\ (starts evs <= 2)%nat
  /\ (OutputFormat drv = false -> ~ In (EvStartMeasurement true true) evs
                                  /\ ~ In (EvStartMeasurement true false) evs)
  /\ _ensure_started drv o' (upd_measurement_started true r)
     = (upd_measurement_started true r, [])
  /\ _ensure_started drv o (upd_device None r) = (upd_device None r, []).
Proof.
  cbv zeta. split; [|split; [|split; [|split]]].
  - unfold _ensure_started.
    destruct (_device r) as [dev|]; [|cbn; now rewrite orb_false_r].
    destruct (_measurement_started r) eqn:E; [cbn; now rewrite E|].
    destruct (has_start_measurement dev); [|cbn; now rewrite E].
    destruct (OutputFormat drv), (with_format_ok o), (plain_ok o); cbn; now rewrite ?E.
  - unfold _ensure_started. destruct (_device r) as [dev|]; [|cbn; lia].
    destruct (_measurement_started r); [cbn; lia|].
    destruct (has_start_measurement dev); [|cbn; lia].
    destruct (OutputFormat drv), (with_format_ok o), (plain_ok o); cbn; lia.
  - intros Hf. unfold _ensure_started. rewrite Hf.
    destruct (_device r) as [dev|]; [|now cbn].
    destruct (_measurement_started r); [now cbn|].
    destruct (has_start_measurement dev); [|now cbn].
    destruct (plain_ok o); cbn; split; intros [H|[]]; discriminate.
  - unfold _ensure_started. fields. now destruct (_device r).
  - reflexivity.
Qed.

Lemma ensure_started_sets_flag_on_success_witness :
  let r := upd_measurement_started false (reader Scenario.connected) in
  snd (_ensure_started Scenario.legacy_drivers (mkStart true false) r)
    = [EvStartMeasurement false false]
  /\ _measurement_started (fst (_ensure_started Scenario.legacy_drivers
                                  (mkStart true false) r)) = false
  /\ ~ In (EvStartMeasurement true true)
         (snd (_ensure_started Scenario.legacy_drivers (mkStart true false) r)).
Proof.
  intros r. split; [reflexivity|]. split; [reflexivity|].
  destruct (ensure_started_sets_flag_on_success Scenario.legacy_drivers
              (mkStart true false) (mkStart true true) r) as (_ & _ & H & _).
  exact (proj1 (H eq_refl)).
Defined.

(** [is_connected] is true exactly when a device is held and the last
    sample is less than 20 s old; so it is false after every teardown
    ([_disconnect], [set_port], [stop]) and on a fresh reader, at any time. *)
Theorem is_connected_recent_sample_only (now : Z) (r : Reader) :
  (is_connected now r = true <->
   exists dev t, _device r = Some dev /\ _last_sample_time r = Some t
                 /\ now - t < 20 * 1000000)
  /\ is_connected now (fst (_disconnect r)) = false
  /\ (forall p, is_connected now (fst (set_port p r)) = false)
  /\ (forall exited, is_connected now (fst (stop exited r)) = false)
  /\ (forall p period cb, is_connected now (init p period cb) = false).
Proof.
  assert (D : forall x, is_connected now (fst (_disconnect x)) = false).
  { intros x. unfold is_connected.
    destruct (disconnect_fields x) as (F & _). cbv zeta in F. now rewrite F. }
  split; [|split; [apply D|split; [|split]]].
  - unfold is_connected, twenty_seconds. split.
    + destruct (_device r) as [dev|]; [|discriminate].
      destruct (_last_sample_time r) as [t|]; [|discriminate].
      intros H. apply Z.ltb_lt in H. now exists dev, t.
    + intros (dev & t & -> & -> & H). now apply Z.ltb_lt.
  - intros p. unfold set_port.
    pose proof (disconnect_fields (upd_uart_port p r)) as (F & _). cbv zeta in F.
    destruct (_disconnect _) as [r' evs]. cbn [fst] in *.
    unfold is_connected. fields. now rewrite F.
  - intros exited. unfold stop.
    destruct (_thread (upd_stop_event true r)).
    + pose proof (D (upd_thread None (upd_stop_event true r))) as H.
      destruct (_disconnect _) as [r' evs]. exact H.
    + pose proof (D (upd_stop_event true r)) as H.
      destruct (_disconnect _) as [r' evs]. exact H.
  - reflexivity.
Qed.

(** [stop] is idempotent, and once it has run the loop does no further
    iteration: the second [stop] changes nothing and only enters
    [_disconnect], and [_run] returns before touching any environment. *)
Theorem stop_is_idempotent_and_halts drv (e1 e2 : bool) (r : Reader)
  (envs : list Env) (backoff : float) :
  let r1 := fst (stop e1 r) in
  stop e2 r1 = (r1, [EvDisconnect])
  /\ _stop_event r1 = true /\ _thread r1 = None /\ _device r1 = None
  /\ _port r1 = None
  /\ _run drv envs (mkLoop r1 backoff) = (mkLoop r1 backoff, []).
Proof.
  cbv zeta.
  assert (S : exists x, stop e1 r = (fst (_disconnect x), snd (stop e1 r))
                        /\ _stop_event x = true /\ _thread x = None).
  { unfold stop. destruct (_thread (upd_stop_event true r)) as [t|] eqn:E.
    - exists (upd_thread None (upd_stop_event true r)).
      destruct (_disconnect _) as [r' evs]. now repeat split.
    - exists (upd_stop_event true r).
      destruct (_disconnect _) as [r' evs]. now repeat split. }
  destruct S as (x & Hx & Hs & Ht). rewrite Hx. cbn [fst].
  destruct (disconnect_fields x)
    as (F1 & F2 & F3 & _ & _ & _ & _ & _ & _ & _ & F4 & F5).
  cbv zeta in *. rewrite Hs in F4. rewrite Ht in F5.
  split; [|split; [exact F4|split; [exact F5|split; [exact F1|split; [exact F3|]]]]].
  - assert (U : upd_stop_event true (fst (_disconnect x)) = fst (_disconnect x)).
    { revert F4. generalize (fst (_disconnect x)). intros [] H. cbn in H. now subst. }
    unfold stop. rewrite U, F5, disconnect_idempotent. reflexivity.
  - destruct envs as [|env rest]; cbn [_run reader]; trivial. now rewrite F4.
Qed.

(** [pause] then [resume] is a round trip on a reader that was not paused
    and has nothing to start (no device, or the measurement already
    started): the reader is as before and the device is sent nothing. *)
Theorem pause_resume_round_trip drv (o : StartOutcome) (r : Reader) :
  _paused r = false ->
  _device r = None \/ _measurement_started r = true ->
  resume drv o (pause r) = (r, []) /\ is_paused (pause r) = true.
Proof.
  intros Hp Hs. split; [|reflexivity].
  unfold resume, pause.
  assert (E : upd_paused false (upd_paused true r) = r).
  { destruct r. cbn in Hp. now subst. }
  rewrite E. unfold _ensure_started.
  destruct Hs as [-> | Hm]; trivial.
  destruct (_device r); trivial. now rewrite Hm.
Qed.

Lemma pause_resume_round_trip_witness :
  resume Scenario.legacy_drivers Scenario.start_ok (pause (reader Scenario.connected))
  = (reader Scenario.connected, []).
Proof.
  exact (proj1 (pause_resume_round_trip Scenario.legacy_drivers Scenario.start_ok
                  (reader Scenario.connected) eq_refl (or_intror eq_refl))).
Defined.

End ReaderMore.

(** ** The scan over the candidate ports *)

Module ConnectMore.
Import SPS30Reader Observe ObserveMore ReaderFacts ConnectFacts ReaderMoreFacts.

Lemma failing_port_gives_inr drv env q pv r :
  port_fails env q = true ->
  exists pv' evs, try_port drv env q pv r = (inr pv', evs)
                  /\ opened evs = [q]
                  /\ (probe env q = AdapterFails -> In q (closed evs)).
Proof.
  intros Hf. destruct (try_port_trace drv env q pv r) as (_ & _ & _ & To).
  destruct (try_port drv env q pv r) as [[r1|pv'] evs] eqn:E; cbn [snd] in To.
  - apply try_port_success in E as ((dev & start & Hp & _) & _).
    unfold port_fails in Hf. now rewrite Hp in Hf.
  - exists pv', evs. split; [reflexivity|]. split; [exact To|].
    intros Ha. revert E. unfold try_port. rewrite Ha. intros E. inversion E.
    cbn. auto.
Qed.

Lemma answering_port_gives_inl drv env p pv r dev start :
  (ShdlcChannel drv && Sps30UartDevice drv)%bool = true \/ Sps30ShdlcDevice drv = true ->
  probe env p = Opened dev start ->
  exists r' evs, try_port drv env p pv r = (inl r', evs)
                 /\ opened evs = [p] /\ closed evs = []
                 /\ _device r' = Some dev /\ _port r' = Some p
                 /\ _warmup_deadline r' = PrimFloat.add (clock_connect env) 5%float.
Proof.
  intros Hu Hp. destruct (try_port_trace drv env p pv r) as (_ & _ & _ & To).
  destruct (try_port drv env p pv r) as [[r1|pv'] evs] eqn:E; cbn [snd] in To.
  - exists r1, evs.
    apply try_port_success in E as ((dev' & start' & Hp' & Hd) & Hport & _ & Hw & _ & _ & Hc).
    rewrite Hp in Hp'. inversion Hp'; subst. now repeat split.
  - apply try_port_failure in E as [Hf|[H1 H2]].
    + unfold port_fails in Hf. now rewrite Hp in Hf.
    + destruct Hu as [Hu|Hu]; congruence.
Qed.

Lemma try_ports_scan drv env failing : forall pv r p rest dev start,
  (ShdlcChannel drv && Sps30UartDevice drv)%bool = true \/ Sps30ShdlcDevice drv = true ->
  forallb (port_fails env) failing = true ->
  probe env p = Opened dev start ->
  let res := try_ports drv env (failing ++ p :: rest) pv r in
  fst (fst res) = true /\ opened (snd res) = failing ++ [p]
  /\ _device (snd (fst res)) = Some dev /\ _port (snd (fst res)) = Some p
  /\ _warmup_deadline (snd (fst res)) = PrimFloat.add (clock_connect env) 5%float
  /\ (forall q, In q failing -> probe env q = AdapterFails -> In q (closed (snd res))).
Proof.
  induction failing as [|q failing IH]; intros pv r p rest dev start Hu Hf Hp;
    cbn [app try_ports].
  - destruct (answering_port_gives_inl drv env p pv r dev start Hu Hp)
      as (r' & evs & -> & Ho & _ & Hd & Hport & Hw).
    cbn [fst snd]. repeat split; trivial. intros q [].
  - cbn [forallb] in Hf. apply andb_prop in Hf as [Hq Hf].
    destruct (failing_port_gives_inr drv env q pv r Hq) as (pv' & evs & -> & Ho & Hc).
    specialize (IH pv' (upd_device None (upd_conn None (upd_port None r)))
                  p rest dev start Hu Hf Hp). cbv zeta in IH.
    destruct (try_ports drv env (failing ++ p :: rest) pv' _) as [[ok r2] evs2].
    cbn [fst snd] in *. destruct IH as (I1 & I2 & I3 & I4 & I5 & I6).
    rewrite opened_app, closed_app, Ho, I2. repeat split; trivial.
    intros x [->|Hin] Hx; apply in_or_app; [left; auto|right; auto].
Qed.

Lemma try_ports_all_fail drv env ports : forall pv r,
  forallb (port_fails env) ports = true ->
  let res := try_ports drv env ports pv r in
  fst (fst res) = false /\ opened (snd res) = ports
  /\ (forall q, In q ports -> probe env q = AdapterFails -> In q (closed (snd res))).
Proof.
  induction ports as [|q ports IH]; intros pv r Hf; cbn [try_ports].
  - cbn. repeat split. intros q [].
  - cbn [forallb] in Hf. apply andb_prop in Hf as [Hq Hf].
    destruct (failing_port_gives_inr drv env q pv r Hq) as (pv' & evs & -> & Ho & Hc).
    specialize (IH pv' (upd_device None (upd_conn None (upd_port None r))) Hf).
    cbv zeta in IH. destruct (try_ports drv env ports pv' _) as [[ok r2] evs2].
    cbn [fst snd] in *. destruct IH as (I1 & I2 & I3).
    rewrite opened_app, closed_app, Ho, I2. repeat split; trivial.
    intros x [->|Hin] Hx; apply in_or_app; [left; auto|right; auto].
Qed.

(** [_connect] tries the candidates in order and stops at the first that
    answers: with the candidates [failing ++ p :: rest], where every port
    of [failing] fails and [p] answers, it opens exactly [failing] and then
    [p], closes every port of [failing] that had opened, opens none of
    [rest] beyond that, and returns with the device on [p] and the warm-up
    deadline five seconds ahead. *)
Theorem connect_stops_at_first_answer drv (env : Env) (r : Reader)
  (failing rest : list string) (p : string) (dev : Device) (start : StartOutcome) :
  no_driver drv = false ->
  ports_to_try (uart_port r) (detected env) = failing ++ p :: rest ->
  forallb (port_fails env) failing = true ->
  probe env p = Opened dev start ->
  let ok := fst (fst (_connect drv env r)) in
  let r' := snd (fst (_connect drv env r)) in
  let evs := snd (_connect drv env r) in
  ok = true /\ opened evs = failing ++ [p]
  /\ _device r' = Some dev /\ _port r' = Some p
  /\ _warmup_deadline r' = PrimFloat.add (clock_connect env) 5%float
  /\ (forall q, In q failing -> probe env q = AdapterFails -> In q (closed evs)).
Proof.
  intros Hn Hports Hf Hp. cbv zeta. unfold _connect. rewrite Hn, Hports.
  pose proof (try_ports_scan drv env failing None r p rest dev start
                (usable_driver drv Hn) Hf Hp) as S. cbv zeta in S.
  destruct (try_ports _ _ _ _ _) as [[ok r'] evs]. cbn [fst snd] in *.
  destruct S as (S1 & S2 & S3 & S4 & S5 & S6).
  cbn [opened closed]. now repeat split.
Qed.

(** Three detected ports of which only the third answers. *)
Lemma connect_stops_at_first_answer_witness :
  let env :=
    mkEnv (Some ["COM3"; "COM4"; "COM5"; "COM6"]%string)
      (fun p => if String.eqb p "COM5"
                then Opened (Scenario.shdlc_device p) Scenario.start_ok
                else if String.eqb p "COM4" then AdapterFails else OpenFails)
      1000 1000 (fun _ => Some true) None None 0 0 Scenario.start_ok 0 in
  let r := init None 5 true in
  opened (snd (_connect Scenario.legacy_drivers env r)) = ["COM3"; "COM4"; "COM5"]%string
  /\ _port (snd (fst (_connect Scenario.legacy_drivers env r))) = Some "COM5"%string
  /\ In "COM4"%string (closed (snd (_connect Scenario.legacy_drivers env r))).
Proof.
  intros env r.
  destruct (connect_stops_at_first_answer Scenario.legacy_drivers env r
              ["COM3"; "COM4"]%string ["COM6"%string] "COM5"%string
              (Scenario.shdlc_device "COM5") Scenario.start_ok
              eq_refl eq_refl eq_refl eq_refl)
    as (_ & Ho & _ & Hp & _ & Hc).
  split; [exact Ho|]. split; [exact Hp|].
  apply (Hc "COM4"%string); [right; now left|reflexivity].
Defined.

(** When no candidate answers, [_connect] fails after opening every
    candidate once, in order, and holds no handle afterwards. *)
Theorem connect_fails_after_trying_all drv (env : Env) (r : Reader) :
  no_driver drv = false ->
  forallb (port_fails env) (ports_to_try (uart_port r) (detected env)) = true ->
  let ok := fst (fst (_connect drv env r)) in
  let r' := snd (fst (_connect drv env r)) in
  let evs := snd (_connect drv env r) in
  ok = false
  /\ opened evs = ports_to_try (uart_port r) (detected env)
  /\ _device r' = None /\ _port r' = None /\ _conn r' = None.
Proof.
  intros Hn Hf. cbv zeta.
  pose proof (connect_general drv env r) as (_ & _ & _ & Hno). cbv zeta in Hno.
  unfold _connect in *. rewrite Hn in *.
  pose proof (try_ports_all_fail drv env _ None r Hf) as A. cbv zeta in A.
  pose proof (try_ports_general drv env (ports_to_try (uart_port r) (detected env))
                None r) as (_ & _ & _ & G). cbv zeta in G.
  destruct (try_ports _ _ _ _ _) as [[ok r'] evs]. cbn [fst snd] in *.
  destruct A as (A1 & A2 & _). cbn [opened]. split; [exact A1|]. split; [exact A2|].
  destruct (G A1) as [[Hnil _]|H3]; [|exact H3].
  exfalso. revert Hnil. unfold ports_to_try.
  destruct (uart_port r) as [u|]; [destruct (Py.truthy_str (Some u)); [discriminate|]|];
    destruct (match detected env with Some ports => _ | None => [] end);
    discriminate.
Qed.

Lemma connect_fails_after_trying_all_witness :
  let r := init (Some "COM9"%string) 5 true in
  opened (snd (_connect Scenario.legacy_drivers Scenario.env_absent r)) = ["COM9"%string]
  /\ _device (snd (fst (_connect Scenario.legacy_drivers Scenario.env_absent r))) = None.
Proof.
  intros r.
  destruct (connect_fails_after_trying_all Scenario.legacy_drivers Scenario.env_absent r
              eq_refl eq_refl) as (_ & Ho & Hd & _).
  split; [exact Ho|exact Hd].
Defined.

End ConnectMore.

(** ** What the loop keeps true *)

Module InvariantMore.
Import SPS30Reader Observe ObserveMore ReaderFacts ConnectFacts ReaderMoreFacts.

Lemma invariant_transfer r r' :
  same_handles r r' ->
  _consecutive_read_failures r' = _consecutive_read_failures r ->
  _max_consecutive_failures r' = _max_consecutive_failures r ->
  reader_invariant r -> reader_invariant r'.
Proof.
  unfold reader_invariant, handles_consistent, counter_in_range, same_handles.
  intros (H1 & H2 & H3) Hc Hm ((A & B) & (C & D)).
  rewrite H1, H2, H3, Hc, Hm. tauto.
Qed.

Lemma invariant_no_handles r :
  _device r = None -> _port r = None -> _conn r = None ->
  counter_in_range r -> reader_invariant r.
Proof.
  unfold reader_invariant, handles_consistent. intros -> -> ->. tauto.
Qed.

Lemma invariant_device r dev p :
  _device r = Some dev -> _port r = Some p ->
  counter_in_range r -> reader_invariant r.
Proof.
  unfold reader_invariant, handles_consistent. intros -> -> Hc.
  split; [split; [split|]; intros; discriminate|exact Hc].
Qed.

Lemma connect_step_invariant drv env lp :
  reader_invariant (reader lp) ->
  reader_invariant (reader (snd (fst (connect_step drv env lp)))).
Proof.
  intros Inv. unfold connect_step.
  destruct (_device (reader lp)) as [dev|] eqn:Hd; [exact Inv|].
  pose proof (connect_general drv env (reader lp)) as (C & _ & Hok & Hno).
  cbv zeta in *. destruct (_connect drv env (reader lp)) as [[ok r] evs].
  cbn [fst snd] in *. unfold same_controls in C.
  destruct C as (_ & _ & _ & _ & Cc & Cm & _).
  destruct Inv as (Hh & Hm & Hr).
  destruct ok; cbn [negb fst snd reader].
  - destruct (Hok eq_refl) as ((dev & Hdev) & (p & Hp) & _).
    apply (invariant_device _ dev p); fields; trivial.
    unfold counter_in_range. fields. split; [congruence|lia].
  - destruct (Hno eq_refl) as [->|(H1 & H2 & H3)].
    + now split.
    + apply invariant_no_handles; trivial.
      unfold counter_in_range. rewrite Cc, Cm. now split.
Qed.

Lemma read_step_invariant drv env lp :
  reader_invariant (reader lp) ->
  reader_invariant (reader (snd (fst (read_step drv env lp)))).
Proof.
  intros Inv. unfold read_step.
  pose proof (read_controls env (reader lp)) as (C & H & _). cbv zeta in *.
  destruct (_read_measurement env (reader lp)) as [[sample r] evs].
  cbn [fst snd] in *. unfold same_controls in C.
  destruct C as (_ & _ & _ & _ & Cc & Cm & _).
  assert (Inv1 : reader_invariant r) by (eapply invariant_transfer; eauto).
  destruct Inv1 as (Hh & Hm & Hr).
  destruct sample as [s|].
  - cbn [fst snd reader].
    apply (invariant_transfer (upd_consecutive_read_failures 0 r)).
    + unfold same_handles. fields. now repeat split.
    + reflexivity.
    + reflexivity.
    + split.
      * unfold handles_consistent in *. fields. exact Hh.
      * unfold counter_in_range. fields. split; [exact Hm|lia].
  - fields.
    destruct (_consecutive_read_failures r + 1 >=? _max_consecutive_failures r) eqn:E.
    + match goal with |- context [_disconnect ?x] =>
        pose proof (disconnect_fields x) as (F1 & F2 & F3 & _ & _ & _ & _ & F4 & _);
        destruct (_disconnect x) as [r2 evd] end.
      cbv zeta in *. cbn [fst snd reader] in *. fields.
      apply invariant_no_handles; fields; trivial.
      unfold counter_in_range. fields. split; [congruence|lia].
    + match goal with |- context [_ensure_started drv ?o ?x] =>
        pose proof (ensure_started_controls drv o x) as (C2 & H2 & _);
        destruct (_ensure_started drv o x) as [r2 eve] end.
      cbn [fst snd reader] in *. unfold same_controls in C2.
      destruct C2 as (_ & _ & _ & _ & Cc2 & Cm2 & _). fields.
      rewrite Z.geb_leb in E. apply Z.leb_gt in E.
      split.
      * unfold handles_consistent, same_handles in *. fields.
        destruct H2 as (-> & -> & ->). exact Hh.
      * unfold counter_in_range. rewrite Cc2, Cm2. split; [exact Hm|lia].
Qed.

Lemma tick_invariant drv env lp :
  reader_invariant (reader lp) ->
  reader_invariant (reader (snd (fst (tick drv env lp)))).
Proof.
  intros Inv. unfold tick.
  pose proof (connect_step_invariant drv env lp Inv) as I1.
  destruct (connect_step drv env lp) as [[go lp1] evs]. cbn [fst snd] in I1.
  destruct go; [|exact I1].
  destruct (_paused (reader lp1)); [exact I1|].
  pose proof (read_step_invariant drv env lp1 I1) as I2.
  destruct (read_step drv env lp1) as [[o lp2] evs2]. exact I2.
Qed.

Lemma disconnect_invariant r :
  counter_in_range r -> reader_invariant (fst (_disconnect r)).
Proof.
  intros (Hm & Hr).
  pose proof (disconnect_fields r) as (F1 & F2 & F3 & _ & _ & _ & F4 & F5 & _).
  cbv zeta in *. apply invariant_no_handles; trivial.
  unfold counter_in_range. rewrite F4, F5. now split.
Qed.

(** Every operation on the reader, run from its first statement to its
    last with nothing in between, keeps what [__init__] establishes: a
    device is held exactly when a port is, a connection only with a
    device, and the failure counter is between 0 and 49 against the
    threshold 50. This holds of a loop iteration and of [set_port],
    [_disconnect], [stop], [resume], [pause] and [start]. *)
Theorem reader_invariant_call_by_call drv (env : Env) (o : StartOutcome)
  (port_name : option string) (exited : bool) (tid : nat) (lp : Loop) :
  reader_invariant (reader lp) ->
  reader_invariant (reader (snd (fst (tick drv env lp))))
  /\ reader_invariant (fst (set_port port_name (reader lp)))
  /\ reader_invariant (fst (_disconnect (reader lp)))
  /\ reader_invariant (fst (stop exited (reader lp)))
  /\ reader_invariant (fst (resume drv o (reader lp)))
  /\ reader_invariant (pause (reader lp))
  /\ reader_invariant (fst (start tid (reader lp)))
  /\ (forall uart_port period callback,
        reader_invariant (init uart_port period callback)).
Proof.
  intros Inv. pose proof Inv as (_ & Hm & Hr).
  split; [now apply tick_invariant|].
  split.
  { unfold set_port.
    pose proof (disconnect_fields (upd_uart_port port_name (reader lp)))
      as (F1 & F2 & F3 & _ & _ & _ & F4 & F5 & _).
    destruct (_disconnect _) as [r evs]. cbv zeta in *. cbn [fst snd reader] in *.
    apply invariant_no_handles; fields; trivial.
    unfold counter_in_range. fields. rewrite F4, F5. now split. }
  split; [apply disconnect_invariant; now split|].
  split.
  { unfold stop.
    set (r1 := match _thread (upd_stop_event true (reader lp)) with
               | Some t => (upd_thread None (upd_stop_event true (reader lp)),
                            [EvJoin t exited])
               | None => (upd_stop_event true (reader lp), [])
               end).
    assert (C : counter_in_range (fst r1)).
    { subst r1. destruct (_thread _); unfold counter_in_range; fields; now split. }
    destruct r1 as [r1 evj]. cbn [fst] in C.
    pose proof (disconnect_invariant r1 C) as D.
    destruct (_disconnect r1) as [r2 evd]. exact D. }
  split.
  { unfold resume.
    pose proof (ensure_started_controls drv o (upd_paused false (reader lp)))
      as (C & H & _).
    destruct (_ensure_started _ _ _) as [r evs]. cbn [fst snd reader] in *.
    unfold same_controls in C. destruct C as (_ & _ & _ & _ & Cc & Cm & _).
    eapply invariant_transfer; [| | |exact Inv].
    + unfold same_handles in *. fields. exact H.
    + fields. exact Cc.
    + fields. exact Cm. }
  split.
  { unfold pause. eapply invariant_transfer; [| | |exact Inv]; trivial.
    unfold same_handles. fields. now repeat split. }
  split.
  { unfold start. destruct (_thread (reader lp)); [exact Inv|]. cbn [fst].
    eapply invariant_transfer; [| | |exact Inv]; trivial.
    unfold same_handles. fields. now repeat split. }
  intros uart_port period callback.
  apply invariant_no_handles; try reflexivity. split; [reflexivity|cbn; lia].
Qed.

(** The connected reader of [Scenario.connected] after one more
    iteration, and after a [set_port] to COM7. *)
Lemma reader_invariant_call_by_call_witness :
  let lp := Scenario.connected in
  reader_invariant (reader lp)
  /\ reader_invariant
       (reader (snd (fst (tick Scenario.legacy_drivers (Scenario.env_at 1001.5) lp))))
  /\ reader_invariant (fst (set_port (Some "COM7"%string) (reader lp))).
Proof.
  intros lp.
  assert (Inv : reader_invariant (reader lp)).
  { apply (invariant_device _ (Scenario.shdlc_device "COM3") "COM3"%string);
      [vm_compute; reflexivity|vm_compute; reflexivity|].
    split; [vm_compute; reflexivity|].
    assert (E : _consecutive_read_failures (reader lp) = 1) by (vm_compute; reflexivity).
    rewrite E. lia. }
  split; [exact Inv|].
  destruct (reader_invariant_call_by_call Scenario.legacy_drivers
              (Scenario.env_at 1001.5) Scenario.start_ok (Some "COM7"%string)
              true O lp Inv) as (T & S & _).
  split; [exact T|exact S].
Defined.

(** *** A [_connect] inside another thread's [_disconnect] *)

Lemma disconnect_by_statements r :
  _disconnect r
  = (fst (Interleaving.run Interleaving._disconnect_statements r),
     EvDisconnect :: snd (Interleaving.run Interleaving._disconnect_statements r)).
Proof.
  unfold _disconnect, Interleaving._disconnect_statements, Interleaving.run,
    Interleaving.drop_device, Interleaving.drop_conn, Interleaving.close_port,
    Interleaving.drop_port.
  fields. destruct (_conn r); fields; now rewrite !app_nil_r.
Qed.

(** A connect that succeeds holds the device built on the last port it
    opened, one of its candidates. *)
Lemma try_ports_holds_last_opened drv env ports : forall pv r r' evs,
  try_ports drv env ports pv r = (true, r', evs) ->
  exists dev p before,
    _device r' = Some dev /\ _port r' = Some p
    /\ opened evs = before ++ [p] /\ In p ports.
Proof.
  induction ports as [|q ports IH]; intros pv r r' evs; cbn [try_ports];
    [discriminate|].
  destruct (try_port_trace drv env q pv r) as (_ & _ & _ & To).
  destruct (try_port drv env q pv r) as [[r1|pv'] evs1] eqn:E; cbn [snd] in To.
  - intros H. inversion H; subst.
    apply try_port_success in E as ((dev & start & _ & Hd) & Hp & _).
    exists dev, q, []. repeat split; trivial. now left.
  - destruct (try_ports drv env ports pv' _) as [[ok r2] evs2] eqn:E2.
    intros H. inversion H; subst.
    destruct (IH _ _ _ _ E2) as (dev & p & before & Hd & Hp & Ho & Hin).
    exists dev, p, (q :: before). rewrite opened_app, To, Ho.
    repeat split; trivial. now right.
Qed.

Lemma connect_succeeds_on_candidate drv env r :
  fst (fst (_connect drv env r)) = true ->
  exists dev p before,
    _device (snd (fst (_connect drv env r))) = Some dev
    /\ _port (snd (fst (_connect drv env r))) = Some p
    /\ opened (snd (_connect drv env r)) = before ++ [p]
    /\ In p (ports_to_try (uart_port r) (detected env)).
Proof.
  unfold _connect. destruct (no_driver drv); [discriminate|].
  destruct (try_ports _ _ _ _ _) as [[ok r'] evs] eqn:E. cbn [fst snd].
  intros ->. apply try_ports_holds_last_opened in E. exact E.
Qed.

(** The reader has no lock, and the invariant of the handles does not
    survive a [_disconnect] that another thread runs around the loop's
    [_connect]. Once the outside thread has executed [self._device = None]
    the loop finds no device and connects; whenever that connect succeeds
    before the outside thread has reached [self._port = None], the
    remaining statements leave a reader that holds the new device and no
    port. When the connect came before [self._port.close()], it is the
    port just opened that gets closed, under the device that was built on
    it; when it came after, the new port stays open and unrecorded. The
    statements of [_disconnect] run in one piece are [_disconnect]. *)
Theorem connect_inside_disconnect_breaks_invariant drv (env : Env) (r : Reader) (k : nat) :
  (1 <= k <= 3)%nat ->
  fst (fst (fst (Interleaving.connect_inside_disconnect k drv env r))) = true ->
  let r' := snd (fst (fst (Interleaving.connect_inside_disconnect k drv env r))) in
  let evs := snd (fst (Interleaving.connect_inside_disconnect k drv env r)) in
  let after := snd (Interleaving.connect_inside_disconnect k drv env r) in
  _device (fst (Interleaving.run (firstn k Interleaving._disconnect_statements) r)) = None
  /\ (exists dev p before,
        _device r' = Some dev /\ opened evs = before ++ [p]
        /\ In p (ports_to_try (uart_port r) (detected env))
        /\ closed after = match k with 3%nat => [] | _ => [p] end)
  /\ _port r' = None
  /\ ~ handles_consistent r'
  /\ _disconnect r
     = (fst (Interleaving.run Interleaving._disconnect_statements r),
        EvDisconnect :: snd (Interleaving.run Interleaving._disconnect_statements r)).
Proof.
  intros Hk. unfold Interleaving.connect_inside_disconnect.
  destruct (Interleaving.run (firstn k Interleaving._disconnect_statements) r)
    as [r1 before] eqn:E1.
  assert (D1 : _device r1 = None /\ uart_port r1 = uart_port r).
  { revert E1. unfold Interleaving._disconnect_statements, Interleaving.run,
      Interleaving.drop_device, Interleaving.drop_conn, Interleaving.close_port,
      Interleaving.drop_port.
    destruct k as [|[|[|[|k]]]]; try lia; cbn [firstn]; fields;
      intros E; inversion E; subst; fields; try (now split);
      destruct (_conn r); now split. }
  destruct D1 as (D1 & U1).
  pose proof (connect_succeeds_on_candidate drv env r1) as G.
  destruct (_connect drv env r1) as [[ok r2] evs] eqn:E2. cbn [fst snd] in G.
  destruct (Interleaving.run (skipn k Interleaving._disconnect_statements) r2)
    as [r3 after] eqn:E3.
  cbn [fst snd]. intros ->. cbv zeta.
  destruct (G eq_refl) as (dev & p & pre & Hd & Hp & Hl & Hin).
  rewrite U1 in Hin.
  assert (R3 : _device r3 = Some dev /\ _port r3 = None
               /\ closed after = match k with 3%nat => [] | _ => [p] end).
  { revert E3. unfold Interleaving._disconnect_statements, Interleaving.run,
      Interleaving.drop_device, Interleaving.drop_conn, Interleaving.close_port,
      Interleaving.drop_port.
    destruct k as [|[|[|[|k]]]]; try lia; cbn [skipn]; fields;
      intros E; inversion E; subst; fields; rewrite ?Hp; cbn;
      try (now repeat split); destruct (_conn r2); fields; rewrite ?Hp; now repeat split. }
  destruct R3 as (A & B & C).
  split; [exact D1|]. split; [now exists dev, p, pre|]. split; [exact B|].
  split; [|apply disconnect_by_statements].
  intros (Hc & _). rewrite A in Hc. apply Hc in B. discriminate.
Qed.

(** The tray thread is inside the [_disconnect] of the connected reader
    and has just cleared the device when the loop reconnects on COM3: the
    reader ends with the new device, no port, and COM3 closed. *)
Lemma connect_inside_disconnect_breaks_invariant_witness :
  let r := reader Scenario.connected in
  let run := Interleaving.connect_inside_disconnect 1 Scenario.legacy_drivers
               (Scenario.env_at 1010) r in
  _device (snd (fst (fst run))) = Some (Scenario.shdlc_device "COM3")
  /\ _port (snd (fst (fst run))) = None
  /\ closed (snd run) = ["COM3"%string]
  /\ ~ handles_consistent (snd (fst (fst run))).
Proof.
  intros r run.
  split; [vm_compute; reflexivity|]. split; [vm_compute; reflexivity|].
  split; [vm_compute; reflexivity|].
  assert (Hok : fst (fst (fst run)) = true) by (vm_compute; reflexivity).
  pose proof (connect_inside_disconnect_breaks_invariant Scenario.legacy_drivers
                (Scenario.env_at 1010) r 1 ltac:(lia) Hok) as W.
  cbv zeta in W. destruct W as (_ & _ & _ & N & _). exact N.
Defined.

End InvariantMore.

(** ** Iterations that are paused, and iterations that sample *)

Module LoopMore.
Import SPS30Reader Observe ObserveMore ReaderFacts ConnectFacts ReaderMoreFacts.

(** A sample comes only from an open device past its warm-up that has one
    of the read methods, and it carries the time of the read. *)
Theorem sample_only_when_ready (env : Env) (r : Reader) (s : Sample) :
  fst (fst (_read_measurement env r)) = Some s ->
  exists dev,
    _device r = Some dev /\ warming_up env r = false
    /\ ts s = now_sample env
    /\ (has_read_measured_values dev || has_read_measured_value dev
        || has_read_measurement_values_uint16 dev)%bool = true.
Proof.
  unfold _read_measurement.
  destruct (_device r) as [dev|]; [|discriminate].
  destruct (warming_up env r); [discriminate|]. hide_polls.
  destruct (has_read_measured_values dev || has_read_measured_value dev)%bool eqn:Eh.
  - destruct (legacy_read env) as [m|]; [|discriminate].
    cbn [fst]. intros H. inversion H. exists dev.
    split; [reflexivity|]. split; [reflexivity|]. split; [|now rewrite Eh].
    unfold Normalize.sample_legacy.
    now destruct (Normalize.extract_legacy m) as [[[a b] c] d].
  - destruct (has_read_measurement_values_uint16 dev) eqn:Eu; [|discriminate].
    destruct (uart_read env) as [values|]; [|discriminate].
    destruct (Normalize.extract_uart values) as [[[[a b] c] d]|]; [|discriminate].
    cbn [fst]. intros H. inversion H. exists dev.
    split; [reflexivity|]. split; [reflexivity|]. split; [reflexivity|].
    now rewrite Eh, Eu.
Qed.

Lemma sample_only_when_ready_witness :
  exists dev,
    _device (reader Scenario.connected) = Some dev
    /\ warming_up (Scenario.env_reading 1010) (reader Scenario.connected) = false
    /\ ts (mkSample 1700000000000000 1 2 3 4) = 1700000000000000
    /\ (has_read_measured_values dev || has_read_measured_value dev
        || has_read_measurement_values_uint16 dev)%bool = true.
Proof.
  exact (sample_only_when_ready (Scenario.env_reading 1010) (reader Scenario.connected)
           (mkSample 1700000000000000 1 2 3 4) eq_refl).
Defined.

(** An iteration whose read gives a sample: the callback, if there is
    one, gets exactly that sample, the failure counter is 0, the time of
    the last sample is set, the device is kept, [_disconnect] is not
    entered, and [is_connected] holds from then until 20 s later. *)
Theorem tick_with_sample drv (env : Env) (lp : Loop) (dev : Device) :
  _device (reader lp) = Some dev ->
  _paused (reader lp) = false ->
  reads_none env (reader lp) = false ->
  exists s,
    fst (fst (_read_measurement env (reader lp))) = Some s
    /\ fst (fst (tick drv env lp)) = Sampled s
    /\ callbacks (snd (tick drv env lp))
       = (if on_sample_callback (reader lp) then [s] else [])
    /\ disconnects (snd (tick drv env lp)) = O
    /\ let r' := reader (snd (fst (tick drv env lp))) in
       _consecutive_read_failures r' = 0
       /\ _last_sample_time r' = Some (now_done env)
       /\ _device r' = Some dev
       /\ (forall now, now - now_done env < 20 * 1000000 -> is_connected now r' = true).
Proof.
  intros Hd Hp Hn. unfold reads_none in Hn. unfold tick, connect_step.
  rewrite Hd, Hp. unfold read_step.
  pose proof (read_controls env (reader lp)) as (C & (H1 & _) & _).
  pose proof (read_trace env (reader lp)) as (T1 & T2 & _).
  cbv zeta in *.
  destruct (_read_measurement env (reader lp)) as [[[s|] r] evs]; [|discriminate].
  cbn [fst snd] in *. unfold same_controls in C.
  destruct C as (_ & _ & _ & _ & _ & _ & _ & Cb & _).
  exists s. split; [reflexivity|]. split; [reflexivity|].
  rewrite !callbacks_app, !disconnects_app, T1, T2, Cb. fields.
  assert (R : forall n, callbacks (repeat (EvSleep 0.05) n) = []
                        /\ disconnects (repeat (EvSleep 0.05) n) = O).
  { induction n as [|n IH]; cbn; [now split|exact IH]. }
  destruct (R (idle_sleeps env)) as (R1 & R2). rewrite R1, R2.
  split; [destruct (on_sample_callback (reader lp)); reflexivity|].
  split; [destruct (on_sample_callback (reader lp)); reflexivity|].
  split; [reflexivity|]. split; [reflexivity|]. split; [congruence|].
  intros now Hnow. unfold is_connected, twenty_seconds. fields.
  rewrite H1, Hd. now apply Z.ltb_lt.
Qed.

Lemma tick_with_sample_witness :
  let lp := Scenario.connected in
  let env := Scenario.env_reading 1010 in
  exists s,
    fst (fst (_read_measurement env (reader lp))) = Some s
    /\ fst (fst (tick Scenario.legacy_drivers env lp)) = Sampled s
    /\ callbacks (snd (tick Scenario.legacy_drivers env lp)) = [s]
    /\ _consecutive_read_failures
         (reader (snd (fst (tick Scenario.legacy_drivers env lp)))) = 0.
Proof.
  intros lp env.
  destruct (tick_with_sample Scenario.legacy_drivers env lp
              (Scenario.shdlc_device "COM3") eq_refl eq_refl eq_refl)
    as (s & H1 & H2 & H3 & _ & H4 & _).
  exists s. repeat split; assumption.
Defined.

(** A paused iteration asks the device nothing, calls no callback and
    tears nothing down; with a device open it only sleeps 0.2 s. But the
    pause does not hold back the connect: with no device the iteration
    still runs [_connect], and when that succeeds the reader holds the
    port while paused. *)
Theorem paused_tick_still_connects drv (env : Env) (lp : Loop) :
  _paused (reader lp) = true ->
  let o := fst (fst (tick drv env lp)) in
  let lp' := snd (fst (tick drv env lp)) in
  let evs := snd (tick drv env lp) in
  (o = Paused \/ o = ConnectFailed)
  /\ reads evs = O /\ callbacks evs = [] /\ disconnects evs = O
  /\ (forall dev, _device (reader lp) = Some dev ->
        tick drv env lp = (Paused, lp, [EvSleep 0.2%float]))
  /\ (_device (reader lp) = None ->
        opened evs = opened (snd (_connect drv env (reader lp)))
        /\ (fst (fst (_connect drv env (reader lp))) = true ->
            o = Paused /\ exists dev, _device (reader lp') = Some dev)).
Proof.
  intros Hp. cbv zeta. unfold tick, connect_step.
  destruct (_device (reader lp)) as [dev|] eqn:Hd.
  - rewrite Hp. cbn [fst snd reads callbacks disconnects].
    repeat split; auto; discriminate.
  - pose proof (connect_general drv env (reader lp)) as (C & R & Hok & _).
    pose proof (connect_trace drv env (reader lp)) as (_ & T2 & T3).
    cbv zeta in *.
    destruct (_connect drv env (reader lp)) as [[ok r] evs].
    cbn [fst snd] in *. unfold same_controls in C.
    destruct C as (_ & Cp & _).
    destruct ok; cbn [negb].
    + fields. rewrite Cp, Hp. cbn [fst snd].
      rewrite reads_app, callbacks_app, disconnects_app, opened_app, R, T2, T3.
      cbn. rewrite app_nil_r.
      split; [now left|]. split; [reflexivity|]. split; [reflexivity|].
      split; [reflexivity|]. split; [discriminate|].
      intros _. split; [reflexivity|]. intros _. split; [reflexivity|].
      now destruct (Hok eq_refl) as (Hdev & _).
    + cbn [fst snd].
      rewrite reads_app, callbacks_app, disconnects_app, opened_app, R, T2, T3.
      cbn. rewrite app_nil_r.
      split; [now right|]. split; [reflexivity|]. split; [reflexivity|].
      split; [reflexivity|]. split; [discriminate|].
      intros _. split; [reflexivity|]. discriminate.
Qed.

(** Paused with no device and the sensor on COM3: the port gets opened. *)
Lemma paused_tick_still_connects_witness :
  let lp := loop_start (pause (init (Some "COM3"%string) 5 true)) in
  let env := Scenario.env_at 1000.5 in
  opened (snd (tick Scenario.legacy_drivers env lp)) = ["COM3"%string]
  /\ fst (fst (tick Scenario.legacy_drivers env lp)) = Paused
  /\ reads (snd (tick Scenario.legacy_drivers env lp)) = O.
Proof.
  intros lp env.
  destruct (paused_tick_still_connects Scenario.legacy_drivers env lp eq_refl)
    as (_ & R & _ & _ & _ & H).
  destruct (H eq_refl) as (Ho & Hc).
  split; [rewrite Ho; reflexivity|]. split; [exact (proj1 (Hc eq_refl))|exact R].
Defined.



End LoopMore.

(** ** The CSV log *)

Module CSVLoggerMore.
Import CSVLogger.

Section Formats.

Variable iso : Z -> string.
Variable f3 : float -> string.
Variable day : Z -> string.





End Formats.


End CSVLoggerMore.

(** ** From the queue to the store and the log *)

Module AppMore.
Import App.

Section Formats.

Variable iso : Z -> string.
Variable f3 : float -> string.
Variable day : Z -> string.

Lemma pump_store queue : forall st,
  fst (fst (_pump_ui iso f3 day queue st))
  = DataStore.add_all (map (fun h => (at_add h, sample h)) queue) (fst st).
Proof.
  unfold _pump_ui. cbn [fst].
  induction queue as [|h queue IH]; intros st; trivial.
  cbn [fold_left map]. rewrite IH. reflexivity.
Qed.

Lemma pump_log queue : forall st,
  snd (fst (_pump_ui iso f3 day queue st))
  = CSVLogger.append_all iso f3 day
      (map (fun h => (at_append h, log_opens h, sample h)) queue) (snd st).
Proof.
  unfold _pump_ui. cbn [fst snd].
  induction queue as [|h queue IH]; intros st; trivial.
  cbn [fold_left map]. rewrite IH. reflexivity.
Qed.

(** [_pump_ui] hands every queued sample, oldest first, to the store and
    to the log; pumping twice gives the store and the log of one pump over
    both queues; and the next pump comes after 500 ms when the queue was
    empty, after 200 ms otherwise. *)
Theorem pump_is_fifo (q1 q2 : list Handled) (st : list Sample * CSVLogger.directory) :
  fst (fst (_pump_ui iso f3 day q1 st))
  = DataStore.add_all (map (fun h => (at_add h, sample h)) q1) (fst st)
  /\ snd (fst (_pump_ui iso f3 day q1 st))
     = CSVLogger.append_all iso f3 day
         (map (fun h => (at_append h, log_opens h, sample h)) q1) (snd st)
  /\ fst (_pump_ui iso f3 day q2 (fst (_pump_ui iso f3 day q1 st)))
     = fst (_pump_ui iso f3 day (q1 ++ q2) st)
  /\ (snd (_pump_ui iso f3 day q1 st) = 500 <-> q1 = [])
  /\ (snd (_pump_ui iso f3 day q1 st) = 200 <-> q1 <> []).
Proof.
  split; [apply pump_store|]. split; [apply pump_log|]. split.
  - unfold _pump_ui. cbn [fst]. now rewrite fold_left_app.
  - unfold _pump_ui. cbn [snd]. destruct q1; cbn; split; split;
      intros; try discriminate; try reflexivity; congruence.
Qed.

End Formats.

End AppMore.

(** ** Starting the measurement at connect *)

Module StartMore.
Import SPS30Reader Observe ObserveMore ReaderFacts ConnectFacts ReaderMoreFacts.

Lemma started_ok_app a b : started_ok (a ++ b) = (started_ok a || started_ok b)%bool.
Proof.
  induction a as [|e a IH]; trivial.
  destruct e; cbn [app started_ok]; trivial. now destruct ok.
Qed.

Lemma ensure_started_flag drv o r :
  _measurement_started (fst (_ensure_started drv o r))
  = (_measurement_started r || started_ok (snd (_ensure_started drv o r)))%bool
  /\ (_measurement_started r = true -> starts (snd (_ensure_started drv o r)) = O).
Proof.
  unfold _ensure_started.
  destruct (_device r) as [dev|]; [|cbn; now rewrite orb_false_r].
  destruct (_measurement_started r) eqn:E; [cbn; now rewrite E|].
  split; [|discriminate].
  destruct (has_start_measurement dev); [|cbn; now rewrite E].
  destruct (OutputFormat drv), (with_format_ok o), (plain_ok o); cbn; now rewrite ?E.
Qed.

Lemma try_port_flag drv env p pv r :
  let res := try_port drv env p pv r in
  match fst res with
  | inl r' =>
      _measurement_started r'
      = (_measurement_started r || started_ok (snd res))%bool
  | inr _ => started_ok (snd res) = false
  end
  /\ (_measurement_started r = true -> starts (snd res) = O).
Proof.
  cbv zeta. unfold try_port. destruct (probe env p) as [| |dev start].
  - destruct pv; now cbn.
  - now cbn.
  - destruct (ShdlcChannel drv && Sps30UartDevice drv)%bool;
      [|destruct (Sps30ShdlcDevice drv); [|now cbn]].
    + match goal with |- context [_ensure_started drv start ?x] =>
        pose proof (ensure_started_flag drv start x) as (F & S);
        destruct (_ensure_started drv start x) as [r1 evs1] end.
      cbn [fst snd] in *. fields. cbn [started_ok starts]. now split.
    + match goal with |- context [_ensure_started drv start ?x] =>
        pose proof (ensure_started_flag drv start x) as (F & S);
        destruct (_ensure_started drv start x) as [r1 evs1] end.
      cbn [fst snd] in *. fields. cbn [started_ok starts]. now split.
Qed.

Lemma try_ports_flag drv env ports : forall pv r,
  let res := try_ports drv env ports pv r in
  _measurement_started (snd (fst res))
  = (_measurement_started r || started_ok (snd res))%bool
  /\ (_measurement_started r = true -> starts (snd res) = O).
Proof.
  induction ports as [|p rest IH]; intros pv r; cbn [try_ports].
  - cbn. now rewrite orb_false_r.
  - pose proof (try_port_flag drv env p pv r) as (F & S). cbv zeta in F, S.
    destruct (try_port drv env p pv r) as [[r1|pv'] evs]; cbn [fst snd] in *.
    + now split.
    + specialize (IH pv' (upd_device None (upd_conn None (upd_port None r)))).
      cbv zeta in IH. destruct (try_ports drv env rest pv' _) as [[ok r2] evs2].
      cbn [fst snd] in *. fields. destruct IH as (I1 & I2).
      rewrite started_ok_app, starts_app, F, I1. split; [reflexivity|].
      intros H. now rewrite (S H), (I2 H).
Qed.

(** At connect the start command depends on the flag alone: after
    [_connect] the flag is set exactly when it was set before or a start
    command returned during the scan, and when it was set before, no start
    command is sent to the device that was just opened. *)
Theorem connect_starts_only_when_flag_clear drv (env : Env) (r : Reader) :
  let r' := snd (fst (_connect drv env r)) in
  let evs := snd (_connect drv env r) in
  _measurement_started r' = (_measurement_started r || started_ok evs)%bool
  /\ (_measurement_started r = true -> starts evs = O /\ _measurement_started r' = true).
Proof.
  cbv zeta. unfold _connect. destruct (no_driver drv).
  - cbn. rewrite orb_false_r. split; [reflexivity|]. intros H. now split.
  - pose proof (try_ports_flag drv env (ports_to_try (uart_port r) (detected env))
                  None r) as (F & S). cbv zeta in F, S.
    destruct (try_ports _ _ _ _ _) as [[ok r'] evs]. cbn [fst snd] in *.
    cbn [started_ok starts]. split; [exact F|].
    intros H. split; [exact (S H)|]. now rewrite F, H.
Qed.

(** Reconnecting after a teardown that left the flag set. *)
Lemma connect_starts_only_when_flag_clear_witness :
  let r := fst (_disconnect (reader Scenario.connected)) in
  starts (snd (_connect Scenario.legacy_drivers (Scenario.env_at 2000) r)) = O
  /\ _measurement_started
       (snd (fst (_connect Scenario.legacy_drivers (Scenario.env_at 2000) r))) = true.
Proof.
  intros r.
  exact (proj2 (connect_starts_only_when_flag_clear Scenario.legacy_drivers
                  (Scenario.env_at 2000) r) eq_refl).
Defined.

End StartMore.
